(** * Moderation bot: message pipeline, classification client and log store

    A shallow embedding of the server side of the repository:
    - [shared/schema.ts]      the [ModConfig] and [ModerationLog] rows,
    - [server/storage.ts]     the in-memory store [MemStorage],
    - [server/openai-client.ts]  [analyzeMessage],
    - [server/discord-bot.ts] [broadcastLog] and the [messageCreate] handler
                              registered by [startBot].

    Asynchronous code is modelled as a state-and-exception monad that also
    records the externally visible calls of one handler run, in order.  The
    answers of the outside world (chat platform, classification service,
    clock, uuid generator) are read from an oracle record [Env]. *)

From Stdlib Require Import ZArith List Permutation Sorted Lia.
From Stdlib Require QArith.
From Stdlib Require DecimalString DecimalNat.
From stdpp Require Import base gmap strings list sorting.

Set Warnings "-register-all".
Local Open Scope string_scope.
Local Open Scope list_scope.
Local Open Scope Z_scope.

(** ** JavaScript values, as far as the server code inspects them *)

Module Js.
Import Stdlib.Strings.Ascii.

(** The result of [JSON.parse], plus [undefined] for missing properties. *)
Inductive value : Type :=
| JUndefined
| JNull
| JBool (b : bool)
| JNum (q : QArith_base.Q)
| JStr (s : string)
| JArr (xs : list value)
| JObj (fields : list (string * value)).

(** ToBoolean on strings: only the empty string is falsy. *)
Definition str_truthy (s : string) : bool :=
  match s with
  | EmptyString => false
  | String _ _ => true
  end.

(** ToBoolean. *)
Definition truthy (v : value) : bool :=
  match v with
  | JUndefined | JNull => false
  | JBool b => b
  | JNum q => negb (QArith_base.Qnum q =? 0)
  | JStr s => str_truthy s
  | JArr _ | JObj _ => true
  end.

(** [a || b] on values. *)
Definition or (a b : value) : value := if truthy a then a else b.

(** [s || d] where [s] is a nullable string. *)
Definition str_or (s : option string) (d : string) : string :=
  match s with
  | Some s' => if str_truthy s' then s' else d
  | None => d
  end.

(** ToBoolean of a nullable string. *)
Definition opt_truthy (s : option string) : bool :=
  match s with
  | Some s' => str_truthy s'
  | None => false
  end.

Fixpoint assoc (k : string) (fs : list (string * value)) : value :=
  match fs with
  | [] => JUndefined
  | (k', v) :: fs' => if String.eqb k k' then v else assoc k fs'
  end.

(** Property read [v.k] for the four keys the classifier reads.  Reading a
    property of [null] or [undefined] raises a TypeError ([None]); every
    other non-object has no such own property. *)
Definition get (v : value) (k : string) : option value :=
  match v with
  | JUndefined | JNull => None
  | JObj fs => Some (assoc k fs)
  | _ => Some JUndefined
  end.

(** The names every object literal inherits from [Object.prototype]. *)
Definition Object_prototype : list string :=
  ["constructor"; "hasOwnProperty"; "isPrototypeOf"; "propertyIsEnumerable";
   "toLocaleString"; "toString"; "valueOf"; "__proto__"; "__defineGetter__";
   "__defineSetter__"; "__lookupGetter__"; "__lookupSetter__"].

(** The result of reading [o[k]] on an object literal with string
    properties: the value of an own property, a member inherited from
    [Object.prototype] (a built-in function, or the prototype object for
    [__proto__]), or [undefined]. *)
Inductive lookup : Type :=
| Own (text : string)
| Inherited (name : string)
| Missing.

(** [Array.prototype.join]. *)
Fixpoint join (sep : string) (xs : list string) : string :=
  match xs with
  | [] => ""
  | [x] => x
  | x :: xs' => x +:+ sep +:+ join sep xs'
  end.

(** [Array.prototype.includes] on an array of strings. *)
Definition includes (xs : list string) (x : string) : bool :=
  existsb (String.eqb x) xs.

(** [Array.prototype.slice(0, end)]: a negative [end] counts from the back,
    and the bounds are clamped to the array. *)
Definition slice0 {A} (l : list A) (e : Z) : list A :=
  let len := Z.of_nat (length l) in
  let final := if e <? 0 then Z.max (len + e) 0 else Z.min e len in
  take (Z.to_nat final) l.

(** [Array.prototype.sort] with a comparator.  The sort is stable, so with
    a consistent comparator its result is the one of a stable insertion
    sort: [x] stays in front of [y] unless [cmp x y > 0]. *)
Section Sort.
Context {A : Type} (cmp : A -> A -> Z).

Fixpoint insert_sorted (x : A) (l : list A) : list A :=
  match l with
  | [] => [x]
  | y :: l' => if cmp x y <=? 0 then x :: y :: l' else y :: insert_sorted x l'
  end.

Definition sort (l : list A) : list A := foldr insert_sorted [] l.
End Sort.

(** First occurrence of [pat] in [s], split around it. *)
Fixpoint split_first (pat s : string) : option (string * string) :=
  if String.prefix pat s
  then Some ("", String.substring (String.length pat)
                                  (String.length s - String.length pat)%nat s)
  else match s with
       | EmptyString => None
       | String c s' =>
           match split_first pat s' with
           | Some (l, r) => Some (String c l, r)
           | None => None
           end
       end.

(** The text a replacement string stands for (GetSubstitution), for a
    string pattern, which has no capture groups: [$$] is a dollar sign,
    [$&] the matched text, [$`] the text in front of the match, [$'] the
    text behind it; any other dollar sign stands for itself. *)
Fixpoint substitution (matched before after rep : string) : string :=
  match rep with
  | EmptyString => EmptyString
  | String c rep' =>
      if Ascii.eqb c "$" then
        match rep' with
        | String d rep'' =>
            if Ascii.eqb d "$" then
              String d (substitution matched before after rep'')
            else if Ascii.eqb d "&" then
              matched +:+ substitution matched before after rep''
            else if Ascii.eqb d "`" then
              before +:+ substitution matched before after rep''
            else if Ascii.eqb d "'" then
              after +:+ substitution matched before after rep''
            else String c (substitution matched before after rep')
        | EmptyString => String c EmptyString
        end
      else String c (substitution matched before after rep')
  end.

(** [String.prototype.replace] with a string pattern: only the first
    occurrence is replaced, by the text the replacement string stands for
    there. *)
Definition replace (pat rep s : string) : string :=
  match split_first pat s with
  | Some (l, r) => l +:+ substitution pat l r rep +:+ r
  | None => s
  end.

End Js.

(** ** shared/schema.ts *)

Module Schema.

Record ModConfig : Type := {
  id : string;
  serverId : string;
  serverName : string;
  sensitivity : string;
  primaryAction : string;
  enableWarn : bool;
  warnMessage : option string;
  enableLog : bool;
  logChannelId : option string;
  enableKick : bool;
  enableBan : bool;
  banDuration : option Z;            (* in hours, null = permanent *)
  customCommand : option string;
  monitoredChannels : option (list string);
  monitorAllChannels : bool;
}.

Record InsertModerationLog : Type := {
  i_serverId : string;
  i_serverName : string;
  i_userId : string;
  i_username : string;
  i_userAvatar : option string;
  i_channelId : string;
  i_channelName : string;
  i_messageContent : string;
  i_violationType : Js.value;
  i_confidenceScore : Js.value;
  i_aiReasoning : Js.value;
  i_actionTaken : string;
}.

Record ModerationLog : Type := {
  log_id : string;
  log_row : InsertModerationLog;
  timestamp : Z;                     (* milliseconds since the epoch *)
}.

Definition actionTaken (l : ModerationLog) : string := i_actionTaken (log_row l).

(** [log.actionTaken = v] *)
Definition set_actionTaken (v : string) (l : ModerationLog) : ModerationLog :=
  let r := log_row l in
  {| log_id := log_id l;
     log_row := {| i_serverId := i_serverId r; i_serverName := i_serverName r;
                   i_userId := i_userId r; i_username := i_username r;
                   i_userAvatar := i_userAvatar r; i_channelId := i_channelId r;
                   i_channelName := i_channelName r;
                   i_messageContent := i_messageContent r;
                   i_violationType := i_violationType r;
                   i_confidenceScore := i_confidenceScore r;
                   i_aiReasoning := i_aiReasoning r;
                   i_actionTaken := v |};
     timestamp := timestamp l |}.

Definition set_primaryAction (p : string) (c : ModConfig) : ModConfig :=
  {| id := id c; serverId := serverId c; serverName := serverName c;
     sensitivity := sensitivity c; primaryAction := p;
     enableWarn := enableWarn c; warnMessage := warnMessage c;
     enableLog := enableLog c; logChannelId := logChannelId c;
     enableKick := enableKick c; enableBan := enableBan c;
     banDuration := banDuration c; customCommand := customCommand c;
     monitoredChannels := monitoredChannels c;
     monitorAllChannels := monitorAllChannels c |}.

Definition set_banDuration (d : option Z) (c : ModConfig) : ModConfig :=
  {| id := id c; serverId := serverId c; serverName := serverName c;
     sensitivity := sensitivity c; primaryAction := primaryAction c;
     enableWarn := enableWarn c; warnMessage := warnMessage c;
     enableLog := enableLog c; logChannelId := logChannelId c;
     enableKick := enableKick c; enableBan := enableBan c;
     banDuration := d; customCommand := customCommand c;
     monitoredChannels := monitoredChannels c;
     monitorAllChannels := monitorAllChannels c |}.

End Schema.

(** ** server/storage.ts: [MemStorage] *)

Module Storage.
Import Schema.

(** The [configs] map and the [logs] array.  [logs] is only ever appended
    to, so an index into it identifies one log object: the object returned
    by [createLog] is the one stored at that index, and a later write to
    one of its fields is a write to the array element. *)
Record MemStorage : Type := {
  configs : gmap string ModConfig;
  logs : list ModerationLog;
}.

Definition getConfig (s : MemStorage) (sid : string) : option ModConfig :=
  configs s !! sid.

(** [(a, b) => new Date(b.timestamp).getTime() - new Date(a.timestamp).getTime()] *)
Definition byTimestampDesc (a b : ModerationLog) : Z := timestamp b - timestamp a.

Definition getLogs (s : MemStorage) : list ModerationLog :=
  Js.sort byTimestampDesc (logs s).

(** [limit] is [None] when the argument is omitted: the default is 5. *)
Definition getRecentLogs (s : MemStorage) (limit : option Z) : list ModerationLog :=
  let limit := default 5 limit in
  let sorted := Js.sort byTimestampDesc (logs s) in
  Js.slice0 sorted limit.

(** [createLog]: the new object, the index it is stored at, the new store. *)
Definition createLog (s : MemStorage) (insertLog : InsertModerationLog)
    (uuid : string) (now : Z) : ModerationLog * nat * MemStorage :=
  let log := {| log_id := uuid; log_row := insertLog; timestamp := now |} in
  (log, length (logs s), {| configs := configs s; logs := logs s ++ [log] |}).

(** [a] may stand in front of [b] in a listing: it is not older. *)
Definition not_older (a b : ModerationLog) : Prop := timestamp b <= timestamp a.

(** Field write through the reference held by the caller of [createLog]. *)
Definition write_actionTaken (s : MemStorage) (ref : nat) (v : string) : MemStorage :=
  {| configs := configs s;
     logs := alter (set_actionTaken v) ref (logs s) |}.

End Storage.

(** ** The chat platform, as seen by the handler *)

Module Discord.

Record User : Type := {
  bot : bool;
  user_id : string;
  username : string;
  tag : string;
  displayAvatarURL : string;
}.

Record GuildMember : Type := { member_id : string }.

Record TextChannel : Type := { channel_id : string }.

Record Guild : Type := {
  guild_name : string;
  members_cache : gmap string GuildMember;
}.

Record Message : Type := {
  author : User;
  guildId : option string;
  guild : option Guild;
  channelId : string;
  channel_name : option string;
  content : string;
}.

(** The [options] object handed to [member.ban]: these are all the fields
    the handler sets. *)
Record BanOptions : Type := {
  reason : string * Js.value;        (* the template text and its hole *)
  deleteMessageSeconds : Z;
}.

(** The embed posted to the log channel; the holes of the description
    template are kept apart.  The emoji in front of the title and the
    [timestamp] field of the embed are left out. *)
Record Embed : Type := {
  e_title : string;
  e_user : string;
  e_channel : option string;
  e_violation : Js.value;
  e_confidence : Js.value;
  e_reasoning : Js.value;
  e_color : Z;
}.

(** A dashboard connection: [readyState] is 1 when the socket is open. *)
Record WebSocket : Type := { ws_id : nat; readyState : Z }.

End Discord.

(** ** Calls observed during one handler run, and the oracle answering them *)

Module Effects.
Import Schema Discord.

(** The request sent to the classification service: the model name and
    what fills the three holes of the prompt template.  The first hole is
    [p_sensitivity] after [toUpperCase()], the second is [p_guideline]
    converted to a string (the text itself, the engine's rendering of an
    inherited member, or "undefined"), the third is [p_message]. *)
Record ChatRequest : Type := {
  model : string;
  p_sensitivity : string;
  p_guideline : Js.lookup;
  p_message : string;
}.

Inductive Event : Type :=
| EvChatCompletion (req : ChatRequest)
| EvConsoleError (what : string)
| EvCreateLog (log : ModerationLog)
| EvBroadcast (log : ModerationLog)
| EvWsSend (ws : nat) (log : ModerationLog)
| EvAuthorSend (user : string) (text : string)
| EvChannelsFetch (chan : string)
| EvLogChannelSend (chan : string) (embed : Embed)
| EvKick (member : string) (reason : string * Js.value)
| EvBan (member : string) (options : BanOptions)
| EvChannelSend (chan : string) (text : string)
| EvSetActionTaken (ref : nat) (v : string)
| EvMessageDelete.

Record Choice : Type := { message_content : option (option string) }.

Inductive Completion : Type :=
| Rejects                             (* transport error or timeout *)
| Resolves (choices : list Choice).

Inductive Fetch : Type :=
| FetchRejects
| FetchResolves (chan : option TextChannel).

(** What the outside world answers during one run.  Every call below is
    made at most once per message, so one answer per call is enough. *)
Record Env : Type := {
  chat_completion : Completion;
  JSON_parse : string -> option Js.value;   (* [None]: SyntaxError *)
  randomUUID : string;
  now : Z;
  author_send_ok : bool;
  channels_fetch : Fetch;
  logChannel_send_ok : bool;
  kick_ok : bool;
  ban_ok : bool;
  channel_send_ok : bool;
  delete_ok : bool;
}.

(** Process state shared by all handler runs. *)
Record State : Type := {
  storage : Storage.MemStorage;
  connectedClients : list WebSocket;
  botClient_user : string;           (* id of the account the bot is logged in as *)
}.

Definition set_storage (st : Storage.MemStorage) (s : State) : State :=
  {| storage := st; connectedClients := connectedClients s;
     botClient_user := botClient_user s |}.

Inductive Exn : Type := Thrown.

(** A computation reads the oracle, updates the state, emits events and
    either returns or throws. *)
Definition M (A : Type) : Type := Env -> State -> (Exn + A) * State * list Event.

Definition ret {A} (a : A) : M A := fun _ s => (inr a, s, []).

Definition bind {A B} (m : M A) (k : A -> M B) : M B :=
  fun env s =>
    match m env s with
    | (inr a, s', t) =>
        match k a env s' with
        | (r, s'', t') => (r, s'', t ++ t')
        end
    | (inl e, s', t) => (inl e, s', t)
    end.

Definition throw {A} : M A := fun _ s => (inl Thrown, s, []).

(** [try { body } catch (error) { handler }] *)
Definition try_catch {A} (body : M A) (handler : M A) : M A :=
  fun env s =>
    match body env s with
    | (inr a, s', t) => (inr a, s', t)
    | (inl _, s', t) =>
        match handler env s' with
        | (r, s'', t') => (r, s'', t ++ t')
        end
    end.

Definition emit (e : Event) : M unit := fun _ s => (inr tt, s, [e]).
Definition ask {A} (f : Env -> A) : M A := fun env s => (inr (f env), s, []).
Definition gets {A} (f : State -> A) : M A := fun _ s => (inr (f s), s, []).
Definition modify (f : State -> State) : M unit := fun _ s => (inr tt, f s, []).

(** A platform call: it is observed, then resolves or rejects. *)
Definition call (e : Event) (ok : Env -> bool) : M unit :=
  fun env s => (if ok env then inr tt else inl Thrown, s, [e]).

Definition console_error (what : string) : M unit := emit (EvConsoleError what).

Definition result {A} (r : (Exn + A) * State * list Event) : Exn + A := r.1.1.
Definition final {A} (r : (Exn + A) * State * list Event) : State := r.1.2.
Definition trace {A} (r : (Exn + A) * State * list Event) : list Event := r.2.

End Effects.

Declare Scope monad_scope.
Delimit Scope monad_scope with monad.
Notation "x <- m ;; k" := (Effects.bind m (fun x => k))
  (at level 100, m at next level, right associativity) : monad_scope.
Notation "m ;;; k" := (Effects.bind m (fun _ => k))
  (at level 100, right associativity) : monad_scope.

Local Open Scope monad_scope.

(** ** server/openai-client.ts *)

Module OpenAI.
Import Effects.

Record ModerationResult : Type := {
  isViolation : Js.value;
  violationType : Js.value;
  confidenceScore : Js.value;
  reasoning : Js.value;
}.

(** [sensitivityPrompts[sensitivity]]: the object literal has the four own
    properties below, and every other name is looked up in its prototype. *)
Definition sensitivityPrompts (sensitivity : string) : Js.lookup :=
  if String.eqb sensitivity "low" then
    Js.Own "Only flag very obvious and severe violations that are clearly harmful."
  else if String.eqb sensitivity "medium" then
    Js.Own "Flag moderate violations including toxicity, harassment, spam, and inappropriate content."
  else if String.eqb sensitivity "high" then
    Js.Own "Flag violations more strictly, including subtle forms of harassment and borderline content."
  else if String.eqb sensitivity "strict" then
    Js.Own "Maximum sensitivity - flag any potentially problematic content, erring on the side of caution."
  else if Js.includes Js.Object_prototype sensitivity then
    Js.Inherited sensitivity
  else Js.Missing.

(** [openai.chat.completions.create(...)] *)
Definition create (req : ChatRequest) : M (list Choice) :=
  emit (EvChatCompletion req) ;;;
  r <- ask chat_completion ;;
  match r with
  | Rejects => throw
  | Resolves choices => ret choices
  end.

(** [response.choices[0]?.message?.content] *)
Definition first_content (choices : list Choice) : option string :=
  match choices with
  | [] => None
  | c :: _ => match message_content c with
              | Some content => content
              | None => None
              end
  end.

Definition parse (content : string) : M Js.value :=
  p <- ask JSON_parse ;;
  match p content with
  | Some v => ret v
  | None => throw
  end.

Definition prop (v : Js.value) (k : string) : M Js.value :=
  match Js.get v k with
  | Some x => ret x
  | None => throw
  end.

Definition analyzeMessage (message sensitivity : string) : M ModerationResult :=
  let req := {| model := "gpt-5-mini";
                p_sensitivity := sensitivity;
                p_guideline := sensitivityPrompts sensitivity;
                p_message := message |} in
  try_catch
    (response <- create req ;;
     let content := Js.str_or (first_content response) "{}" in
     result <- parse content ;;
     isV <- prop result "isViolation" ;;
     vType <- prop result "violationType" ;;
     score <- prop result "confidenceScore" ;;
     why <- prop result "reasoning" ;;
     ret {| isViolation := Js.or isV (Js.JBool false);
            violationType := Js.or vType (Js.JStr "none");
            confidenceScore := Js.or score (Js.JNum (QArith_base.Qmake 0 1));
            reasoning := Js.or why (Js.JStr "No violation detected") |})
    (console_error "Error analyzing message:" ;;;
     ret {| isViolation := Js.JBool false;
            violationType := Js.JStr "none";
            confidenceScore := Js.JNum (QArith_base.Qmake 0 1);
            reasoning := Js.JStr "Error analyzing message" |}).

End OpenAI.

(** ** server/discord-bot.ts *)

Module Bot.
Import Schema Discord Effects OpenAI.

Fixpoint forEach {A} (f : A -> M unit) (l : list A) : M unit :=
  match l with
  | [] => ret tt
  | x :: l' => f x ;;; forEach f l'
  end.

(** [broadcastLog(log)]: the payload is serialised once, from the object as
    it is at the call, and sent to every open connection. *)
Definition sendIfOpen (log : ModerationLog) (client : WebSocket) : M unit :=
  if readyState client =? 1 (* WebSocket.OPEN *)
  then emit (EvWsSend (ws_id client) log)
  else ret tt.

Definition broadcastLog (log : ModerationLog) : M unit :=
  emit (EvBroadcast log) ;;;
  clients <- gets connectedClients ;;
  forEach (sendIfOpen log) clients.

(** [storage.createLog(...)]: returns the object and the reference to it. *)
Definition createLog (insertLog : InsertModerationLog) : M (ModerationLog * nat) :=
  uuid <- ask randomUUID ;;
  time <- ask now ;;
  st <- gets storage ;;
  match Storage.createLog st insertLog uuid time with
  | (log, ref, st') =>
      modify (set_storage st') ;;;
      emit (EvCreateLog log) ;;;
      ret (log, ref)
  end.

(** [message.guild?.members.cache.get(message.author.id)] *)
Definition cached_member (message : Message) : option GuildMember :=
  match guild message with
  | Some g => members_cache g !! user_id (author message)
  | None => None
  end.

(** [message.guild?.channels.fetch(id)] *)
Definition guild_channels_fetch (message : Message) (cid : string)
    : M (option TextChannel) :=
  match guild message with
  | None => ret None
  | Some _ =>
      emit (EvChannelsFetch cid) ;;;
      r <- ask channels_fetch ;;
      match r with
      | FetchRejects => throw
      | FetchResolves c => ret c
      end
  end.

Section Actions.
Variable config : ModConfig.
Variable message : Message.
Variable analysis : ModerationResult.

Definition moderation_reason : string * Js.value :=
  ("Automated moderation: ", violationType analysis).

(** Warn user *)
Definition warnUser (actionsTaken : list string) : M (list string) :=
  match warnMessage config with
  | Some text =>
      if enableWarn config && Js.str_truthy text then
        try_catch
          (call (EvAuthorSend (user_id (author message)) text) author_send_ok ;;;
           ret (actionsTaken ++ ["warned"]))
          (console_error "Failed to send warning DM:" ;;; ret actionsTaken)
      else ret actionsTaken
  | None => ret actionsTaken
  end.

(** Log to channel *)
Definition logToChannel (actionsTaken : list string) : M (list string) :=
  match logChannelId config with
  | Some cid =>
      if enableLog config && Js.str_truthy cid then
        try_catch
          (logChannel <- guild_channels_fetch message cid ;;
           match logChannel with
           | Some ch =>
               call (EvLogChannelSend (channel_id ch)
                       {| e_title := "Moderation Alert";
                          e_user := tag (author message);
                          e_channel := channel_name message;
                          e_violation := violationType analysis;
                          e_confidence := confidenceScore analysis;
                          e_reasoning := reasoning analysis;
                          e_color := 16711680 |})
                    logChannel_send_ok ;;;
               ret (actionsTaken ++ ["logged"])
           | None => ret actionsTaken
           end)
          (console_error "Failed to log to channel:" ;;; ret actionsTaken)
      else ret actionsTaken
  | None => ret actionsTaken
  end.

(** Kick user *)
Definition kickUser (actionsTaken : list string) : M (list string) :=
  if enableKick config then
    try_catch
      (match cached_member message with
       | Some member =>
           call (EvKick (member_id member) moderation_reason) kick_ok ;;;
           ret (actionsTaken ++ ["kicked"])
       | None => ret actionsTaken
       end)
      (console_error "Failed to kick user:" ;;; ret actionsTaken)
  else ret actionsTaken.

(** Ban user *)
Definition banUser (actionsTaken : list string) : M (list string) :=
  if enableBan config then
    try_catch
      (match cached_member message with
       | Some member =>
           call (EvBan (member_id member)
                   {| reason := moderation_reason;
                      deleteMessageSeconds := 86400 |})
                ban_ok ;;;
           ret (actionsTaken ++ ["banned"])
       | None => ret actionsTaken
       end)
      (console_error "Failed to ban user:" ;;; ret actionsTaken)
  else ret actionsTaken.

(** Custom command *)
Definition customCommandAction (actionsTaken : list string) : M (list string) :=
  match customCommand config with
  | Some cmd =>
      if Js.str_truthy cmd then
        try_catch
          (let commandText :=
             Js.replace "@channel" ("<#" +:+ channelId message +:+ ">")
               (Js.replace "@user" ("<@" +:+ user_id (author message) +:+ ">") cmd) in
           call (EvChannelSend (channelId message) commandText) channel_send_ok ;;;
           ret (actionsTaken ++ ["custom"]))
          (console_error "Failed to execute custom command:" ;;; ret actionsTaken)
      else ret actionsTaken
  | None => ret actionsTaken
  end.

(** The five blocks between [let actionsTaken = []] and the update of
    the log, in the order of the source. *)
Definition executeActions : M (list string) :=
  actionsTaken <- warnUser [] ;;
  actionsTaken <- logToChannel actionsTaken ;;
  actionsTaken <- kickUser actionsTaken ;;
  actionsTaken <- banUser actionsTaken ;;
  customCommandAction actionsTaken.

(** Update log with actions taken *)
Definition updateLog (ref : nat) (actionsTaken : list string) : M unit :=
  if (0 <? length actionsTaken)%nat then
    let v := Js.join ", " actionsTaken in
    modify (fun s => set_storage (Storage.write_actionTaken (storage s) ref v) s) ;;;
    emit (EvSetActionTaken ref v)
  else ret tt.

(** Delete the offending message *)
Definition deleteMessage : M unit :=
  try_catch (call EvMessageDelete delete_ok)
            (console_error "Failed to delete message:").

(** The argument of [storage.createLog].  [message.channel] is read at its
    declared type, which is never null; the handler with the null answer of
    the getter is in module [Uncached]. *)
Definition newLog : InsertModerationLog :=
  {| i_serverId := Js.str_or (guildId message) "";
     i_serverName := Js.str_or (guild_name <$> guild message) "Unknown Server";
     i_userId := user_id (author message);
     i_username := username (author message);
     i_userAvatar := Some (displayAvatarURL (author message));
     i_channelId := channelId message;
     i_channelName := Js.str_or (channel_name message) "Unknown Channel";
     i_messageContent := content message;
     i_violationType := violationType analysis;
     i_confidenceScore := confidenceScore analysis;
     i_aiReasoning := reasoning analysis;
     i_actionTaken := "logged" |}.

(** The body of [if (analysis.isViolation) { ... }]. *)
Definition onViolation : M unit :=
  lr <- createLog newLog ;;
  broadcastLog lr.1 ;;;
  actionsTaken <- executeActions ;;
  updateLog lr.2 actionsTaken ;;;
  deleteMessage.

End Actions.

(** The [messageCreate] handler registered by [startBot]. *)
Definition onMessageCreate (message : Message) : M unit :=
  if bot (author message) then ret tt else
  config <- gets (fun s => Storage.getConfig (storage s) (Js.str_or (guildId message) "")) ;;
  match config with
  | None => ret tt
  | Some config =>
      if negb (monitorAllChannels config)
         && negb (Js.includes (default [] (monitoredChannels config)) (channelId message))
      then ret tt else
      analysis <- analyzeMessage (content message)
                    (Js.str_or (Some (sensitivity config)) "medium") ;;
      if Js.truthy (isViolation analysis)
      then onViolation config message analysis
      else ret tt
  end.

End Bot.

(** ** Vocabulary for statements about runs *)

Module Run.
Import Schema Discord Effects OpenAI Bot.

(** *** Classes of events *)

Definition is_chat_completion (e : Event) : bool :=
  match e with EvChatCompletion _ => true | _ => false end.
Definition is_create_log (e : Event) : bool :=
  match e with EvCreateLog _ => true | _ => false end.
Definition is_broadcast (e : Event) : bool :=
  match e with EvBroadcast _ | EvWsSend _ _ => true | _ => false end.
Definition is_author_send (e : Event) : bool :=
  match e with EvAuthorSend _ _ => true | _ => false end.
Definition is_log_send (e : Event) : bool :=
  match e with EvLogChannelSend _ _ => true | _ => false end.
Definition is_kick (e : Event) : bool :=
  match e with EvKick _ _ => true | _ => false end.
Definition is_ban (e : Event) : bool :=
  match e with EvBan _ _ => true | _ => false end.
Definition is_channel_send (e : Event) : bool :=
  match e with EvChannelSend _ _ => true | _ => false end.
Definition is_console_error (what : string) (e : Event) : bool :=
  match e with EvConsoleError w => String.eqb w what | _ => false end.

Definition is_channels_fetch (e : Event) : bool :=
  match e with EvChannelsFetch _ => true | _ => false end.
Definition is_console (e : Event) : bool :=
  match e with EvConsoleError _ => true | _ => false end.

(** The kick call and the console line of its [catch]. *)
Definition kick_related (e : Event) : bool :=
  is_kick e || is_console_error "Failed to kick user:" e.

(** Neither a kick or ban call nor the console line of a failed one. *)
Definition no_removal (e : Event) : Prop :=
  is_kick e = false /\ is_ban e = false
  /\ is_console_error "Failed to kick user:" e = false
  /\ is_console_error "Failed to ban user:" e = false.

(** Position of a platform call in the order warn, log-to-channel, kick,
    ban, custom command; [None] for events that are no enforcement call. *)
Definition action_rank (e : Event) : option nat :=
  match e with
  | EvAuthorSend _ _ => Some 0%nat
  | EvChannelsFetch _ | EvLogChannelSend _ _ => Some 1%nat
  | EvKick _ _ => Some 2%nat
  | EvBan _ _ => Some 3%nat
  | EvChannelSend _ _ => Some 4%nat
  | _ => None
  end.

Definition is_enforcement (e : Event) : bool :=
  match action_rank e with Some _ => true | None => false end.

(** The labels of the actions whose platform call was made in [t] and
    resolved, in the order warn, log-to-channel, kick, ban, custom. *)
Definition succeeded_labels (env : Env) (t : list Event) : list string :=
  (if existsb is_author_send t && author_send_ok env then ["warned"] else [])
  ++ (if existsb is_log_send t && logChannel_send_ok env then ["logged"] else [])
  ++ (if existsb is_kick t && kick_ok env then ["kicked"] else [])
  ++ (if existsb is_ban t && ban_ok env then ["banned"] else [])
  ++ (if existsb is_channel_send t && channel_send_ok env then ["custom"] else []).

(** Predicates that hold of enforcement calls only. *)
Definition call_class (p : Event -> bool) : Prop :=
  forall e, p e = true -> is_enforcement e = true.

(** How many calls of one kind a run makes. *)
Definition calls (p : Event -> bool) (t : list Event) : nat :=
  length (List.filter p t).

(** [message.guild] is there; the member cache of the guild knows the
    author; the fetch of the log channel resolves to a channel. *)
Definition in_guild (message : Message) : bool :=
  match guild message with Some _ => true | None => false end.

Definition member_cached (message : Message) : bool :=
  match cached_member message with Some _ => true | None => false end.

Definition fetch_resolves (env : Env) : bool :=
  match channels_fetch env with
  | FetchResolves (Some _) => true
  | _ => false
  end.

(** *** Conditions on the input of a run *)

(** The verdict returned when the classification fails. *)
Definition safe_default : ModerationResult :=
  {| isViolation := Js.JBool false;
     violationType := Js.JStr "none";
     confidenceScore := Js.JNum (QArith_base.Qmake 0 1);
     reasoning := Js.JStr "Error analyzing message" |}.

(** The request [analyzeMessage] sends. *)
Definition request (message sensitivity : string) : ChatRequest :=
  {| model := "gpt-5-mini";
     p_sensitivity := sensitivity;
     p_guideline := sensitivityPrompts sensitivity;
     p_message := message |}.

(** The channel filter lets the message through. *)
Definition channel_monitored (config : ModConfig) (message : Message) : bool :=
  monitorAllChannels config
  || Js.includes (default [] (monitoredChannels config)) (channelId message).

(** The verdict [analyzeMessage] returns for this message under this config. *)
Definition verdict (config : ModConfig) (message : Message) (env : Env) (s : State)
    : option ModerationResult :=
  match result (analyzeMessage (content message)
                  (Js.str_or (Some (sensitivity config)) "medium") env s) with
  | inr a => Some a
  | inl _ => None
  end.

(** The classification call fails: the request rejects (transport error or
    timeout), the answer is not JSON, or it is JSON without properties. *)
Inductive classification_fails (env : Env) : Prop :=
| transport_failure :
    chat_completion env = Rejects -> classification_fails env
| parse_failure choices :
    chat_completion env = Resolves choices ->
    JSON_parse env (Js.str_or (first_content choices) "{}") = None ->
    classification_fails env
| null_answer choices :
    chat_completion env = Resolves choices ->
    JSON_parse env (Js.str_or (first_content choices) "{}") = Some Js.JNull ->
    classification_fails env.

(** The five categories of a verdict, and "none". *)
Definition categories : list string :=
  ["toxicity"; "harassment"; "spam"; "inappropriate"; "hate_speech"; "none"].

(** The reply has the shape the prompt asks for: an object whose
    [isViolation] is a boolean, whose [violationType] is one of the
    categories, whose [confidenceScore] is an integer from 0 to 100 and
    whose [reasoning] is a string. *)
Definition is_verdict (v : Js.value) : bool :=
  match v with
  | Js.JObj fs =>
      match Js.assoc "isViolation" fs, Js.assoc "violationType" fs,
            Js.assoc "confidenceScore" fs, Js.assoc "reasoning" fs with
      | Js.JBool _, Js.JStr t, Js.JNum q, Js.JStr _ =>
          let n := QArith_base.Qnum q in
          let d := Z.pos (QArith_base.Qden q) in
          Js.includes categories t
          && (n mod d =? 0) && (0 <=? n) && (n <=? 100 * d)
      | _, _, _, _ => false
      end
  | _ => false
  end.

(** Failure of the classification call in the words of the spec, which
    counts a malformed response with the transport errors and timeouts:
    the request rejects, or what comes back does not parse into a verdict. *)
Inductive classification_fails_as_specified (env : Env) : Prop :=
| request_fails :
    chat_completion env = Rejects -> classification_fails_as_specified env
| malformed_response choices :
    chat_completion env = Resolves choices ->
    match JSON_parse env (Js.str_or (first_content choices) "{}") with
    | Some v => is_verdict v = false
    | None => True
    end ->
    classification_fails_as_specified env.

(** "On every failure the verdict is isViolation = false, violationType =
    none, confidenceScore = 0, never a violation", with failure read as
    above. *)
Definition fail_open_as_specified : Prop :=
  forall (message sensitivity : string) (env : Env) (s : State),
    classification_fails_as_specified env ->
    exists a,
      result (analyzeMessage message sensitivity env s) = inr a
      /\ isViolation a = Js.JBool false
      /\ violationType a = Js.JStr "none"
      /\ confidenceScore a = Js.JNum (QArith_base.Qmake 0 1)
      /\ Js.truthy (isViolation a) = false.

(** The filter of the handler discards the message: its server has no
    config, or the config names channels and this one is not among them. *)
Inductive discarded_by_filter (message : Message) (s : State) : Prop :=
| unconfigured :
    Storage.getConfig (storage s) (Js.str_or (guildId message) "") = None ->
    discarded_by_filter message s
| unmonitored config :
    Storage.getConfig (storage s) (Js.str_or (guildId message) "") = Some config ->
    monitorAllChannels config = false ->
    Js.includes (default [] (monitoredChannels config)) (channelId message) = false ->
    discarded_by_filter message s.

(** The fields of a config that the handler reads. *)
Definition pipeline_view (c : ModConfig) :=
  (sensitivity c, enableWarn c, warnMessage c, enableLog c, logChannelId c,
   enableKick c, enableBan c, customCommand c, monitoredChannels c,
   monitorAllChannels c).

(** A state with nothing in it, to run state-independent code from. *)
Definition idle : State :=
  {| storage := {| Storage.configs := ∅; Storage.logs := [] |};
     connectedClients := [];
     botClient_user := "" |}.

(** "Only events authored by the system's own account are excluded": every
    other message that passes the config filter reaches the classifier. *)
Definition only_own_messages_excluded : Prop :=
  forall (message : Message) (env : Env) (s : State) (config : ModConfig),
    user_id (author message) <> botClient_user s ->
    Storage.getConfig (storage s) (Js.str_or (guildId message) "") = Some config ->
    channel_monitored config message = true ->
    existsb is_chat_completion (trace (onMessageCreate message env s)) = true.

(** The same store with the config of one server replaced. *)
Definition with_config (sid : string) (c : ModConfig) (s : State) : State :=
  set_storage {| Storage.configs := <[sid := c]> (Storage.configs (storage s));
                 Storage.logs := Storage.logs (storage s) |} s.

Definition set_kick_ok (b : bool) (env : Env) : Env :=
  {| chat_completion := chat_completion env; JSON_parse := JSON_parse env;
     randomUUID := randomUUID env; now := now env;
     author_send_ok := author_send_ok env; channels_fetch := channels_fetch env;
     logChannel_send_ok := logChannel_send_ok env; kick_ok := b;
     ban_ok := ban_ok env; channel_send_ok := channel_send_ok env;
     delete_ok := delete_ok env |}.

(** *** What each block of the handler amounts to

    Labels pushed and events emitted by one block, as a function of the
    config, the message, the verdict and the oracle only. *)

Definition attempt (e : Event) (ok : bool) (label failure : string)
    : list string * list Event :=
  if ok then ([label], [e]) else ([], [e; EvConsoleError failure]).

Definition skipped : list string * list Event := ([], []).

Section Outcomes.
Variable config : ModConfig.
Variable message : Message.
Variable analysis : ModerationResult.
Variable env : Env.

Definition warn_outcome : list string * list Event :=
  match warnMessage config with
  | Some text =>
      if enableWarn config && Js.str_truthy text
      then attempt (EvAuthorSend (user_id (author message)) text)
                   (author_send_ok env) "warned" "Failed to send warning DM:"
      else skipped
  | None => skipped
  end.

Definition log_embed : Embed :=
  {| e_title := "Moderation Alert";
     e_user := tag (author message);
     e_channel := channel_name message;
     e_violation := violationType analysis;
     e_confidence := confidenceScore analysis;
     e_reasoning := reasoning analysis;
     e_color := 16711680 |}.

Definition log_outcome : list string * list Event :=
  match logChannelId config with
  | Some cid =>
      if enableLog config && Js.str_truthy cid then
        match guild message with
        | None => skipped
        | Some _ =>
            match channels_fetch env with
            | FetchRejects =>
                ([], [EvChannelsFetch cid; EvConsoleError "Failed to log to channel:"])
            | FetchResolves None => ([], [EvChannelsFetch cid])
            | FetchResolves (Some ch) =>
                let r := attempt (EvLogChannelSend (channel_id ch) log_embed)
                           (logChannel_send_ok env) "logged"
                           "Failed to log to channel:" in
                (r.1, EvChannelsFetch cid :: r.2)
            end
        end
      else skipped
  | None => skipped
  end.

Definition kick_outcome : list string * list Event :=
  if enableKick config then
    match cached_member message with
    | Some member =>
        attempt (EvKick (member_id member) (moderation_reason analysis))
                (kick_ok env) "kicked" "Failed to kick user:"
    | None => skipped
    end
  else skipped.

Definition ban_outcome : list string * list Event :=
  if enableBan config then
    match cached_member message with
    | Some member =>
        attempt (EvBan (member_id member)
                   {| reason := moderation_reason analysis;
                      deleteMessageSeconds := 86400 |})
                (ban_ok env) "banned" "Failed to ban user:"
    | None => skipped
    end
  else skipped.

Definition custom_outcome : list string * list Event :=
  match customCommand config with
  | Some cmd =>
      if Js.str_truthy cmd then
        attempt (EvChannelSend (channelId message)
                   (Js.replace "@channel" ("<#" +:+ channelId message +:+ ">")
                      (Js.replace "@user"
                         ("<@" +:+ user_id (author message) +:+ ">") cmd)))
                (channel_send_ok env) "custom" "Failed to execute custom command:"
      else skipped
  | None => skipped
  end.

Definition actions_labels : list string :=
  warn_outcome.1 ++ log_outcome.1 ++ kick_outcome.1 ++ ban_outcome.1
  ++ custom_outcome.1.

Definition actions_events : list Event :=
  warn_outcome.2 ++ log_outcome.2 ++ kick_outcome.2 ++ ban_outcome.2
  ++ custom_outcome.2.

Definition delete_events : list Event :=
  if delete_ok env then [EvMessageDelete]
  else [EvMessageDelete; EvConsoleError "Failed to delete message:"].

End Outcomes.

(** Socket sends of one broadcast. *)
Definition ws_sends (log : ModerationLog) (clients : list WebSocket) : list Event :=
  omap (fun c => if readyState c =? 1 then Some (EvWsSend (ws_id c) log) else None)
       clients.

(** The value [actionTaken] ends up with. *)
Definition final_actionTaken (labels : list string) : string :=
  match labels with
  | [] => "logged"
  | _ => Js.join ", " labels
  end.

(** The object [createLog] builds for a violating message. *)
Definition created_log (message : Message) (analysis : ModerationResult)
    (env : Env) : ModerationLog :=
  {| log_id := randomUUID env;
     log_row := newLog message analysis;
     timestamp := now env |}.

Definition update_events (ref : nat) (labels : list string) : list Event :=
  if (0 <? length labels)%nat then [EvSetActionTaken ref (Js.join ", " labels)]
  else [].

(** Everything the handler does after a violation verdict. *)
Definition violation_trace (config : ModConfig) (message : Message)
    (analysis : ModerationResult) (env : Env) (s : State) : list Event :=
  let log := created_log message analysis env in
  EvCreateLog log :: EvBroadcast log :: ws_sends log (connectedClients s)
  ++ actions_events config message analysis env
  ++ update_events (length (Storage.logs (storage s)))
       (actions_labels config message analysis env)
  ++ delete_events env.

(** Everything after the broadcast of a violation. *)
Definition after_broadcast (c : ModConfig) (m : Message) (a : ModerationResult)
    (env : Env) (s : State) : list Event :=
  actions_events c m a env
  ++ update_events (length (Storage.logs (storage s))) (actions_labels c m a env)
  ++ delete_events env.

Definition violation_state (config : ModConfig) (message : Message)
    (analysis : ModerationResult) (env : Env) (s : State) : State :=
  set_storage
    {| Storage.configs := Storage.configs (storage s);
       Storage.logs :=
         Storage.logs (storage s)
         ++ [set_actionTaken
               (final_actionTaken (actions_labels config message analysis env))
               (created_log message analysis env)] |} s.

End Run.

(** ** Concrete runs *)

Module Scenario.
Import Schema Discord Effects OpenAI Bot Run.

Definition cfg : ModConfig :=
  {| id := "cfg-1"; serverId := "123456789"; serverName := "Example Server";
     sensitivity := "strict"; primaryAction := "log";
     enableWarn := true; warnMessage := Some "Please be respectful";
     enableLog := true; logChannelId := Some "mod-log-channel";
     enableKick := true; enableBan := true; banDuration := Some 24;
     customCommand := Some "!note @user in @channel";
     monitoredChannels := Some ["channel001"];
     monitorAllChannels := false |}.

Definition alice : User :=
  {| bot := false; user_id := "user002"; username := "SpamBot42";
     tag := "SpamBot42#0001"; displayAvatarURL := "https://cdn/a.png" |}.

Definition home : Guild :=
  {| guild_name := "Example Server";
     members_cache := {[ "user002" := {| member_id := "user002" |} ]} |}.

Definition spam_message : Message :=
  {| author := alice; guildId := Some "123456789"; guild := Some home;
     channelId := "channel001"; channel_name := Some "general";
     content := "BUY CRYPTO NOW CLICK HERE" |}.

(** The same message posted in a channel the config does not list. *)
Definition offtopic_message : Message :=
  {| author := alice; guildId := Some "123456789"; guild := Some home;
     channelId := "channel002"; channel_name := Some "off-topic";
     content := "BUY CRYPTO NOW CLICK HERE" |}.

(** The same message from a server without config. *)
Definition foreign_message : Message :=
  {| author := alice; guildId := Some "987654321"; guild := None;
     channelId := "channel001"; channel_name := Some "general";
     content := "BUY CRYPTO NOW CLICK HERE" |}.

(** The same message whose author is not in the member cache. *)
Definition uncached_message : Message :=
  {| author := alice; guildId := Some "123456789";
     guild := Some {| guild_name := "Example Server"; members_cache := ∅ |};
     channelId := "channel001"; channel_name := Some "general";
     content := "BUY CRYPTO NOW CLICK HERE" |}.

(** The same message posted by another bot account, not the moderation
    bot itself. *)
Definition other_bot_message : Message :=
  {| author := {| bot := true; user_id := "bot-777"; username := "AdBot";
                  tag := "AdBot#7777"; displayAvatarURL := "https://cdn/b.png" |};
     guildId := Some "123456789"; guild := Some home;
     channelId := "channel001"; channel_name := Some "general";
     content := "BUY CRYPTO NOW CLICK HERE" |}.

Definition spam_verdict : Js.value :=
  Js.JObj [("isViolation", Js.JBool true); ("violationType", Js.JStr "spam");
           ("confidenceScore", Js.JNum (QArith_base.Qmake 95 1));
           ("reasoning", Js.JStr "promotional spam")].

(** A parser that knows two documents. *)
Definition toy_parse (doc : string) : option Js.value :=
  if String.eqb doc "SPAM" then Some spam_verdict
  else if String.eqb doc "{}" then Some (Js.JObj [])
  else None.

(** Everything works, except that the kick is refused by the platform. *)
Definition kick_refused : Env :=
  {| chat_completion := Resolves [ {| message_content := Some (Some "SPAM") |} ];
     JSON_parse := toy_parse;
     randomUUID := "7f9c2ba4"; now := 1700000000000;
     author_send_ok := true;
     channels_fetch := FetchResolves (Some {| channel_id := "mod-log-channel" |});
     logChannel_send_ok := true;
     kick_ok := false; ban_ok := true; channel_send_ok := true;
     delete_ok := true |}.

(** The classification service is unreachable. *)
Definition service_down : Env :=
  {| chat_completion := Rejects;
     JSON_parse := toy_parse;
     randomUUID := "7f9c2ba4"; now := 1700000000000;
     author_send_ok := true;
     channels_fetch := FetchResolves (Some {| channel_id := "mod-log-channel" |});
     logChannel_send_ok := true;
     kick_ok := true; ban_ok := true; channel_send_ok := true;
     delete_ok := true |}.

(** The service answers with a complete JSON object whose [isViolation] is
    the string "false" instead of the boolean: the text of the document,
    with its double quotes, and what [JSON.parse] makes of it. *)
Definition quoted (s : string) : string :=
  String (Ascii.ascii_of_nat 34) s +:+ String (Ascii.ascii_of_nat 34) "".

Definition quoted_false_doc : string :=
  "{" +:+ quoted "isViolation" +:+ ":" +:+ quoted "false" +:+ ","
  +:+ quoted "violationType" +:+ ":" +:+ quoted "none" +:+ ","
  +:+ quoted "confidenceScore" +:+ ":0,"
  +:+ quoted "reasoning" +:+ ":" +:+ quoted "A friendly greeting" +:+ "}".

Definition quoted_false_reply : Js.value :=
  Js.JObj [("isViolation", Js.JStr "false"); ("violationType", Js.JStr "none");
           ("confidenceScore", Js.JNum (QArith_base.Qmake 0 1));
           ("reasoning", Js.JStr "A friendly greeting")].

Definition quoted_false : Env :=
  {| chat_completion :=
       Resolves [ {| message_content := Some (Some quoted_false_doc) |} ];
     JSON_parse := fun doc =>
       if String.eqb doc quoted_false_doc then Some quoted_false_reply
       else toy_parse doc;
     randomUUID := "7f9c2ba4"; now := 1700000000000;
     author_send_ok := true;
     channels_fetch := FetchResolves (Some {| channel_id := "mod-log-channel" |});
     logChannel_send_ok := true;
     kick_ok := true; ban_ok := true; channel_send_ok := true;
     delete_ok := true |}.

Definition old_log (uid : string) (t : Z) : ModerationLog :=
  {| log_id := uid;
     log_row := {| i_serverId := "123456789"; i_serverName := "Example Server";
                   i_userId := "user001"; i_username := "ToxicUser123";
                   i_userAvatar := None; i_channelId := "channel001";
                   i_channelName := "general"; i_messageContent := "...";
                   i_violationType := Js.JStr "toxicity";
                   i_confidenceScore := Js.JNum (QArith_base.Qmake 87 1);
                   i_aiReasoning := Js.JStr "hostile";
                   i_actionTaken := "warned, logged" |};
     timestamp := t |}.

Definition store : Storage.MemStorage :=
  {| Storage.configs := {[ "123456789" := cfg ]};
     Storage.logs := [old_log "a" 10; old_log "b" 30; old_log "c" 20] |}.

Definition st : State :=
  {| storage := store;
     connectedClients := [ {| ws_id := 1%nat; readyState := 1 |};
                           {| ws_id := 2%nat; readyState := 3 |} ];
     botClient_user := "bot-001" |}.

Definition spam_analysis : ModerationResult :=
  {| isViolation := Js.JBool true; violationType := Js.JStr "spam";
     confidenceScore := Js.JNum (QArith_base.Qmake 95 1);
     reasoning := Js.JStr "promotional spam" |}.

End Scenario.

(** ** server/storage.ts: the config and statistics methods *)

Module StoreOps.
Import Stdlib.Strings.Ascii.
Import Schema Storage.

(** An [InsertModConfig] with every column given, as the settings form and
    the seed data send it. *)
Record InsertModConfig : Type := {
  n_serverId : string;
  n_serverName : string;
  n_sensitivity : string;
  n_primaryAction : string;
  n_enableWarn : bool;
  n_warnMessage : option string;
  n_enableLog : bool;
  n_logChannelId : option string;
  n_enableKick : bool;
  n_enableBan : bool;
  n_banDuration : option Z;
  n_customCommand : option string;
  n_monitoredChannels : option (list string);
  n_monitorAllChannels : bool;
}.

(** [{ ...insertConfig, id }] *)
Definition with_id (c : InsertModConfig) (i : string) : ModConfig :=
  {| id := i; serverId := n_serverId c; serverName := n_serverName c;
     sensitivity := n_sensitivity c; primaryAction := n_primaryAction c;
     enableWarn := n_enableWarn c; warnMessage := n_warnMessage c;
     enableLog := n_enableLog c; logChannelId := n_logChannelId c;
     enableKick := n_enableKick c; enableBan := n_enableBan c;
     banDuration := n_banDuration c; customCommand := n_customCommand c;
     monitoredChannels := n_monitoredChannels c;
     monitorAllChannels := n_monitorAllChannels c |}.

(** The columns of a stored config other than its id. *)
Definition columns (c : ModConfig) : InsertModConfig :=
  {| n_serverId := serverId c; n_serverName := serverName c;
     n_sensitivity := sensitivity c; n_primaryAction := primaryAction c;
     n_enableWarn := enableWarn c; n_warnMessage := warnMessage c;
     n_enableLog := enableLog c; n_logChannelId := logChannelId c;
     n_enableKick := enableKick c; n_enableBan := enableBan c;
     n_banDuration := banDuration c; n_customCommand := customCommand c;
     n_monitoredChannels := monitoredChannels c;
     n_monitorAllChannels := monitorAllChannels c |}.

(** [createOrUpdateConfig]; [uuid] is what [randomUUID()] would return. *)
Definition createOrUpdateConfig (s : MemStorage) (insertConfig : InsertModConfig)
    (uuid : string) : ModConfig * MemStorage :=
  let existing := configs s !! n_serverId insertConfig in
  let i := Js.str_or (id <$> existing) uuid in
  let config := with_id insertConfig i in
  (config,
   {| configs := <[n_serverId insertConfig := config]> (configs s);
      logs := logs s |}).

(** The example config, as the settings form would save it again. *)
Definition seed_columns : InsertModConfig := columns Scenario.cfg.

(** [this.configs.size], the [serversMonitored] of the dashboard. *)
Definition serversMonitored (s : MemStorage) : nat := size (configs s).

(** *** Statistics

    The statistics methods use the [statistics] map only.  It is a JS [Map]:
    [set] on a present key replaces the value in place, on a new key it
    appends, and [values()] lists in that order. *)

Record InsertStatistics : Type := {
  t_serverId : string;
  t_date : string;                              (* YYYY-MM-DD *)
  t_totalViolations : Z;
  t_violationsByType : option (list (string * Z));
  t_actionsByType : option (list (string * Z));
  t_topViolators : option (list (string * string * Z));
}.

Record Statistics : Type := {
  stat_id : string;
  stat_row : InsertStatistics;
}.

Definition StatisticsMap : Type := list (string * Statistics).

Fixpoint map_get {V} (k : string) (m : list (string * V)) : option V :=
  match m with
  | [] => None
  | (k', v) :: m' => if String.eqb k k' then Some v else map_get k m'
  end.

Fixpoint map_set {V} (k : string) (v : V) (m : list (string * V))
    : list (string * V) :=
  match m with
  | [] => [(k, v)]
  | (k', v') :: m' =>
      if String.eqb k k' then (k, v) :: m' else (k', v') :: map_set k v m'
  end.

(** [`${insertStats.serverId}-${insertStats.date}`] *)
Definition stat_key (r : InsertStatistics) : string :=
  t_serverId r +:+ "-" +:+ t_date r.

Definition updateStatistics (m : StatisticsMap) (insertStats : InsertStatistics)
    (uuid : string) : Statistics * StatisticsMap :=
  let key := stat_key insertStats in
  let existing := map_get key m in
  let i := Js.str_or (stat_id <$> existing) uuid in
  let stats := {| stat_id := i; stat_row := insertStats |} in
  (stats, map_set key stats m).

(** [getStatistics(serverId, timeRange?)]: the second argument is not used. *)
Definition getStatistics (m : StatisticsMap) (sid : string)
    (timeRange : option string) : list Statistics :=
  List.filter (fun stat => String.eqb (t_serverId (stat_row stat)) sid)
              (map snd m).

Definition stats_a : InsertStatistics :=
  {| t_serverId := "123456789"; t_date := "2025-01-01"; t_totalViolations := 3;
     t_violationsByType := None; t_actionsByType := None; t_topViolators := None |}.

Definition stats_b : InsertStatistics :=
  {| t_serverId := "987654321"; t_date := "2025-01-01"; t_totalViolations := 7;
     t_violationsByType := None; t_actionsByType := None; t_topViolators := None |}.

(** A map that holds a record of each of two servers for the same day. *)
Definition stats_map : StatisticsMap :=
  [ ("987654321-2025-01-01", {| stat_id := "s-1"; stat_row := stats_b |});
    ("123456789-2025-01-01",
     {| stat_id := "s-2";
        stat_row := {| t_serverId := "123456789"; t_date := "2025-01-01";
                       t_totalViolations := 2; t_violationsByType := None;
                       t_actionsByType := None; t_topViolators := None |} |}) ].

(** Two servers whose ids and dates join to the same key ["a-b-c"]. *)
Definition clash_a : InsertStatistics :=
  {| t_serverId := "a-b"; t_date := "c"; t_totalViolations := 1;
     t_violationsByType := None; t_actionsByType := None; t_topViolators := None |}.

Definition clash_b : InsertStatistics :=
  {| t_serverId := "a"; t_date := "b-c"; t_totalViolations := 2;
     t_violationsByType := None; t_actionsByType := None; t_topViolators := None |}.

(** Every record sits under the key made of its own server id and date, and
    no server id holds a hyphen (chat-platform ids are digit strings). *)
Definition no_hyphen (s : string) : Prop :=
  forall i, String.get i s <> Some "-"%char.

Definition well_keyed (m : StatisticsMap) : Prop :=
  Forall (fun kv => kv.1 = stat_key (stat_row kv.2)
                    /\ no_hyphen (t_serverId (stat_row kv.2))) m.

End StoreOps.

(** ** server/discord-bot.ts: the set of dashboard connections *)

Module Hub.
Import Discord Effects.

Definition set_clients (clients : list WebSocket) (s : State) : State :=
  {| storage := storage s; connectedClients := clients;
     botClient_user := botClient_user s |}.

(** Membership in the [Set]: the same socket object, told by [ws_id]. *)
Definition has_client (id : nat) (clients : list WebSocket) : bool :=
  existsb (fun c => Nat.eqb (ws_id c) id) clients.

(** [connectedClients.add(ws)] in [addWebSocketClient]. *)
Definition addWebSocketClient (ws : WebSocket) (s : State) : State :=
  if has_client (ws_id ws) (connectedClients s) then s
  else set_clients (connectedClients s ++ [ws]) s.

(** The ["close"] listener installed by [addWebSocketClient]:
    [connectedClients.delete(ws)]. *)
Definition onClose (id : nat) (s : State) : State :=
  set_clients (List.filter (fun c => negb (Nat.eqb (ws_id c) id))
                 (connectedClients s)) s.

(** The socket changes its [readyState] (0 connecting, 1 open, 2 closing,
    3 closed); the set holds the object, so it sees the change. *)
Definition set_readyState (id : nat) (rs : Z) (s : State) : State :=
  set_clients (map (fun c => if Nat.eqb (ws_id c) id
                             then {| ws_id := id; readyState := rs |} else c)
                 (connectedClients s)) s.

End Hub.

(** ** server/discord-bot.ts: [startBot], [stopBot], [getBotClient] *)

Module Lifecycle.

(** A platform client made by [getUncachableDiscordClient()]: the events it
    has a listener for, one entry per [on] call, and whether it is still
    connected. *)
Record Connection : Type := {
  conn_id : nat;
  conn_listeners : list string;
  conn_live : bool;
}.

(** The module variable [botClient] and every client made so far; a new
    client is a new object, named by its position. *)
Record World : Type := {
  botClient : option nat;
  connections : list Connection;
}.

Inductive Out : Type :=
| ConsoleLog (what : string)
| ConsoleError (what : string).

Definition startBot (connects : bool) (w : World)
    : (Effects.Exn + nat) * World * list Out :=
  match botClient w with
  | Some c => (inr c, w, [ConsoleLog "Bot already running"])
  | None =>
      if connects then
        let c := length (connections w) in
        (inr c,
         {| botClient := Some c;
            connections :=
              connections w
              ++ [{| conn_id := c;
                     conn_listeners := ["ready"; "messageCreate"; "error"];
                     conn_live := true |}] |},
         [])
      else
        (inl Effects.Thrown,
         {| botClient := None; connections := connections w |},
         [ConsoleError "Failed to start bot:"])
  end.

Definition destroy (c : nat) (conns : list Connection) : list Connection :=
  map (fun k => if Nat.eqb (conn_id k) c
                then {| conn_id := conn_id k; conn_listeners := conn_listeners k;
                        conn_live := false |}
                else k) conns.

(** [destroys] is false when [botClient.destroy()] rejects: the assignment
    after the [await] is then not reached. *)
Definition stopBot (destroys : bool) (w : World)
    : (Effects.Exn + unit) * World * list Out :=
  match botClient w with
  | Some c =>
      if destroys then
        (inr tt,
         {| botClient := None; connections := destroy c (connections w) |},
         [ConsoleLog "Bot stopped"])
      else (inl Effects.Thrown, w, [])
  | None => (inr tt, w, [])
  end.

Definition getBotClient (w : World) : option nat := botClient w.

Inductive Op : Type :=
| Start (connects : bool)
| Stop (destroys : bool).

Definition step (w : World) (op : Op) : World :=
  match op with
  | Start b => (startBot b w).1.2
  | Stop b => (stopBot b w).1.2
  end.

(** The world after a sequence of calls, each awaited before the next. *)
Definition run (ops : list Op) (w : World) : World := fold_left step ops w.

Definition fresh : World := {| botClient := None; connections := [] |}.

(** The clients that are connected. *)
Definition live (w : World) : list Connection :=
  List.filter conn_live (connections w).

(** The connected clients are the one [botClient] names, if any, and every
    client has the three listeners of [startBot], once each. *)
Definition coherent (w : World) : Prop :=
  map conn_id (live w) = match botClient w with Some c => [c] | None => [] end
  /\ Forall (fun k => conn_listeners k = ["ready"; "messageCreate"; "error"])
       (connections w).

End Lifecycle.

(** ** More of the JavaScript library: [split] and [parseInt] *)

Module JsText.
Import Stdlib.Strings.Ascii.

(** [s.split(sep)] for a non-empty separator, scanning left to right.
    [skip] counts the characters of a matched separator still to drop; the
    head of the result is the piece being read. *)
Fixpoint split_from (sep : string) (skip : nat) (s : string) : list string :=
  match s with
  | EmptyString => [""]
  | String c s' =>
      match skip with
      | S k => split_from sep k s'
      | O =>
          if String.prefix sep s
          then "" :: split_from sep (String.length sep - 1) s'
          else match split_from sep 0 s' with
               | p :: ps => String c p :: ps
               | [] => [String c ""]
               end
      end
  end.

Definition split (sep s : string) : list string := split_from sep 0 s.

(** Strings are kept as the bytes of their UTF-8 encoding.  The white
    space and line terminators that [parseInt] skips are
    - one byte: TAB, LF, VT, FF, CR and the space,
    - two bytes: U+00A0 (C2 A0),
    - three bytes: U+1680 (E1 9A 80), U+2000 to U+200A (E2 80 80 to 8A),
      U+2028 and U+2029 (E2 80 A8, A9), U+202F (E2 80 AF), U+205F
      (E2 81 9F), U+3000 (E3 80 80) and U+FEFF (EF BB BF). *)
Definition is_space (c : ascii) : bool :=
  let n := nat_of_ascii c in
  ((9 <=? n) && (n <=? 13) || (n =? 32))%nat.

Definition is_space2 (a b : ascii) : bool :=
  ((nat_of_ascii a =? 194) && (nat_of_ascii b =? 160))%nat.

Definition is_space3 (a b c : ascii) : bool :=
  let '(x, y, z) := (nat_of_ascii a, nat_of_ascii b, nat_of_ascii c) in
  ((x =? 225) && (y =? 154) && (z =? 128)
   || (x =? 226) && (y =? 128)
      && ((128 <=? z) && (z <=? 138) || (z =? 168) || (z =? 169) || (z =? 175))
   || (x =? 226) && (y =? 129) && (z =? 159)
   || (x =? 227) && (y =? 128) && (z =? 128)
   || (x =? 239) && (y =? 187) && (z =? 191))%nat.

(** TrimString(s, start).  A one-byte character that is no white space
    ends the trimming; so does a longer one, looked at with the bytes that
    follow its first. *)
Fixpoint trim_start (s : string) : string :=
  match s with
  | EmptyString => s
  | String a r =>
      if is_space a then trim_start r
      else if (nat_of_ascii a <? 128)%nat then s
      else
        match r with
        | String b r2 =>
            if is_space2 a b then trim_start r2
            else
              match r2 with
              | String c r3 => if is_space3 a b c then trim_start r3 else s
              | EmptyString => s
              end
        | EmptyString => s
        end
  end.

(** The value of a digit in a radix of 10 or 16. *)
Definition digit (radix : Z) (c : ascii) : option Z :=
  let n := Z.of_nat (nat_of_ascii c) in
  let v := if (48 <=? n) && (n <=? 57) then Some (n - 48)
           else if (97 <=? n) && (n <=? 122) then Some (n - 87)
           else if (65 <=? n) && (n <=? 90) then Some (n - 55)
           else None in
  match v with
  | Some d => if d <? radix then Some d else None
  | None => None
  end.

(** The number written by the longest prefix of digits; [acc] is [None]
    until a digit has been read. *)
Fixpoint digits (radix : Z) (acc : option Z) (s : string) : option Z :=
  match s with
  | EmptyString => acc
  | String c s' =>
      match digit radix c with
      | Some d => digits radix (Some (default 0 acc * radix + d)) s'
      | None => acc
      end
  end.

(** [parseInt(s)] without a radix argument, behind the white space in
    front of [s]; [None] is NaN.  The result is exact: the rounding of
    integers beyond 2^53 is not modelled. *)
Definition parse_trimmed (s1 : string) : option Z :=
  let '(sign, s2) :=
    match s1 with
    | String c r =>
        if Ascii.eqb c "-" then (-1, r)
        else if Ascii.eqb c "+" then (1, r)
        else (1, s1)
    | EmptyString => (1, s1)
    end in
  let '(radix, s3) :=
    match s2 with
    | String c (String x r) =>
        if Ascii.eqb c "0" && (Ascii.eqb x "x" || Ascii.eqb x "X")
        then (16, r) else (10, s2)
    | _ => (10, s2)
    end in
  match digits radix None s3 with
  | Some n => Some (sign * n)
  | None => None
  end.

Definition parseInt (s : string) : option Z := parse_trimmed (trim_start s).

(** The decimal numeral of a natural number, as [String(n)] writes it. *)
Definition decimal (n : nat) : string :=
  DecimalString.NilZero.string_of_uint (Nat.to_uint n).

(** A string without a comma. *)
Definition comma_free (s : string) : Prop :=
  forall i, String.get i s <> Some ","%char.

End JsText.

(** ** server/routes.ts: the log and statistics queries *)

Module Routes.
Import Schema Storage.

(** GET /api/logs/recent: [limit] is [req.query.limit], absent or given once
    as a string.  [slice(0, NaN)] is [slice(0, 0)]. *)
Definition recentLogs (s : MemStorage) (limit : option string)
    : list ModerationLog :=
  let limit :=
    match limit with
    | Some q => if Js.str_truthy q then JsText.parseInt q else Some 5
    | None => Some 5
    end in
  match limit with
  | Some n => getRecentLogs s (Some n)
  | None => getRecentLogs s (Some 0)
  end.

(** GET /api/stats: the predicate of [allLogs.filter].  [diffMs / 86400000
    <= k] is decided on the integers: for these divisors the quotient of
    doubles is at most [k] exactly when [diffMs <= k * 86400000]. *)
Definition keeps (serverId timeRange : option string) (now : Z)
    (log : ModerationLog) : bool :=
  if Js.opt_truthy serverId
     && negb (String.eqb (i_serverId (log_row log)) (default "" serverId))
  then false
  else
    let diffMs := now - timestamp log in
    match timeRange with
    | Some r =>
        if String.eqb r "24h" then diffMs <=? 1 * 86400000
        else if String.eqb r "7d" then diffMs <=? 7 * 86400000
        else if String.eqb r "30d" then diffMs <=? 30 * 86400000
        else true
    | None => true
    end.

Definition filteredLogs (s : MemStorage) (serverId timeRange : option string)
    (now : Z) : list ModerationLog :=
  List.filter (keeps serverId timeRange now) (getLogs s).

(** [stats.totalViolations] *)
Definition totalViolations (s : MemStorage) (serverId timeRange : option string)
    (now : Z) : nat :=
  length (filteredLogs s serverId timeRange now).

(** [log.actionTaken.split(", ")] *)
Definition actions_of (log : ModerationLog) : list string :=
  JsText.split ", " (actionTaken log).

(** [actionsByType[action] || 0] after the loop over the filtered logs. *)
Definition actionsByType (logs : list ModerationLog) (action : string) : nat :=
  length (List.filter (String.eqb action) (concat (map actions_of logs))).

End Routes.

(** ** More vocabulary for statements about runs *)

Module RunMore.
Import Stdlib.Strings.Ascii.
Import Schema Discord Effects OpenAI Bot Run.

Definition is_delete (e : Event) : bool :=
  match e with EvMessageDelete => true | _ => false end.

(** The message gets past the filters and is judged a violation. *)
Definition takes_action (m : Message) (env : Env) (s : State) : Prop :=
  bot (author m) = false
  /\ exists c a,
       Storage.getConfig (storage s) (Js.str_or (guildId m) "") = Some c
       /\ channel_monitored c m = true
       /\ verdict c m env s = Some a
       /\ Js.truthy (isViolation a) = true.

(** A string without the character [@]. *)
Definition no_at (s : string) : Prop :=
  forall i, String.get i s <> Some "@"%char.

Definition is_digit (c : ascii) : bool :=
  let n := nat_of_ascii c in ((48 <=? n) && (n <=? 57))%nat.

(** A string of decimal digits, as the ids of the chat platform are. *)
Fixpoint digits_only (s : string) : bool :=
  match s with
  | EmptyString => true
  | String c s' => is_digit c && digits_only s'
  end.

(** The connections a broadcast writes to. *)
Definition open_clients (clients : list WebSocket) : list WebSocket :=
  List.filter (fun c => readyState c =? 1) clients.

(** The verdict for an answer without content. *)
Definition no_violation_detected : ModerationResult :=
  {| isViolation := Js.JBool false;
     violationType := Js.JStr "none";
     confidenceScore := Js.JNum (QArith_base.Qmake 0 1);
     reasoning := Js.JStr "No violation detected" |}.

(** The example config with a command without placeholder. *)
Definition purge_cfg : ModConfig :=
  {| id := "cfg-2"; serverId := "123456789"; serverName := "Example Server";
     sensitivity := "medium"; primaryAction := "custom";
     enableWarn := false; warnMessage := None;
     enableLog := false; logChannelId := None;
     enableKick := false; enableBan := false; banDuration := None;
     customCommand := Some "!purge 10";
     monitoredChannels := None; monitorAllChannels := true |}.

(** A message whose ids are digit strings, as the platform issues them. *)
Definition snowflake_message : Message :=
  {| author := {| bot := false; user_id := "80351110224678912";
                  username := "mallory"; tag := "mallory#0042";
                  displayAvatarURL := "https://cdn/m.png" |};
     guildId := Some "123456789"; guild := None;
     channelId := "41771983423143937"; channel_name := Some "general";
     content := "BUY CRYPTO NOW CLICK HERE" |}.

(** The service answers without any choice. *)
Definition no_answer : Env :=
  {| chat_completion := Resolves [];
     JSON_parse := Scenario.toy_parse;
     randomUUID := "7f9c2ba4"; now := 1700000000000;
     author_send_ok := true;
     channels_fetch := FetchRejects;
     logChannel_send_ok := true;
     kick_ok := true; ban_ok := true; channel_send_ok := true;
     delete_ok := true |}.

(** A dashboard connection that has just been accepted. *)
Definition new_socket : WebSocket := {| ws_id := 7%nat; readyState := 1 |}.

(** The answers of the outside world to a second message. *)
Definition second_env : Env :=
  {| chat_completion := Resolves [ {| message_content := Some (Some "SPAM") |} ];
     JSON_parse := Scenario.toy_parse;
     randomUUID := "0b1e55aa"; now := 1700000000500;
     author_send_ok := false;
     channels_fetch := FetchRejects;
     logChannel_send_ok := true;
     kick_ok := true; ban_ok := true; channel_send_ok := false;
     delete_ok := false |}.


End RunMore.

(** ** The handler when the channel leaves the cache

    [message.channel] is a getter of the chat library: it looks
    [message.channelId] up in the channel cache of the client and gives
    null when the channel is not there, for instance because it was
    deleted while the handler waited for the classification.  The handler
    reads it three times: for the channel name of the new entry (line 68,
    outside every [try]), for the channel name in the embed (line 100) and
    for the custom command (line 148), both inside the [try] of their
    block.  [Bot] follows the declared type of [message.channel], which is
    never null; in this module each of the three reads has its own
    answer, and everything else is the code of [Bot]. *)

Module Uncached.
Import Schema Discord Effects OpenAI Bot.

(** Whether the channel is in the cache at each of the three reads. *)
Record Reads : Type := {
  at_entry : bool;
  at_embed : bool;
  at_command : bool;
}.

Definition all_cached : Reads :=
  {| at_entry := true; at_embed := true; at_command := true |}.

(** A property read or method call on [message.channel], followed by [k]:
    a TypeError when the getter gives null. *)
Definition channel {A} (cached : bool) (k : M A) : M A :=
  if cached then k else throw.

(** The computation returns, whatever the oracle and the state. *)
Definition returns {A} (m : M A) : Prop :=
  forall env s, exists a, result (m env s) = inr a.

Section Handler.
Variable reads : Reads.
Variable config : ModConfig.
Variable message : Message.
Variable analysis : ModerationResult.

(** Log to channel *)
Definition logToChannel (actionsTaken : list string) : M (list string) :=
  match logChannelId config with
  | Some cid =>
      if enableLog config && Js.str_truthy cid then
        try_catch
          (logChannel <- guild_channels_fetch message cid ;;
           match logChannel with
           | Some ch =>
               channel (at_embed reads)
                 (call (EvLogChannelSend (channel_id ch)
                          {| e_title := "Moderation Alert";
                             e_user := tag (author message);
                             e_channel := channel_name message;
                             e_violation := violationType analysis;
                             e_confidence := confidenceScore analysis;
                             e_reasoning := reasoning analysis;
                             e_color := 16711680 |})
                       logChannel_send_ok ;;;
                  ret (actionsTaken ++ ["logged"]))
           | None => ret actionsTaken
           end)
          (console_error "Failed to log to channel:" ;;; ret actionsTaken)
      else ret actionsTaken
  | None => ret actionsTaken
  end.

(** Custom command *)
Definition customCommandAction (actionsTaken : list string) : M (list string) :=
  match customCommand config with
  | Some cmd =>
      if Js.str_truthy cmd then
        try_catch
          (let commandText :=
             Js.replace "@channel" ("<#" +:+ channelId message +:+ ">")
               (Js.replace "@user" ("<@" +:+ user_id (author message) +:+ ">") cmd) in
           channel (at_command reads)
             (call (EvChannelSend (channelId message) commandText) channel_send_ok ;;;
              ret (actionsTaken ++ ["custom"])))
          (console_error "Failed to execute custom command:" ;;; ret actionsTaken)
      else ret actionsTaken
  | None => ret actionsTaken
  end.

Definition executeActions : M (list string) :=
  actionsTaken <- warnUser config message [] ;;
  actionsTaken <- logToChannel actionsTaken ;;
  actionsTaken <- kickUser config message analysis actionsTaken ;;
  actionsTaken <- banUser config message analysis actionsTaken ;;
  customCommandAction actionsTaken.

(** The body of [if (analysis.isViolation) { ... }]: the argument of
    [storage.createLog] is built first, with the read of line 68. *)
Definition onViolation : M unit :=
  lr <- channel (at_entry reads) (createLog (newLog message analysis)) ;;
  broadcastLog lr.1 ;;;
  actionsTaken <- executeActions ;;
  updateLog lr.2 actionsTaken ;;;
  deleteMessage.

End Handler.

(** The [messageCreate] handler registered by [startBot]. *)
Definition onMessageCreate (reads : Reads) (message : Message) : M unit :=
  if bot (author message) then ret tt else
  config <- gets (fun s => Storage.getConfig (storage s) (Js.str_or (guildId message) "")) ;;
  match config with
  | None => ret tt
  | Some config =>
      if negb (monitorAllChannels config)
         && negb (Js.includes (default [] (monitoredChannels config)) (channelId message))
      then ret tt else
      analysis <- analyzeMessage (content message)
                    (Js.str_or (Some (sensitivity config)) "medium") ;;
      if Js.truthy (isViolation analysis)
      then onViolation reads config message analysis
      else ret tt
  end.

(** The channel of the example message is gone when the entry is built. *)
Definition gone_at_entry : Reads :=
  {| at_entry := false; at_embed := true; at_command := true |}.

End Uncached.

(** * Properties *)

(** ** The log store: reverse-chronological reads *)

Module StorageProps.
Import Schema Storage.

Section Sorting.
Abbreviation ins := (Js.insert_sorted byTimestampDesc).
Abbreviation srt := (Js.sort byTimestampDesc).

Lemma insert_sorted_perm x l : Permutation (x :: l) (ins x l).
Proof.
  induction l as [|y l IH]; simpl; [reflexivity|].
  destruct (byTimestampDesc x y <=? 0); [reflexivity|].
  rewrite perm_swap. now apply perm_skip.
Qed.

Lemma sort_perm l : Permutation l (srt l).
Proof.
  induction l as [|x l IH]; simpl; [constructor|].
  rewrite <- insert_sorted_perm. now apply perm_skip.
Qed.

Lemma insert_sorted_sorted x l :
  StronglySorted not_older l -> StronglySorted not_older (ins x l).
Proof.
  induction 1 as [|y l Hl IH Hy]; simpl.
  - repeat constructor.
  - destruct (Z.leb_spec (byTimestampDesc x y) 0) as [Hle|Hgt].
    + assert (Hxy : not_older x y) by (unfold not_older, byTimestampDesc in *; lia).
      constructor; [now constructor|].
      constructor; [exact Hxy|].
      eapply Forall_impl; [exact Hy|].
      unfold not_older in *. intros z Hz. simpl in Hz. lia.
    + constructor; [exact IH|].
      rewrite <- insert_sorted_perm.
      constructor; [|exact Hy].
      unfold not_older, byTimestampDesc in *. lia.
Qed.

Lemma sort_sorted l : StronglySorted not_older (srt l).
Proof.
  induction l as [|x l IH]; simpl; [constructor|].
  now apply insert_sorted_sorted.
Qed.
End Sorting.

Lemma slice0_nonneg {A} (l : list A) (n : Z) :
  0 <= n -> Js.slice0 l n = take (Z.to_nat n) l.
Proof.
  intros Hn. unfold Js.slice0.
  destruct (Z.ltb_spec n 0) as [?|_]; [lia|].
  destruct (Z.le_gt_cases n (Z.of_nat (length l))) as [Hle|Hgt].
  - now rewrite Z.min_l.
  - rewrite Z.min_r by lia. rewrite Nat2Z.id.
    rewrite !take_ge; [reflexivity| |]; lia.
Qed.

(** C9. For every store and every n >= 0, [getRecentLogs(n)] is exactly the
    first n entries of [getLogs()]; [getLogs()] holds the stored entries
    (all of them, each once) ordered by timestamp descending; and
    [getRecentLogs(0)] is the empty list. *)
Theorem getRecentLogs_prefix_of_getLogs (s : MemStorage) (n : Z) :
  0 <= n ->
  getRecentLogs s (Some n) = take (Z.to_nat n) (getLogs s)
  /\ StronglySorted not_older (getLogs s)
  /\ Permutation (logs s) (getLogs s)
  /\ getRecentLogs s (Some 0) = [].
Proof.
  intros Hn. unfold getRecentLogs, getLogs. simpl.
  repeat split.
  - now apply slice0_nonneg.
  - apply sort_sorted.
  - apply sort_perm.
  - now rewrite slice0_nonneg.
Qed.

Lemma getRecentLogs_prefix_of_getLogs_witness :
  0 <= 2
  /\ (getRecentLogs Scenario.store (Some 2)
      = take (Z.to_nat 2) (getLogs Scenario.store)
      /\ StronglySorted not_older (getLogs Scenario.store)
      /\ Permutation (logs Scenario.store) (getLogs Scenario.store)
      /\ getRecentLogs Scenario.store (Some 0) = []).
Proof.
  split; [lia|].
  apply (getRecentLogs_prefix_of_getLogs Scenario.store 2). lia.
Defined.

(** The listing of the example store: newest first. *)
Example getRecentLogs_example :
  map log_id (getRecentLogs Scenario.store (Some 2)) = ["b"; "c"]
  /\ map log_id (getLogs Scenario.store) = ["b"; "c"; "a"]
  /\ map log_id (getRecentLogs Scenario.store None) = ["b"; "c"; "a"].
Proof. vm_compute. repeat split. Qed.

End StorageProps.

(** ** The classification client: failures degrade to "no violation" *)

Module ClassifierProps.
Import Effects OpenAI Run.

Ltac run_classifier :=
  cbv beta iota delta [analyzeMessage try_catch bind create parse prop emit
                         ask throw ret console_error]; simpl.

(** One request is sent, the state is left alone, and the call returns:
    either silently, or after reporting the error on the console. *)
Lemma analyzeMessage_run message sensitivity env s :
  exists a errs,
    analyzeMessage message sensitivity env s
    = (inr a, s, EvChatCompletion (request message sensitivity) :: errs)
    /\ (errs = [] \/ (errs = [EvConsoleError "Error analyzing message:"]
                      /\ a = safe_default)).
Proof.
  run_classifier.
  destruct (chat_completion env) as [|choices]; simpl.
  { eexists _, _. split; [reflexivity|]. right. split; reflexivity. }
  destruct (JSON_parse env (Js.str_or (first_content choices) "{}")) as [v|]; simpl.
  2:{ eexists _, _. split; [reflexivity|]. right. split; reflexivity. }
  destruct v; simpl;
    eexists _, _; (split; [reflexivity|]);
    first [ left; reflexivity | right; split; reflexivity ].
Qed.

Lemma analyzeMessage_never_throws message sensitivity env s :
  exists a, result (analyzeMessage message sensitivity env s) = inr a.
Proof.
  destruct (analyzeMessage_run message sensitivity env s) as (a & errs & E & _).
  exists a. now rewrite E.
Qed.

(** C4, as stated, fails.  A reply that is JSON but no verdict is not
    treated as a failure: for the object whose [isViolation] is the string
    "false", [analyzeMessage] returns that string, which is truthy, so the
    message is reported as a violation, with the reasoning of the reply. *)
Lemma malformed_reply_reported_as_violation : ~ fail_open_as_specified.
Proof.
  intros H.
  destruct (H "hello there" "medium" Scenario.quoted_false Scenario.st)
    as (a & Ha & Hv & _).
  - apply (malformed_response _ [ {| message_content :=
                                       Some (Some Scenario.quoted_false_doc) |} ]);
      reflexivity.
  - vm_compute in Ha. injection Ha as <-. discriminate Hv.
Qed.

(** C4, amended. Whenever the classification call throws inside the client
    (the request rejects on a transport error or timeout, the content of
    the reply is not JSON, or it is the JSON value null), [analyzeMessage]
    returns, rather than throws, the verdict with isViolation = false,
    violationType = "none", confidenceScore = 0 and the reasoning "Error
    analyzing message"; that verdict is not a violation. *)
Theorem analyzeMessage_fail_open message sensitivity env s :
  classification_fails env ->
  result (analyzeMessage message sensitivity env s) = inr safe_default
  /\ Js.truthy (isViolation safe_default) = false.
Proof.
  intros Hf. split; [|reflexivity].
  run_classifier.
  destruct Hf as [Hr | choices Hr Hp | choices Hr Hp]; rewrite Hr; simpl;
    [reflexivity | now rewrite Hp | now rewrite Hp].
Qed.

Lemma analyzeMessage_fail_open_witness :
  classification_fails Scenario.service_down
  /\ (result (analyzeMessage "hello" "medium" Scenario.service_down Scenario.st)
      = inr safe_default
      /\ Js.truthy (isViolation safe_default) = false).
Proof.
  assert (H : classification_fails Scenario.service_down)
    by (apply transport_failure; reflexivity).
  split; [exact H|].
  apply (analyzeMessage_fail_open "hello" "medium" Scenario.service_down
           Scenario.st H).
Defined.

(** The verdict and the events of a call do not depend on the state it is
    made in. *)
Lemma analyzeMessage_from_idle message sensitivity env s :
  analyzeMessage message sensitivity env s
  = (result (analyzeMessage message sensitivity env idle), s,
     trace (analyzeMessage message sensitivity env idle)).
Proof.
  run_classifier.
  destruct (chat_completion env) as [|choices]; simpl; [reflexivity|].
  destruct (JSON_parse env (Js.str_or (first_content choices) "{}")) as [v|];
    simpl; [|reflexivity].
  destruct v; reflexivity.
Qed.

End ClassifierProps.

(** ** The handler, block by block *)

Module BotLemmas.
Import Schema Discord Effects OpenAI Bot Run.

Ltac run_block :=
  cbv beta iota zeta delta [warnUser logToChannel kickUser banUser customCommandAction
                       updateLog deleteMessage guild_channels_fetch
                       warn_outcome log_outcome kick_outcome ban_outcome
                       custom_outcome delete_events attempt skipped
                       try_catch bind call emit ask gets modify throw ret
                       console_error].

Ltac finish_block := simpl; rewrite ?app_nil_r; reflexivity.

Lemma warnUser_run c m acts env s :
  warnUser c m acts env s
  = (inr (acts ++ (warn_outcome c m env).1), s, (warn_outcome c m env).2).
Proof.
  run_block.
  destruct (warnMessage c) as [text|]; [|finish_block].
  destruct (enableWarn c && Js.str_truthy text); [|finish_block].
  destruct (author_send_ok env); finish_block.
Qed.

Lemma logToChannel_run c m a acts env s :
  logToChannel c m a acts env s
  = (inr (acts ++ (log_outcome c m a env).1), s, (log_outcome c m a env).2).
Proof.
  run_block.
  destruct (logChannelId c) as [cid|]; [|finish_block].
  destruct (enableLog c && Js.str_truthy cid); [|finish_block].
  destruct (guild m); [|finish_block].
  destruct (channels_fetch env) as [|[ch|]]; try finish_block.
  destruct (logChannel_send_ok env); finish_block.
Qed.

Lemma kickUser_run c m a acts env s :
  kickUser c m a acts env s
  = (inr (acts ++ (kick_outcome c m a env).1), s, (kick_outcome c m a env).2).
Proof.
  run_block.
  destruct (enableKick c); [|finish_block].
  destruct (cached_member m); [|finish_block].
  destruct (kick_ok env); finish_block.
Qed.

Lemma banUser_run c m a acts env s :
  banUser c m a acts env s
  = (inr (acts ++ (ban_outcome c m a env).1), s, (ban_outcome c m a env).2).
Proof.
  run_block.
  destruct (enableBan c); [|finish_block].
  destruct (cached_member m); [|finish_block].
  destruct (ban_ok env); finish_block.
Qed.

Lemma customCommandAction_run c m acts env s :
  customCommandAction c m acts env s
  = (inr (acts ++ (custom_outcome c m env).1), s, (custom_outcome c m env).2).
Proof.
  run_block.
  destruct (customCommand c) as [cmd|]; [|finish_block].
  destruct (Js.str_truthy cmd); [|finish_block].
  destruct (channel_send_ok env); finish_block.
Qed.

Lemma executeActions_run c m a env s :
  executeActions c m a env s
  = (inr (actions_labels c m a env), s, actions_events c m a env).
Proof.
  unfold executeActions, bind.
  rewrite warnUser_run, logToChannel_run, kickUser_run, banUser_run,
    customCommandAction_run.
  unfold actions_labels, actions_events.
  simpl. now rewrite <- !app_assoc.
Qed.

Lemma deleteMessage_run env s :
  deleteMessage env s = (inr tt, s, delete_events env).
Proof. run_block. destruct (delete_ok env); reflexivity. Qed.

Lemma forEach_ws_run log clients env s :
  forEach (sendIfOpen log) clients env s = (inr tt, s, ws_sends log clients).
Proof.
  induction clients as [|c clients IH]; [reflexivity|].
  simpl. unfold bind, ws_sends, sendIfOpen at 1. simpl.
  destruct (readyState c =? 1); unfold emit, ret; rewrite IH; reflexivity.
Qed.

Lemma broadcastLog_run log env s :
  broadcastLog log env s
  = (inr tt, s, EvBroadcast log :: ws_sends log (connectedClients s)).
Proof.
  unfold broadcastLog, bind, emit, gets. now rewrite forEach_ws_run.
Qed.

Lemma onViolation_run c m a env s :
  onViolation c m a env s
  = (inr tt, violation_state c m a env s, violation_trace c m a env s).
Proof.
  unfold onViolation, violation_state, violation_trace, bind.
  unfold createLog, Storage.createLog, bind, ask, gets, modify, emit, ret. simpl.
  rewrite broadcastLog_run. simpl.
  rewrite executeActions_run.
  unfold updateLog, update_events, final_actionTaken.
  destruct (actions_labels c m a env) as [|l ls] eqn:El; simpl.
  - rewrite deleteMessage_run. simpl. reflexivity.
  - unfold bind, modify, emit. rewrite deleteMessage_run. simpl.
    unfold Storage.write_actionTaken, set_storage. simpl.
    replace (length (Storage.logs (storage s)))
      with (length (Storage.logs (storage s)) + 0)%nat at 1 by lia.
    rewrite alter_app_r. reflexivity.
Qed.

(** Bot authors, unconfigured servers and unmonitored channels: the handler
    returns at once. *)
Lemma onMessageCreate_bot m env s :
  bot (author m) = true -> onMessageCreate m env s = (inr tt, s, []).
Proof. intros Hb. unfold onMessageCreate. now rewrite Hb. Qed.

Lemma onMessageCreate_unconfigured m env s :
  Storage.getConfig (storage s) (Js.str_or (guildId m) "") = None ->
  onMessageCreate m env s = (inr tt, s, []).
Proof.
  intros Hc. unfold onMessageCreate.
  destruct (bot (author m)); [reflexivity|].
  unfold bind, gets. now rewrite Hc.
Qed.

Lemma onMessageCreate_unmonitored m env s c :
  Storage.getConfig (storage s) (Js.str_or (guildId m) "") = Some c ->
  channel_monitored c m = false ->
  onMessageCreate m env s = (inr tt, s, []).
Proof.
  intros Hc Hm. unfold onMessageCreate.
  destruct (bot (author m)); [reflexivity|].
  unfold bind, gets. rewrite Hc.
  unfold channel_monitored in Hm. apply orb_false_elim in Hm as [-> ->].
  reflexivity.
Qed.

(** A message that passes the filters is classified; what follows depends
    on the verdict only. *)
Lemma onMessageCreate_classified m env s c :
  bot (author m) = false ->
  Storage.getConfig (storage s) (Js.str_or (guildId m) "") = Some c ->
  channel_monitored c m = true ->
  exists a errs,
    verdict c m env s = Some a
    /\ (errs = [] \/ (errs = [EvConsoleError "Error analyzing message:"]
                      /\ a = safe_default))
    /\ onMessageCreate m env s
       = if Js.truthy (isViolation a)
         then (inr tt, violation_state c m a env s,
               EvChatCompletion
                 (request (content m)
                    (Js.str_or (Some (sensitivity c)) "medium"))
               :: errs ++ violation_trace c m a env s)
         else (inr tt, s,
               EvChatCompletion
                 (request (content m)
                    (Js.str_or (Some (sensitivity c)) "medium"))
               :: errs).
Proof.
  intros Hb Hc Hm.
  destruct (ClassifierProps.analyzeMessage_run (content m)
              (Js.str_or (Some (sensitivity c)) "medium") env s)
    as (a & errs & E & Herrs).
  exists a, errs. split; [|split; [exact Herrs|]].
  - unfold verdict. now rewrite E.
  - unfold onMessageCreate. rewrite Hb.
    unfold bind at 1. unfold gets at 1. rewrite Hc.
    unfold channel_monitored in Hm.
    rewrite <- negb_orb, Hm. cbn [negb].
    unfold bind. rewrite E.
    destruct (Js.truthy (isViolation a)).
    + rewrite onViolation_run. reflexivity.
    + unfold ret. now rewrite app_nil_r.
Qed.

Lemma onMessageCreate_violation m env s c a :
  bot (author m) = false ->
  Storage.getConfig (storage s) (Js.str_or (guildId m) "") = Some c ->
  channel_monitored c m = true ->
  verdict c m env s = Some a ->
  Js.truthy (isViolation a) = true ->
  onMessageCreate m env s
  = (inr tt, violation_state c m a env s,
     EvChatCompletion
       (request (content m)
          (Js.str_or (Some (sensitivity c)) "medium"))
     :: violation_trace c m a env s).
Proof.
  intros Hb Hc Hm Hv Ht.
  destruct (onMessageCreate_classified m env s c Hb Hc Hm)
    as (a' & errs & Hv' & Herrs & E).
  assert (a' = a) by congruence. subst a'.
  rewrite E, Ht.
  destruct Herrs as [-> | [_ ->]]; [reflexivity | discriminate].
Qed.

Lemma onMessageCreate_passed m env s c :
  bot (author m) = false ->
  Storage.getConfig (storage s) (Js.str_or (guildId m) "") = Some c ->
  channel_monitored c m = true ->
  onMessageCreate m env s
  = let r := analyzeMessage (content m)
               (Js.str_or (Some (sensitivity c)) "medium") env idle in
    match result r with
    | inr a =>
        if Js.truthy (isViolation a)
        then (inr tt, violation_state c m a env s,
              trace r ++ violation_trace c m a env s)
        else (inr tt, s, trace r)
    | inl e => (inl e, s, trace r)
    end.
Proof.
  intros Hb Hc Hm.
  unfold onMessageCreate. rewrite Hb.
  unfold bind at 1. unfold gets at 1. rewrite Hc.
  unfold channel_monitored in Hm.
  rewrite <- negb_orb, Hm. cbn [negb].
  unfold bind. rewrite (ClassifierProps.analyzeMessage_from_idle _ _ env s).
  destruct (analyzeMessage (content m)
              (Js.str_or (Some (sensitivity c)) "medium") env idle)
    as [[[e|a] s'] t]; unfold result, trace; cbn [fst snd]; [reflexivity|].
  destruct (Js.truthy (isViolation a)).
  - now rewrite onViolation_run.
  - unfold ret. now rewrite app_nil_r.
Qed.

(** Configs with the same [pipeline_view] give the same blocks. *)
Lemma outcomes_view c c' m a env :
  pipeline_view c = pipeline_view c' ->
  actions_labels c m a env = actions_labels c' m a env
  /\ actions_events c m a env = actions_events c' m a env
  /\ channel_monitored c m = channel_monitored c' m
  /\ sensitivity c = sensitivity c'.
Proof.
  destruct c, c'. unfold pipeline_view. simpl.
  intros [= -> -> -> -> -> -> -> -> -> ->]. repeat split; reflexivity.
Qed.

(** The handler observes the store through the logs, the connections and
    the [pipeline_view] of the config of the message's server only. *)
Lemma onMessageCreate_config_view m env s1 s2 :
  connectedClients s1 = connectedClients s2 ->
  Storage.logs (storage s1) = Storage.logs (storage s2) ->
  option_Forall2 (fun c c' => pipeline_view c = pipeline_view c')
    (Storage.getConfig (storage s1) (Js.str_or (guildId m) ""))
    (Storage.getConfig (storage s2) (Js.str_or (guildId m) "")) ->
  result (onMessageCreate m env s1) = result (onMessageCreate m env s2)
  /\ trace (onMessageCreate m env s1) = trace (onMessageCreate m env s2)
  /\ Storage.logs (storage (final (onMessageCreate m env s1)))
     = Storage.logs (storage (final (onMessageCreate m env s2)))
  /\ connectedClients (final (onMessageCreate m env s1))
     = connectedClients (final (onMessageCreate m env s2)).
Proof.
  intros Hcl Hlogs Hcfg.
  destruct (bot (author m)) eqn:Hb.
  { rewrite !onMessageCreate_bot by exact Hb. now repeat split. }
  inversion Hcfg as [c c' Hview Hc Hc' | Hc Hc']; symmetry in Hc, Hc'.
  2:{ rewrite !onMessageCreate_unconfigured by assumption. now repeat split. }
  destruct (outcomes_view c c' m) with (a := safe_default) (env := env)
    as (_ & _ & Hmon & Hsens); [exact Hview|].
  destruct (channel_monitored c m) eqn:Hm.
  2:{ rewrite (onMessageCreate_unmonitored m env s1 c), 
        (onMessageCreate_unmonitored m env s2 c'); 
        try assumption; [now repeat split | congruence]. }
  rewrite (onMessageCreate_passed m env s1 c), (onMessageCreate_passed m env s2 c');
    try assumption; [|congruence].
  rewrite <- Hsens. cbv zeta.
  destruct (result (analyzeMessage (content m)
                      (Js.str_or (Some (sensitivity c)) "medium") env idle))
    as [e|a]; [now repeat split|].
  destruct (Js.truthy (isViolation a)); [|now repeat split].
  destruct (outcomes_view c c' m a env Hview) as (Hl & He & _).
  unfold result, trace, final, violation_trace, violation_state. cbn [fst snd].
  rewrite <- Hl, <- He, <- Hcl, <- Hlogs. now repeat split.
Qed.

End BotLemmas.

(** ** The pipeline: filter, record, notify, act, finalize *)

Module PipelineProps.
Import Schema Discord Effects OpenAI Bot Run BotLemmas.

(** Simplification that leaves the string functions alone. *)
Ltac quiet :=
  cbn [fst snd existsb orb andb negb app is_author_send is_log_send is_kick
       is_ban is_channel_send is_channels_fetch is_console is_enforcement
       action_rank is_create_log is_broadcast].

(** Case analysis on the conditions one block branches on. *)
Ltac part_cases :=
  unfold warn_outcome, log_outcome, kick_outcome, ban_outcome, custom_outcome,
    delete_events, update_events, attempt, skipped;
  quiet;
  repeat match goal with
         | |- context [match ?x with _ => _ end] =>
             lazymatch x with
             | context [match _ with _ => _ end] => fail
             | _ => destruct x eqn:?; quiet
             end
         end.

(** A property of every element of an explicit list. *)
Ltac each tac :=
  repeat match goal with
         | |- Forall _ [] => constructor
         | |- Forall _ (_ :: _) => constructor; [tac|]
         end.

(** *** Which events the parts of a run consist of *)

Lemma ws_sends_shape log clients :
  Forall (fun e => exists w, e = EvWsSend w log) (ws_sends log clients).
Proof.
  unfold ws_sends. induction clients as [|c clients IH]; simpl; [constructor|].
  destruct (readyState c =? 1); simpl; [constructor; eauto|exact IH].
Qed.

Lemma actions_events_shape c m a env :
  Forall (fun e => is_enforcement e = true \/ is_console e = true)
         (actions_events c m a env).
Proof.
  unfold actions_events. rewrite !Forall_app.
  repeat split; part_cases;
    each ltac:(first [left; reflexivity | right; reflexivity]).
Qed.

Lemma update_events_shape ref labels :
  Forall (fun e => exists v, e = EvSetActionTaken ref v) (update_events ref labels).
Proof. part_cases; each eauto. Qed.

Lemma delete_events_shape env :
  Forall (fun e => e = EvMessageDelete \/ is_console e = true) (delete_events env).
Proof. part_cases; each ltac:(first [left; reflexivity | right; reflexivity]). Qed.

Lemma after_broadcast_no_create c m a env s :
  Forall (fun e => is_create_log e = false) (after_broadcast c m a env s).
Proof.
  unfold after_broadcast. rewrite !Forall_app. repeat split.
  - eapply Forall_impl; [apply actions_events_shape|].
    intros [] [H|H]; solve [reflexivity | discriminate H].
  - eapply Forall_impl; [apply update_events_shape|]. intros e [v ->]. reflexivity.
  - eapply Forall_impl; [apply delete_events_shape|].
    intros [] [H|H]; solve [reflexivity | discriminate H].
Qed.

Lemma violation_trace_split c m a env s :
  violation_trace c m a env s
  = EvCreateLog (created_log m a env) :: EvBroadcast (created_log m a env)
    :: ws_sends (created_log m a env) (connectedClients s)
    ++ after_broadcast c m a env s.
Proof. reflexivity. Qed.

Lemma call_classes :
  call_class is_author_send /\ call_class is_log_send /\ call_class is_kick
  /\ call_class is_ban /\ call_class is_channel_send /\ call_class is_channels_fetch.
Proof. repeat split; intros [] H; solve [discriminate H | reflexivity]. Qed.

Lemma existsb_no_call p l :
  call_class p -> Forall (fun e => is_enforcement e = false) l -> existsb p l = false.
Proof.
  intros Hp Hl. induction Hl as [|e l He _ IH]; [reflexivity|].
  simpl. rewrite IH, orb_false_r.
  destruct (p e) eqn:E; [|reflexivity].
  apply Hp in E. congruence.
Qed.

Lemma ws_sends_no_call log clients :
  Forall (fun e => is_enforcement e = false) (ws_sends log clients).
Proof.
  eapply Forall_impl; [apply ws_sends_shape|]. intros e [w ->]. reflexivity.
Qed.

Lemma update_events_no_call ref labels :
  Forall (fun e => is_enforcement e = false) (update_events ref labels).
Proof.
  eapply Forall_impl; [apply update_events_shape|]. intros e [v ->]. reflexivity.
Qed.

Lemma delete_events_no_call env :
  Forall (fun e => is_enforcement e = false) (delete_events env).
Proof. part_cases; each ltac:(idtac; reflexivity). Qed.

(** The enforcement calls of a violation run are those of its five action
    blocks. *)
Lemma existsb_violation_trace p req c m a env s :
  call_class p ->
  existsb p (EvChatCompletion req :: violation_trace c m a env s)
  = existsb p (actions_events c m a env).
Proof.
  intros Hp. rewrite violation_trace_split. unfold after_broadcast.
  cbn [existsb]. rewrite !existsb_app.
  rewrite (existsb_no_call p _ Hp (ws_sends_no_call _ _)),
    (existsb_no_call p _ Hp (update_events_no_call _ _)),
    (existsb_no_call p _ Hp (delete_events_no_call _)).
  destruct (p (EvChatCompletion req)) eqn:E1; [apply Hp in E1; discriminate E1|].
  destruct (p (EvCreateLog (created_log m a env))) eqn:E2;
    [apply Hp in E2; discriminate E2|].
  destruct (p (EvBroadcast (created_log m a env))) eqn:E3;
    [apply Hp in E3; discriminate E3|].
  simpl. now rewrite !orb_false_r.
Qed.

(** Each block makes its own call only, and its label tells whether that
    call was made and resolved. *)
Lemma warn_part c m env :
  let t := (warn_outcome c m env).2 in
  existsb is_log_send t = false /\ existsb is_kick t = false
  /\ existsb is_ban t = false /\ existsb is_channel_send t = false
  /\ (if existsb is_author_send t && author_send_ok env then ["warned"] else [])
     = (warn_outcome c m env).1.
Proof. part_cases; repeat split; reflexivity. Qed.

Lemma log_part c m a env :
  let t := (log_outcome c m a env).2 in
  existsb is_author_send t = false /\ existsb is_kick t = false
  /\ existsb is_ban t = false /\ existsb is_channel_send t = false
  /\ (if existsb is_log_send t && logChannel_send_ok env then ["logged"] else [])
     = (log_outcome c m a env).1.
Proof. part_cases; repeat split; reflexivity. Qed.

Lemma kick_part c m a env :
  let t := (kick_outcome c m a env).2 in
  existsb is_author_send t = false /\ existsb is_log_send t = false
  /\ existsb is_ban t = false /\ existsb is_channel_send t = false
  /\ (if existsb is_kick t && kick_ok env then ["kicked"] else [])
     = (kick_outcome c m a env).1.
Proof. part_cases; repeat split; reflexivity. Qed.

Lemma ban_part c m a env :
  let t := (ban_outcome c m a env).2 in
  existsb is_author_send t = false /\ existsb is_log_send t = false
  /\ existsb is_kick t = false /\ existsb is_channel_send t = false
  /\ (if existsb is_ban t && ban_ok env then ["banned"] else [])
     = (ban_outcome c m a env).1.
Proof. part_cases; repeat split; reflexivity. Qed.

Lemma custom_part c m env :
  let t := (custom_outcome c m env).2 in
  existsb is_author_send t = false /\ existsb is_log_send t = false
  /\ existsb is_kick t = false /\ existsb is_ban t = false
  /\ (if existsb is_channel_send t && channel_send_ok env then ["custom"] else [])
     = (custom_outcome c m env).1.
Proof. part_cases; repeat split; reflexivity. Qed.

(** The labels the blocks push are the labels of the calls that went
    through. *)
Lemma succeeded_labels_actions c m a env :
  succeeded_labels env (actions_events c m a env) = actions_labels c m a env.
Proof.
  unfold succeeded_labels, actions_events, actions_labels.
  rewrite !existsb_app.
  destruct (warn_part c m env) as (W1 & W2 & W3 & W4 & <-).
  destruct (log_part c m a env) as (L1 & L2 & L3 & L4 & <-).
  destruct (kick_part c m a env) as (K1 & K2 & K3 & K4 & <-).
  destruct (ban_part c m a env) as (B1 & B2 & B3 & B4 & <-).
  destruct (custom_part c m env) as (C1 & C2 & C3 & C4 & <-).
  cbv zeta in *.
  rewrite W1, W2, W3, W4, L1, L2, L3, L4, K1, K2, K3, K4, B1, B2, B3, B4,
    C1, C2, C3, C4.
  now rewrite !orb_false_r.
Qed.

(** *** C3: the filter *)

(** C3. When the server of an inbound message has no config, or the config
    has monitorAllChannels = false and the channel is not listed in
    monitoredChannels, the handler makes no call at all (in particular no
    classification request) and leaves the state, and with it the audit
    log, as it was. *)
Theorem filtered_message_is_discarded m env s :
  discarded_by_filter m s ->
  existsb is_chat_completion (trace (onMessageCreate m env s)) = false
  /\ existsb is_create_log (trace (onMessageCreate m env s)) = false
  /\ trace (onMessageCreate m env s) = []
  /\ final (onMessageCreate m env s) = s.
Proof.
  intros [Hc | c Hc Hall Hinc].
  - rewrite onMessageCreate_unconfigured by exact Hc. now repeat split.
  - rewrite (onMessageCreate_unmonitored m env s c); [now repeat split|exact Hc|].
    unfold channel_monitored. now rewrite Hall, Hinc.
Qed.

Lemma filtered_message_is_discarded_witness :
  discarded_by_filter Scenario.foreign_message Scenario.st
  /\ discarded_by_filter Scenario.offtopic_message Scenario.st
  /\ trace (onMessageCreate Scenario.foreign_message Scenario.kick_refused Scenario.st)
     = []
  /\ trace (onMessageCreate Scenario.offtopic_message Scenario.kick_refused Scenario.st)
     = [].
Proof.
  assert (H1 : discarded_by_filter Scenario.foreign_message Scenario.st)
    by (apply unconfigured; reflexivity).
  assert (H2 : discarded_by_filter Scenario.offtopic_message Scenario.st)
    by (apply (unmonitored _ _ Scenario.cfg); reflexivity).
  split; [exact H1|]. split; [exact H2|]. split.
  - apply (filtered_message_is_discarded Scenario.foreign_message
             Scenario.kick_refused Scenario.st H1).
  - apply (filtered_message_is_discarded Scenario.offtopic_message
             Scenario.kick_refused Scenario.st H2).
Defined.

(** *** C2: record and notify come first *)

(** C2. For a message judged a violation, the handler's run is
    [pre ++ create log :: broadcast log :: sends ++ post]: [pre] holds no
    log creation, no broadcast and no enforcement call; the created entry
    has actionTaken = "logged"; the broadcast of that same entry follows
    the write at once, with its sends to the open connections; [post]
    holds no further log creation.  So exactly one entry is created and
    published before any enforcement call, and it is the one entry the
    store gains. *)
Theorem violation_recorded_and_published_first m env s c a :
  bot (author m) = false ->
  Storage.getConfig (storage s) (Js.str_or (guildId m) "") = Some c ->
  channel_monitored c m = true ->
  verdict c m env s = Some a ->
  Js.truthy (isViolation a) = true ->
  exists pre log post,
    trace (onMessageCreate m env s)
    = pre ++ EvCreateLog log :: EvBroadcast log
          :: ws_sends log (connectedClients s) ++ post
    /\ Forall (fun e => is_create_log e = false /\ is_broadcast e = false
                        /\ is_enforcement e = false) pre
    /\ Forall (fun e => is_create_log e = false) post
    /\ actionTaken log = "logged"
    /\ exists v,
         Storage.logs (storage (final (onMessageCreate m env s)))
         = Storage.logs (storage s) ++ [set_actionTaken v log].
Proof.
  intros Hb Hc Hm Hv Ht.
  rewrite (onMessageCreate_violation m env s c a Hb Hc Hm Hv Ht).
  exists [EvChatCompletion
            (request (content m)
               (Js.str_or (Some (sensitivity c)) "medium"))],
    (created_log m a env), (after_broadcast c m a env s).
  split; [reflexivity|].
  split; [each ltac:(repeat split)|].
  split; [apply after_broadcast_no_create|].
  split; [reflexivity|].
  eexists. reflexivity.
Qed.

(** The example message of the scenario is judged a violation. *)
Lemma spam_is_violation :
  bot (author Scenario.spam_message) = false
  /\ Storage.getConfig (storage Scenario.st)
       (Js.str_or (guildId Scenario.spam_message) "") = Some Scenario.cfg
  /\ channel_monitored Scenario.cfg Scenario.spam_message = true
  /\ verdict Scenario.cfg Scenario.spam_message Scenario.kick_refused Scenario.st
     = Some Scenario.spam_analysis
  /\ Js.truthy (isViolation Scenario.spam_analysis) = true.
Proof. repeat split; reflexivity. Defined.

Lemma violation_recorded_and_published_first_witness :
  exists pre log post,
    trace (onMessageCreate Scenario.spam_message Scenario.kick_refused Scenario.st)
    = pre ++ EvCreateLog log :: EvBroadcast log
          :: ws_sends log (connectedClients Scenario.st) ++ post
    /\ Forall (fun e => is_create_log e = false /\ is_broadcast e = false
                        /\ is_enforcement e = false) pre
    /\ Forall (fun e => is_create_log e = false) post
    /\ actionTaken log = "logged"
    /\ exists v,
         Storage.logs (storage (final (onMessageCreate Scenario.spam_message
                                         Scenario.kick_refused Scenario.st)))
         = Storage.logs (storage Scenario.st) ++ [set_actionTaken v log].
Proof.
  destruct spam_is_violation as (Hb & Hc & Hm & Hv & Ht).
  exact (violation_recorded_and_published_first Scenario.spam_message
           Scenario.kick_refused Scenario.st Scenario.cfg Scenario.spam_analysis
           Hb Hc Hm Hv Ht).
Defined.

(** *** C5: the final value of actionTaken *)

(** C5. For a message judged a violation: the labels the action blocks
    collect are the labels of the enforcement calls that were made and
    resolved during the run, in the order warn, log-to-channel, kick, ban,
    custom; once all blocks have run (only the deletion of the message
    follows), the entry the store gained has actionTaken equal to those
    labels joined by ", ", or still "logged" when there is none. *)
Theorem actionTaken_finalized m env s c a :
  bot (author m) = false ->
  Storage.getConfig (storage s) (Js.str_or (guildId m) "") = Some c ->
  channel_monitored c m = true ->
  verdict c m env s = Some a ->
  Js.truthy (isViolation a) = true ->
  let r := onMessageCreate m env s in
  let labels := succeeded_labels env (trace r) in
  result (executeActions c m a env s) = inr labels
  /\ (exists log,
        Storage.logs (storage (final r)) = Storage.logs (storage s) ++ [log]
        /\ log_id log = randomUUID env
        /\ actionTaken log = match labels with
                             | [] => "logged"
                             | _ => Js.join ", " labels
                             end)
  /\ (exists pre post,
        trace r = pre ++ update_events (length (Storage.logs (storage s))) labels
                      ++ post
        /\ Forall (fun e => is_enforcement e = false) post).
Proof.
  intros Hb Hc Hm Hv Ht r labels. subst r labels.
  rewrite (onMessageCreate_violation m env s c a Hb Hc Hm Hv Ht).
  unfold trace, final, result. cbn [fst snd].
  assert (E : succeeded_labels env
                (EvChatCompletion
                   (request (content m)
                      (Js.str_or (Some (sensitivity c)) "medium"))
                 :: violation_trace c m a env s)
              = actions_labels c m a env).
  { rewrite <- succeeded_labels_actions. unfold succeeded_labels.
    destruct call_classes as (P1 & P2 & P3 & P4 & P5 & _).
    now rewrite !existsb_violation_trace by assumption. }
  rewrite E. split; [|split].
  - now rewrite executeActions_run.
  - eexists. split; [reflexivity|]. split; [reflexivity|].
    unfold final_actionTaken. now destruct (actions_labels c m a env).
  - exists (EvChatCompletion
              (request (content m)
                 (Js.str_or (Some (sensitivity c)) "medium"))
            :: EvCreateLog (created_log m a env)
            :: EvBroadcast (created_log m a env)
            :: ws_sends (created_log m a env) (connectedClients s)
            ++ actions_events c m a env), (delete_events env).
    split; [|apply delete_events_no_call].
    rewrite violation_trace_split. unfold after_broadcast.
    cbn [app]. now rewrite <- !app_assoc.
Qed.

Lemma actionTaken_finalized_witness :
  let r := onMessageCreate Scenario.spam_message Scenario.kick_refused Scenario.st in
  let labels := succeeded_labels Scenario.kick_refused (trace r) in
  result (executeActions Scenario.cfg Scenario.spam_message Scenario.spam_analysis
            Scenario.kick_refused Scenario.st) = inr labels
  /\ (exists log,
        Storage.logs (storage (final r))
        = Storage.logs (storage Scenario.st) ++ [log]
        /\ log_id log = randomUUID Scenario.kick_refused
        /\ actionTaken log = match labels with
                             | [] => "logged"
                             | _ => Js.join ", " labels
                             end)
  /\ (exists pre post,
        trace r = pre ++ update_events
                           (length (Storage.logs (storage Scenario.st))) labels
                      ++ post
        /\ Forall (fun e => is_enforcement e = false) post).
Proof.
  destruct spam_is_violation as (Hb & Hc & Hm & Hv & Ht).
  exact (actionTaken_finalized Scenario.spam_message Scenario.kick_refused
           Scenario.st Scenario.cfg Scenario.spam_analysis Hb Hc Hm Hv Ht).
Defined.

(** What the scenario run leaves in the store. *)
Example scenario_actionTaken :
  actionTaken <$> last (Storage.logs (storage (final
      (onMessageCreate Scenario.spam_message Scenario.kick_refused Scenario.st))))
  = Some "warned, logged, banned, custom".
Proof. vm_compute. reflexivity. Qed.

(** *** C6: order and independence of the actions *)

Lemma all_eq_sorted (r : nat) l : Forall (eq r) l -> StronglySorted le l.
Proof.
  induction 1 as [|x l <- Hl IH]; constructor; [exact IH|].
  eapply Forall_impl; [exact Hl|]. intros y <-. constructor.
Qed.

Lemma ranked (r : nat) l x : Forall (eq r) l -> x ∈ l -> x = r.
Proof. rewrite Forall_forall. intros H Hx. symmetry. now apply H. Qed.

Lemma part_ranks c m a env :
  Forall (eq 0%nat) (omap action_rank (warn_outcome c m env).2)
  /\ Forall (eq 1%nat) (omap action_rank (log_outcome c m a env).2)
  /\ Forall (eq 2%nat) (omap action_rank (kick_outcome c m a env).2)
  /\ Forall (eq 3%nat) (omap action_rank (ban_outcome c m a env).2)
  /\ Forall (eq 4%nat) (omap action_rank (custom_outcome c m env).2).
Proof. repeat split; part_cases; simpl; each ltac:(idtac; reflexivity). Qed.

Lemma actions_events_ordered c m a env :
  StronglySorted le (omap action_rank (actions_events c m a env)).
Proof.
  destruct (part_ranks c m a env) as (R0 & R1 & R2 & R3 & R4).
  unfold actions_events. rewrite !omap_app.
  repeat apply StronglySorted_app_2;
    try (eapply all_eq_sorted; eassumption);
    intros x1 x2 H1 H2; rewrite ?elem_of_app in H2;
    repeat match goal with
           | H : _ \/ _ |- _ => destruct H
           | H : ?x ∈ omap action_rank _ |- _ =>
               first [ apply (ranked 0%nat) in H; [|assumption]
                     | apply (ranked 1%nat) in H; [|assumption]
                     | apply (ranked 2%nat) in H; [|assumption]
                     | apply (ranked 3%nat) in H; [|assumption]
                     | apply (ranked 4%nat) in H; [|assumption] ]
           end;
    subst; lia.
Qed.

(** The labels each block can push. *)
Lemma part_labels c m a env x :
  (x ∈ (warn_outcome c m env).1 -> x = "warned")
  /\ (x ∈ (log_outcome c m a env).1 -> x = "logged")
  /\ (x ∈ (kick_outcome c m a env).1 -> x = "kicked" /\ kick_ok env = true)
  /\ (x ∈ (ban_outcome c m a env).1 -> x = "banned")
  /\ (x ∈ (custom_outcome c m env).1 -> x = "custom").
Proof.
  repeat apply conj; part_cases; intros H;
    solve [ apply list_elem_of_singleton in H; auto
          | apply elem_of_nil in H; destruct H ].
Qed.

(** Only the kick block looks at the answer to the kick call. *)
Lemma outcomes_set_kick_ok b c m a env :
  warn_outcome c m (set_kick_ok b env) = warn_outcome c m env
  /\ log_outcome c m a (set_kick_ok b env) = log_outcome c m a env
  /\ ban_outcome c m a (set_kick_ok b env) = ban_outcome c m a env
  /\ custom_outcome c m (set_kick_ok b env) = custom_outcome c m env.
Proof. repeat split; reflexivity. Qed.

Lemma kick_part_filtered c m a env :
  filter (fun l => l <> "kicked") (kick_outcome c m a env).1 = []
  /\ filter (fun e => kick_related e = false) (kick_outcome c m a env).2 = [].
Proof. split; part_cases; reflexivity. Qed.

(** How often each block makes each call: its own call once when its
    condition holds, whatever the platform answers, and no other call. *)
Lemma warn_calls c m env :
  let t := (warn_outcome c m env).2 in
  calls is_author_send t = Nat.b2n (enableWarn c && Js.opt_truthy (warnMessage c))
  /\ calls is_channels_fetch t = 0%nat /\ calls is_log_send t = 0%nat
  /\ calls is_kick t = 0%nat /\ calls is_ban t = 0%nat
  /\ calls is_channel_send t = 0%nat.
Proof.
  unfold calls, warn_outcome, attempt, skipped.
  destruct (warnMessage c) as [text|]; cbn [Js.opt_truthy];
    [|rewrite andb_false_r; repeat split; reflexivity].
  destruct (enableWarn c && Js.str_truthy text);
    [destruct (author_send_ok env)|]; repeat split; reflexivity.
Qed.

Lemma log_calls c m a env :
  let t := (log_outcome c m a env).2 in
  calls is_channels_fetch t
  = Nat.b2n (enableLog c && Js.opt_truthy (logChannelId c) && in_guild m)
  /\ calls is_log_send t
     = Nat.b2n (enableLog c && Js.opt_truthy (logChannelId c) && in_guild m
                && fetch_resolves env)
  /\ calls is_author_send t = 0%nat /\ calls is_kick t = 0%nat
  /\ calls is_ban t = 0%nat /\ calls is_channel_send t = 0%nat.
Proof.
  unfold calls, log_outcome, attempt, skipped, in_guild, fetch_resolves.
  destruct (logChannelId c) as [cid|]; cbn [Js.opt_truthy];
    [|rewrite andb_false_r; repeat split; reflexivity].
  destruct (enableLog c && Js.str_truthy cid); [|repeat split; reflexivity].
  destruct (guild m); [|repeat split; reflexivity].
  destruct (channels_fetch env) as [|[ch|]];
    [|destruct (logChannel_send_ok env)|]; repeat split; reflexivity.
Qed.

Lemma kick_calls c m a env :
  let t := (kick_outcome c m a env).2 in
  calls is_kick t = Nat.b2n (enableKick c && member_cached m)
  /\ calls is_author_send t = 0%nat /\ calls is_channels_fetch t = 0%nat
  /\ calls is_log_send t = 0%nat /\ calls is_ban t = 0%nat
  /\ calls is_channel_send t = 0%nat.
Proof.
  unfold calls, kick_outcome, attempt, skipped, member_cached.
  destruct (enableKick c); [|repeat split; reflexivity].
  destruct (cached_member m); [destruct (kick_ok env)|]; repeat split; reflexivity.
Qed.

Lemma ban_calls c m a env :
  let t := (ban_outcome c m a env).2 in
  calls is_ban t = Nat.b2n (enableBan c && member_cached m)
  /\ calls is_author_send t = 0%nat /\ calls is_channels_fetch t = 0%nat
  /\ calls is_log_send t = 0%nat /\ calls is_kick t = 0%nat
  /\ calls is_channel_send t = 0%nat.
Proof.
  unfold calls, ban_outcome, attempt, skipped, member_cached.
  destruct (enableBan c); [|repeat split; reflexivity].
  destruct (cached_member m); [destruct (ban_ok env)|]; repeat split; reflexivity.
Qed.

Lemma custom_calls c m env :
  let t := (custom_outcome c m env).2 in
  calls is_channel_send t = Nat.b2n (Js.opt_truthy (customCommand c))
  /\ calls is_author_send t = 0%nat /\ calls is_channels_fetch t = 0%nat
  /\ calls is_log_send t = 0%nat /\ calls is_kick t = 0%nat
  /\ calls is_ban t = 0%nat.
Proof.
  unfold calls, custom_outcome, attempt, skipped.
  destruct (customCommand c) as [cmd|]; cbn [Js.opt_truthy];
    [|repeat split; reflexivity].
  destruct (Js.str_truthy cmd); [destruct (channel_send_ok env)|];
    repeat split; reflexivity.
Qed.

Lemma calls_app p t1 t2 : calls p (t1 ++ t2) = (calls p t1 + calls p t2)%nat.
Proof. unfold calls. now rewrite List.filter_app, length_app. Qed.

(** The calls of the five blocks, counted. *)
Lemma actions_events_calls c m a env :
  let t := actions_events c m a env in
  calls is_author_send t = Nat.b2n (enableWarn c && Js.opt_truthy (warnMessage c))
  /\ calls is_channels_fetch t
     = Nat.b2n (enableLog c && Js.opt_truthy (logChannelId c) && in_guild m)
  /\ calls is_log_send t
     = Nat.b2n (enableLog c && Js.opt_truthy (logChannelId c) && in_guild m
                && fetch_resolves env)
  /\ calls is_kick t = Nat.b2n (enableKick c && member_cached m)
  /\ calls is_ban t = Nat.b2n (enableBan c && member_cached m)
  /\ calls is_channel_send t = Nat.b2n (Js.opt_truthy (customCommand c)).
Proof.
  destruct (warn_calls c m env) as (W1 & W2 & W3 & W4 & W5 & W6).
  destruct (log_calls c m a env) as (L1 & L2 & L3 & L4 & L5 & L6).
  destruct (kick_calls c m a env) as (K1 & K2 & K3 & K4 & K5 & K6).
  destruct (ban_calls c m a env) as (B1 & B2 & B3 & B4 & B5 & B6).
  destruct (custom_calls c m env) as (C1 & C2 & C3 & C4 & C5 & C6).
  cbv zeta in *. unfold actions_events. rewrite !calls_app.
  repeat split; lia.
Qed.

(** The platform calls of a block, with their arguments, do not depend on
    how the platform answers them; only the fetch of the log channel
    decides whether the post to it follows. *)
Lemma actions_events_calls_fixed c m a env env' :
  channels_fetch env' = channels_fetch env ->
  List.filter is_enforcement (actions_events c m a env')
  = List.filter is_enforcement (actions_events c m a env).
Proof.
  intros Hf. unfold actions_events. rewrite !List.filter_app.
  f_equal; [|f_equal; [|f_equal; [|f_equal]]].
  - unfold warn_outcome, attempt, skipped.
    destruct (warnMessage c) as [text|]; [|reflexivity].
    destruct (enableWarn c && Js.str_truthy text); [|reflexivity].
    now destruct (author_send_ok env), (author_send_ok env').
  - unfold log_outcome, attempt, skipped. rewrite Hf.
    destruct (logChannelId c) as [cid|]; [|reflexivity].
    destruct (enableLog c && Js.str_truthy cid); [|reflexivity].
    destruct (guild m); [|reflexivity].
    destruct (channels_fetch env) as [|[ch|]]; [reflexivity| |reflexivity].
    now destruct (logChannel_send_ok env), (logChannel_send_ok env').
  - unfold kick_outcome, attempt, skipped.
    destruct (enableKick c); [|reflexivity].
    destruct (cached_member m); [|reflexivity].
    now destruct (kick_ok env), (kick_ok env').
  - unfold ban_outcome, attempt, skipped.
    destruct (enableBan c); [|reflexivity].
    destruct (cached_member m); [|reflexivity].
    now destruct (ban_ok env), (ban_ok env').
  - unfold custom_outcome, attempt, skipped.
    destruct (customCommand c) as [cmd|]; [|reflexivity].
    destruct (Js.str_truthy cmd); [|reflexivity].
    now destruct (channel_send_ok env), (channel_send_ok env').
Qed.

Lemma existsb_enforcement p t :
  call_class p -> existsb p t = existsb p (List.filter is_enforcement t).
Proof.
  intros Hp. induction t as [|e t IH]; [reflexivity|].
  cbn [existsb List.filter]. destruct (is_enforcement e) eqn:E.
  - cbn [existsb]. now rewrite IH.
  - destruct (p e) eqn:Ep; [apply Hp in Ep; congruence|exact IH].
Qed.

(** A label is returned exactly when its call was made and resolved. *)
Lemma succeeded_labels_elem env t :
  ("warned" ∈ succeeded_labels env t
   <-> existsb is_author_send t && author_send_ok env = true)
  /\ ("logged" ∈ succeeded_labels env t
      <-> existsb is_log_send t && logChannel_send_ok env = true)
  /\ ("kicked" ∈ succeeded_labels env t
      <-> existsb is_kick t && kick_ok env = true)
  /\ ("banned" ∈ succeeded_labels env t
      <-> existsb is_ban t && ban_ok env = true)
  /\ ("custom" ∈ succeeded_labels env t
      <-> existsb is_channel_send t && channel_send_ok env = true).
Proof.
  unfold succeeded_labels.
  destruct (existsb is_author_send t && author_send_ok env),
    (existsb is_log_send t && logChannel_send_ok env),
    (existsb is_kick t && kick_ok env),
    (existsb is_ban t && ban_ok env),
    (existsb is_channel_send t && channel_send_ok env);
    cbn [app]; repeat split; intros H; try reflexivity; try discriminate H;
    repeat first [ apply elem_of_cons in H as [H|H]; [try discriminate H|]
                 | apply elem_of_nil in H; destruct H ];
    rewrite ?elem_of_cons; auto 8.
Qed.

(** C6. The five action blocks (lines 80-153 of the handler) always run to
    the end.  Their enforcement calls occur in the order warn,
    log-to-channel, kick, ban, custom command, and the labels they return
    are those of the calls that were made and resolved, in that order.
    Every configured action is attempted, once, whatever the platform
    answers to any call: the warn DM when warn is enabled with a message,
    the fetch of the log channel when log is enabled with a channel id (in
    a guild) and the post to it when the fetch resolves, the kick and the
    ban when enabled and the author is in the member cache, the custom
    command when one is set; and an action that is not configured makes no
    call.  When the kick call is made and fails, no "kicked" label is
    returned, an enabled warn with a message is still sent and yields
    "warned" if the DM goes through, and an enabled log with a channel id
    still fetches the channel and, when it resolves, posts to it and yields
    "logged" if the post goes through.  More generally the answer to the
    kick call changes nothing but the kick's own label and console line,
    and under any other answers of the platform the same calls are made
    with the same arguments, each label depending on the answer to its own
    call only. *)
Theorem executeActions_ordered_and_independent c m a env s :
  exists labels t,
    executeActions c m a env s = (inr labels, s, t)
    /\ StronglySorted le (omap action_rank t)
    /\ labels = succeeded_labels env t
    /\ (forall mem,
          enableKick c = true -> cached_member m = Some mem -> kick_ok env = false ->
          existsb is_kick t = true
          /\ ("kicked" ∉ labels)
          /\ (enableWarn c = true -> Js.opt_truthy (warnMessage c) = true ->
              existsb is_author_send t = true
              /\ (author_send_ok env = true -> ("warned" ∈ labels)))
          /\ (enableLog c = true -> Js.opt_truthy (logChannelId c) = true ->
              existsb is_channels_fetch t = true
              /\ (forall ch, channels_fetch env = FetchResolves (Some ch) ->
                    existsb is_log_send t = true
                    /\ (logChannel_send_ok env = true -> ("logged" ∈ labels)))))
    /\ (forall b, exists labels' t',
          executeActions c m a (set_kick_ok b env) s = (inr labels', s, t')
          /\ filter (fun l => l <> "kicked") labels'
             = filter (fun l => l <> "kicked") labels
          /\ filter (fun e => kick_related e = false) t'
             = filter (fun e => kick_related e = false) t)
    /\ (calls is_author_send t
        = Nat.b2n (enableWarn c && Js.opt_truthy (warnMessage c))
        /\ calls is_channels_fetch t
           = Nat.b2n (enableLog c && Js.opt_truthy (logChannelId c) && in_guild m)
        /\ calls is_log_send t
           = Nat.b2n (enableLog c && Js.opt_truthy (logChannelId c) && in_guild m
                      && fetch_resolves env)
        /\ calls is_kick t = Nat.b2n (enableKick c && member_cached m)
        /\ calls is_ban t = Nat.b2n (enableBan c && member_cached m)
        /\ calls is_channel_send t = Nat.b2n (Js.opt_truthy (customCommand c)))
    /\ (forall env', channels_fetch env' = channels_fetch env ->
          exists labels' t',
            executeActions c m a env' s = (inr labels', s, t')
            /\ List.filter is_enforcement t' = List.filter is_enforcement t
            /\ (author_send_ok env' = author_send_ok env ->
                (("warned" ∈ labels') <-> ("warned" ∈ labels)))
            /\ (logChannel_send_ok env' = logChannel_send_ok env ->
                (("logged" ∈ labels') <-> ("logged" ∈ labels)))
            /\ (kick_ok env' = kick_ok env ->
                (("kicked" ∈ labels') <-> ("kicked" ∈ labels)))
            /\ (ban_ok env' = ban_ok env ->
                (("banned" ∈ labels') <-> ("banned" ∈ labels)))
            /\ (channel_send_ok env' = channel_send_ok env ->
                (("custom" ∈ labels') <-> ("custom" ∈ labels)))).
Proof.
  exists (actions_labels c m a env), (actions_events c m a env).
  split; [apply executeActions_run|].
  split; [apply actions_events_ordered|].
  split; [symmetry; apply succeeded_labels_actions|].
  split; [|split; [|split; [apply actions_events_calls|]]].
  - intros mem Hk Hmem Hfail.
    assert (Hg : exists g, guild m = Some g).
    { unfold cached_member in Hmem. destruct (guild m); [eauto|discriminate]. }
    destruct Hg as [g Hg].
    unfold actions_events, actions_labels. rewrite !existsb_app.
    split; [|split; [|split]].
    + unfold kick_outcome, attempt. rewrite Hk, Hmem, Hfail. cbn.
      now rewrite !orb_true_r.
    + rewrite !elem_of_app. intros H.
      destruct (part_labels c m a env "kicked") as (P1 & P2 & P3 & P4 & P5).
      destruct H as [H|[H|[H|[H|H]]]];
        [ apply P1 in H | apply P2 in H | apply P3 in H as [_ H]
        | apply P4 in H | apply P5 in H ]; congruence.
    + intros Hw Hmsg. unfold warn_outcome, attempt.
      destruct (warnMessage c) as [text|]; [|discriminate].
      simpl in Hmsg. rewrite Hw, Hmsg. cbn [andb].
      destruct (author_send_ok env); cbn.
      * split; [reflexivity|]. intros _. apply elem_of_cons. now left.
      * split; [reflexivity|]. discriminate.
    + intros Hl Hchan. unfold log_outcome, attempt.
      destruct (logChannelId c) as [cid|]; [|discriminate].
      simpl in Hchan. rewrite Hl, Hchan, Hg. cbn [andb].
      destruct (channels_fetch env) as [|[ch'|]]; cbn.
      * split; [now rewrite orb_true_r|]. discriminate.
      * destruct (logChannel_send_ok env); cbn.
        -- split; [now rewrite orb_true_r|]. intros ch _.
           split; [now rewrite orb_true_r|]. intros _.
           apply elem_of_app. right. apply elem_of_cons. now left.
        -- split; [now rewrite orb_true_r|]. intros ch _.
           split; [now rewrite orb_true_r|]. discriminate.
      * split; [now rewrite orb_true_r|]. discriminate.
  - intros b.
    exists (actions_labels c m a (set_kick_ok b env)),
      (actions_events c m a (set_kick_ok b env)).
    split; [apply executeActions_run|].
    destruct (outcomes_set_kick_ok b c m a env) as (Ew & El & Eb & Ec).
    destruct (kick_part_filtered c m a env) as (K1 & K2).
    destruct (kick_part_filtered c m a (set_kick_ok b env)) as (K1' & K2').
    unfold actions_labels, actions_events.
    rewrite Ew, El, Eb, Ec, !filter_app, K1, K2, K1', K2'. split; reflexivity.
  - intros env' Hf.
    exists (actions_labels c m a env'), (actions_events c m a env').
    split; [apply executeActions_run|].
    pose proof (actions_events_calls_fixed c m a env env' Hf) as Hsame.
    split; [exact Hsame|].
    rewrite <- !succeeded_labels_actions.
    destruct (succeeded_labels_elem env (actions_events c m a env))
      as (S1 & S2 & S3 & S4 & S5).
    destruct (succeeded_labels_elem env' (actions_events c m a env'))
      as (S1' & S2' & S3' & S4' & S5').
    destruct call_classes as (C1 & C2 & C3 & C4 & C5 & _).
    rewrite S1, S2, S3, S4, S5, S1', S2', S3', S4', S5'.
    rewrite (existsb_enforcement _ (actions_events c m a env') C1),
      (existsb_enforcement _ (actions_events c m a env') C2),
      (existsb_enforcement _ (actions_events c m a env') C3),
      (existsb_enforcement _ (actions_events c m a env') C4),
      (existsb_enforcement _ (actions_events c m a env') C5),
      (existsb_enforcement _ (actions_events c m a env) C1),
      (existsb_enforcement _ (actions_events c m a env) C2),
      (existsb_enforcement _ (actions_events c m a env) C3),
      (existsb_enforcement _ (actions_events c m a env) C4),
      (existsb_enforcement _ (actions_events c m a env) C5), Hsame.
    repeat (split; [intros E; rewrite E; reflexivity|]).
    intros E; rewrite E; reflexivity.
Qed.

(** The scenario: the kick is refused, the four other actions go through. *)
Example scenario_executeActions :
  executeActions Scenario.cfg Scenario.spam_message Scenario.spam_analysis
    Scenario.kick_refused Scenario.st
  = (inr ["warned"; "logged"; "banned"; "custom"], Scenario.st,
     [EvAuthorSend "user002" "Please be respectful";
      EvChannelsFetch "mod-log-channel";
      EvLogChannelSend "mod-log-channel"
        (log_embed Scenario.spam_message Scenario.spam_analysis);
      EvKick "user002" ("Automated moderation: ", Js.JStr "spam");
      EvConsoleError "Failed to kick user:";
      EvBan "user002" {| reason := ("Automated moderation: ", Js.JStr "spam");
                         deleteMessageSeconds := 86400 |};
      EvChannelSend "channel001" "!note <@user002> in <#channel001>"]).
Proof. vm_compute. reflexivity. Qed.

(** *** C10: authors missing from the member cache *)

(** The shapes a run of the handler can have. *)
Lemma onMessageCreate_trace m env s :
  trace (onMessageCreate m env s) = []
  \/ exists c a req,
       Storage.getConfig (storage s) (Js.str_or (guildId m) "") = Some c
       /\ (trace (onMessageCreate m env s) = [EvChatCompletion req]
           \/ trace (onMessageCreate m env s)
              = [EvChatCompletion req; EvConsoleError "Error analyzing message:"]
           \/ trace (onMessageCreate m env s)
              = EvChatCompletion req :: violation_trace c m a env s).
Proof.
  destruct (bot (author m)) eqn:Hb.
  { left. now rewrite onMessageCreate_bot. }
  destruct (Storage.getConfig (storage s) (Js.str_or (guildId m) "")) as [c|] eqn:Hc.
  2:{ left. now rewrite onMessageCreate_unconfigured. }
  destruct (channel_monitored c m) eqn:Hm.
  2:{ left. now rewrite (onMessageCreate_unmonitored m env s c). }
  right. destruct (onMessageCreate_classified m env s c Hb Hc Hm)
    as (a & errs & _ & Herrs & E).
  exists c, a, (request (content m)
                  (Js.str_or (Some (sensitivity c)) "medium")).
  split; [reflexivity|]. rewrite E.
  destruct Herrs as [-> | [-> ->]]; [destruct (Js.truthy (isViolation a))|];
    unfold trace; cbn [snd app]; auto.
Qed.

Lemma actions_events_uncached c m a env :
  cached_member m = None -> Forall no_removal (actions_events c m a env).
Proof.
  intros Hmem. unfold actions_events. rewrite !Forall_app. repeat apply conj.
  - part_cases; each ltac:(idtac; repeat split).
  - part_cases; each ltac:(idtac; repeat split).
  - unfold kick_outcome. rewrite Hmem. part_cases; constructor.
  - unfold ban_outcome. rewrite Hmem. part_cases; constructor.
  - part_cases; each ltac:(idtac; repeat split).
Qed.

Lemma violation_trace_uncached c m a env s :
  cached_member m = None -> Forall no_removal (violation_trace c m a env s).
Proof.
  intros Hmem. rewrite violation_trace_split. unfold after_broadcast.
  do 2 (constructor; [repeat split|]).
  rewrite !Forall_app. repeat apply conj.
  - eapply Forall_impl; [apply ws_sends_shape|]. intros e [w ->]. repeat split.
  - now apply actions_events_uncached.
  - eapply Forall_impl; [apply update_events_shape|]. intros e [v ->]. repeat split.
  - part_cases; each ltac:(idtac; repeat split).
Qed.

(** C10. When the author of a message is not in the member cache of its
    guild (or the message has no guild), then whatever the config enables:
    the action blocks make no kick call and no ban call, print neither
    "Failed to kick user:" nor "Failed to ban user:", and return neither
    "kicked" nor "banned"; and the whole run of the handler on that message
    holds none of these calls and console lines either. *)
Theorem uncached_author_not_kicked_nor_banned c m a env s :
  cached_member m = None ->
  (exists labels t,
      executeActions c m a env s = (inr labels, s, t)
      /\ Forall no_removal t
      /\ ("kicked" ∉ labels) /\ ("banned" ∉ labels))
  /\ Forall no_removal (trace (onMessageCreate m env s)).
Proof.
  intros Hmem. split.
  - exists (actions_labels c m a env), (actions_events c m a env).
    split; [apply executeActions_run|].
    split; [now apply actions_events_uncached|].
    assert (Hk : (kick_outcome c m a env).1 = [])
      by (unfold kick_outcome; rewrite Hmem; now destruct (enableKick c)).
    assert (Hb : (ban_outcome c m a env).1 = [])
      by (unfold ban_outcome; rewrite Hmem; now destruct (enableBan c)).
    unfold actions_labels. rewrite Hk, Hb.
    split; rewrite !elem_of_app; intros H.
    + destruct (part_labels c m a env "kicked") as (P1 & P2 & _ & _ & P5).
      destruct H as [H|[H|[H|[H|H]]]];
        [ apply P1 in H | apply P2 in H | apply elem_of_nil in H as []
        | apply elem_of_nil in H as [] | apply P5 in H ]; congruence.
    + destruct (part_labels c m a env "banned") as (P1 & P2 & _ & _ & P5).
      destruct H as [H|[H|[H|[H|H]]]];
        [ apply P1 in H | apply P2 in H | apply elem_of_nil in H as []
        | apply elem_of_nil in H as [] | apply P5 in H ]; congruence.
  - destruct (onMessageCreate_trace m env s)
      as [-> | (c' & a' & req & _ & [-> | [-> | ->]])].
    + constructor.
    + each ltac:(idtac; repeat split).
    + each ltac:(idtac; repeat split).
    + constructor; [repeat split|]. now apply violation_trace_uncached.
Qed.

Lemma uncached_author_not_kicked_nor_banned_witness :
  cached_member Scenario.uncached_message = None
  /\ ((exists labels t,
          executeActions Scenario.cfg Scenario.uncached_message
            Scenario.spam_analysis Scenario.kick_refused Scenario.st
          = (inr labels, Scenario.st, t)
          /\ Forall no_removal t
          /\ ("kicked" ∉ labels) /\ ("banned" ∉ labels))
      /\ Forall no_removal
           (trace (onMessageCreate Scenario.uncached_message Scenario.kick_refused
                     Scenario.st))).
Proof.
  assert (H : cached_member Scenario.uncached_message = None) by reflexivity.
  split; [exact H|].
  exact (uncached_author_not_kicked_nor_banned Scenario.cfg
           Scenario.uncached_message Scenario.spam_analysis Scenario.kick_refused
           Scenario.st H).
Defined.

(** With kick and ban enabled and everything else working, the uncached
    author is warned and reported, and the entry says no more than that. *)
Example scenario_uncached :
  actionTaken <$> last (Storage.logs (storage (final
      (onMessageCreate Scenario.uncached_message Scenario.kick_refused
         Scenario.st))))
  = Some "warned, logged, custom".
Proof. vm_compute. reflexivity. Qed.

(** *** C7: which authors are skipped *)

(** It is not only the bot's own messages that are skipped: a message
    written by another bot account, on a configured server and in a
    monitored channel, is never classified. *)
Lemma other_bots_are_skipped_too : ~ only_own_messages_excluded.
Proof.
  intros H.
  specialize (H Scenario.other_bot_message Scenario.kick_refused Scenario.st
                Scenario.cfg).
  assert (Hrun : existsb is_chat_completion
                   (trace (onMessageCreate Scenario.other_bot_message
                             Scenario.kick_refused Scenario.st)) = false)
    by reflexivity.
  rewrite H in Hrun; [discriminate Hrun| |reflexivity|reflexivity].
  intros Heq. discriminate Heq.
Qed.

(** C7, amended. Every message whose author is flagged as a bot, the
    system's own account or any other, is skipped without any call.  Every
    message of a non-bot author that passes the config filter is classified
    by one request; if the verdict is no violation nothing else happens
    and the state is unchanged; if it is a violation the run continues with
    create log, broadcast, the five action blocks, the update of
    actionTaken and the deletion of the message, in this order. *)
Theorem bot_authors_skipped_others_processed m env s :
  (bot (author m) = true -> onMessageCreate m env s = (inr tt, s, []))
  /\ (forall c,
        bot (author m) = false ->
        Storage.getConfig (storage s) (Js.str_or (guildId m) "") = Some c ->
        channel_monitored c m = true ->
        exists a req,
          verdict c m env s = Some a
          /\ p_message req = content m
          /\ (Js.truthy (isViolation a) = true ->
              onMessageCreate m env s
              = (inr tt, violation_state c m a env s,
                 EvChatCompletion req
                 :: EvCreateLog (created_log m a env)
                 :: EvBroadcast (created_log m a env)
                 :: ws_sends (created_log m a env) (connectedClients s)
                 ++ trace (executeActions c m a env s)
                 ++ update_events (length (Storage.logs (storage s)))
                      (succeeded_labels env (trace (executeActions c m a env s)))
                 ++ trace (deleteMessage env s)))
          /\ (Js.truthy (isViolation a) = false ->
              result (onMessageCreate m env s) = inr tt
              /\ final (onMessageCreate m env s) = s
              /\ (trace (onMessageCreate m env s) = [EvChatCompletion req]
                  \/ trace (onMessageCreate m env s)
                     = [EvChatCompletion req;
                        EvConsoleError "Error analyzing message:"]))).
Proof.
  split; [apply onMessageCreate_bot|].
  intros c Hb Hc Hm.
  destruct (onMessageCreate_classified m env s c Hb Hc Hm)
    as (a & errs & Hv & Herrs & E).
  exists a, (request (content m)
               (Js.str_or (Some (sensitivity c)) "medium")).
  split; [exact Hv|]. split; [reflexivity|]. split.
  - intros Ht. rewrite (onMessageCreate_violation m env s c a Hb Hc Hm Hv Ht).
    rewrite executeActions_run, deleteMessage_run. unfold trace. cbn [snd].
    now rewrite succeeded_labels_actions.
  - intros Ht. rewrite E, Ht. unfold result, final, trace. cbn [fst snd].
    destruct Herrs as [-> | [-> _]]; auto.
Qed.

(** *** C8 and C1: config fields the handler never reads *)

(** C8. Replacing the primaryAction of a stored config by any other value
    changes nothing in what the handler does with any message: same
    result, same sequence of calls (classification request, log creation,
    broadcast and socket sends, enforcement calls, update, deletion), same
    audit log and same connections afterwards. *)
Theorem primaryAction_never_read m env s sid c p :
  let r1 := onMessageCreate m env (with_config sid c s) in
  let r2 := onMessageCreate m env (with_config sid (set_primaryAction p c) s) in
  result r1 = result r2
  /\ trace r1 = trace r2
  /\ Storage.logs (storage (final r1)) = Storage.logs (storage (final r2))
  /\ connectedClients (final r1) = connectedClients (final r2).
Proof.
  apply onMessageCreate_config_view; [reflexivity|reflexivity|].
  unfold Storage.getConfig, with_config. cbn [storage set_storage Storage.configs].
  destruct (decide (sid = Js.str_or (guildId m) "")) as [<-|Hne].
  - rewrite !lookup_insert_eq. now constructor.
  - rewrite !lookup_insert_ne by exact Hne.
    destruct (Storage.configs (storage s) !! Js.str_or (guildId m) "");
      now constructor.
Qed.

(** The same holds of banDuration: no block of the handler looks at it. *)
Lemma banDuration_never_read m env s sid c d :
  let r1 := onMessageCreate m env (with_config sid c s) in
  let r2 := onMessageCreate m env (with_config sid (set_banDuration d c) s) in
  result r1 = result r2
  /\ trace r1 = trace r2
  /\ Storage.logs (storage (final r1)) = Storage.logs (storage (final r2))
  /\ connectedClients (final r1) = connectedClients (final r2).
Proof.
  apply onMessageCreate_config_view; [reflexivity|reflexivity|].
  unfold Storage.getConfig, with_config. cbn [storage set_storage Storage.configs].
  destruct (decide (sid = Js.str_or (guildId m) "")) as [<-|Hne].
  - rewrite !lookup_insert_eq. now constructor.
  - rewrite !lookup_insert_ne by exact Hne.
    destruct (Storage.configs (storage s) !! Js.str_or (guildId m) "");
      now constructor.
Qed.

(** C1, at a config with enableBan and banDuration = 24 hours, for a
    violating message of a cached member: the one ban call carries the
    reason and deleteMessageSeconds = 86400 (24 hours of history) and
    nothing else, and the whole run is the same as with banDuration absent.
    The ban is not limited to the configured duration. *)
Theorem ban_with_duration_is_permanent :
  let run d :=
    onMessageCreate Scenario.spam_message Scenario.kick_refused
      (with_config "123456789" (set_banDuration d Scenario.cfg) Scenario.st) in
  enableBan Scenario.cfg = true
  /\ banDuration Scenario.cfg = Some 24
  /\ List.filter is_ban (trace (run (Some 24)))
     = [EvBan "user002"
          {| reason := ("Automated moderation: ", Js.JStr "spam");
             deleteMessageSeconds := 86400 |}]
  /\ trace (run (Some 24)) = trace (run None)
  /\ actionTaken <$> last (Storage.logs (storage (final (run (Some 24)))))
     = Some "warned, logged, banned, custom".
Proof. vm_compute. repeat split; reflexivity. Qed.

End PipelineProps.


(** ** The store: configs *)

Module StoreOpsProps.
Import Schema Storage StoreOps.

Lemma str_or_truthy o d :
  Js.str_truthy d = true -> Js.str_truthy (Js.str_or o d) = true.
Proof.
  intros Hd. unfold Js.str_or. destruct o as [s|]; [|exact Hd].
  destruct (Js.str_truthy s) eqn:E; [exact E|exact Hd].
Qed.

Lemma columns_with_id c i : columns (with_id c i) = c.
Proof. now destruct c. Qed.

(** X1. After [createOrUpdateConfig(c)], [getConfig(c.serverId)] returns the
    config the call returned, whose columns are those of [c]; the config of
    every other server is as before, and so is the log array. *)
Theorem createOrUpdateConfig_then_getConfig s ins uuid :
  let r := createOrUpdateConfig s ins uuid in
  getConfig r.2 (n_serverId ins) = Some r.1
  /\ columns r.1 = ins
  /\ (forall sid, sid <> n_serverId ins -> getConfig r.2 sid = getConfig s sid)
  /\ logs r.2 = logs s.
Proof.
  unfold createOrUpdateConfig, getConfig. cbn [fst snd configs logs].
  repeat split.
  - apply lookup_insert_eq.
  - apply columns_with_id.
  - intros sid Hne. now apply lookup_insert_ne.
Qed.

(** X2. Saving a config for a server that already has one (with a non-empty
    id) keeps that id and does not change the number of configured
    servers. *)
Theorem createOrUpdateConfig_keeps_id s ins uuid old :
  getConfig s (n_serverId ins) = Some old ->
  Js.str_truthy (id old) = true ->
  let r := createOrUpdateConfig s ins uuid in
  id r.1 = id old /\ serversMonitored r.2 = serversMonitored s.
Proof.
  unfold getConfig. intros Hold Hid.
  unfold createOrUpdateConfig, serversMonitored. cbn [fst snd configs].
  rewrite Hold. cbn. rewrite Hid. split; [reflexivity|].
  apply map_size_insert_Some. rewrite Hold. eauto.
Qed.

Lemma createOrUpdateConfig_keeps_id_witness :
  let r := createOrUpdateConfig Scenario.store seed_columns "fresh-uuid" in
  id r.1 = id Scenario.cfg
  /\ serversMonitored r.2 = serversMonitored Scenario.store.
Proof.
  apply (createOrUpdateConfig_keeps_id Scenario.store seed_columns "fresh-uuid"
           Scenario.cfg); reflexivity.
Defined.

(** X3. Saving a config for a server without one stores it under the fresh
    uuid and raises the number of configured servers by one. *)
Theorem createOrUpdateConfig_new_server s ins uuid :
  getConfig s (n_serverId ins) = None ->
  let r := createOrUpdateConfig s ins uuid in
  id r.1 = uuid /\ serversMonitored r.2 = S (serversMonitored s).
Proof.
  unfold getConfig. intros Hnone.
  unfold createOrUpdateConfig, serversMonitored. cbn [fst snd configs].
  rewrite Hnone. split; [reflexivity|].
  now apply map_size_insert_None.
Qed.

Lemma createOrUpdateConfig_new_server_witness :
  let r := createOrUpdateConfig {| configs := ∅; logs := [] |} seed_columns
             "fresh-uuid" in
  id r.1 = "fresh-uuid"
  /\ serversMonitored r.2 = S (serversMonitored {| configs := ∅; logs := [] |}).
Proof.
  apply (createOrUpdateConfig_new_server {| configs := ∅; logs := [] |}
           seed_columns "fresh-uuid").
  reflexivity.
Defined.

(** X4. Saving the same config twice is the same as saving it once: the
    second call returns the same config, id included, and leaves the same
    store, whatever uuid it is offered (uuids are never empty). *)
Theorem createOrUpdateConfig_idempotent s ins uuid1 uuid2 :
  Js.str_truthy uuid1 = true ->
  createOrUpdateConfig (createOrUpdateConfig s ins uuid1).2 ins uuid2
  = createOrUpdateConfig s ins uuid1.
Proof.
  intros Hu. unfold createOrUpdateConfig. cbn [fst snd configs logs].
  rewrite lookup_insert_eq. cbn [fmap option_fmap option_map id with_id].
  set (i := Js.str_or (id <$> configs s !! n_serverId ins) uuid1).
  assert (Hi : Js.str_truthy i = true) by now apply str_or_truthy.
  assert (Hkeep : Js.str_or (Some i) uuid2 = i)
    by (unfold Js.str_or at 1; now rewrite Hi).
  rewrite !Hkeep. now rewrite insert_insert_eq.
Qed.

Lemma createOrUpdateConfig_idempotent_witness :
  createOrUpdateConfig
    (createOrUpdateConfig Scenario.store seed_columns "uuid-1").2 seed_columns
    "uuid-2"
  = createOrUpdateConfig Scenario.store seed_columns "uuid-1".
Proof.
  apply (createOrUpdateConfig_idempotent Scenario.store seed_columns "uuid-1"
           "uuid-2").
  reflexivity.
Defined.

End StoreOpsProps.

(** ** The store: where a new log is listed *)

Module ListingProps.
Import Schema Storage StorageProps.

Abbreviation ins := (Js.insert_sorted byTimestampDesc).
Abbreviation srt := (Js.sort byTimestampDesc).

Lemma filter_all {A} (P : A -> Prop) `{!forall x, Decision (P x)} (l : list A) :
  Forall P l -> filter P l = l.
Proof.
  induction 1 as [|x l Hx _ IH]; [reflexivity|].
  now rewrite filter_cons_True, IH.
Qed.

Lemma filter_none {A} (P : A -> Prop) `{!forall x, Decision (P x)} (l : list A) :
  Forall (fun x => ~ P x) l -> filter P l = [].
Proof.
  induction 1 as [|x l Hx _ IH]; [reflexivity|].
  now rewrite filter_cons_False.
Qed.

Lemma Forall_filter_holds {A} (P : A -> Prop) `{!forall x, Decision (P x)}
    (l : list A) :
  Forall P (filter P l).
Proof. apply Forall_forall. intros x Hx. now apply list_elem_of_filter in Hx. Qed.

(** [y] passes the entries that are newer and stops at the first that is
    not. *)
Lemma insert_app_l y A B :
  Forall (fun z => timestamp z <= timestamp y) B -> ins y (A ++ B) = ins y A ++ B.
Proof.
  intros HB. induction A as [|a A IH]; simpl.
  - destruct HB as [|z B Hz _]; [reflexivity|]. simpl.
    destruct (Z.leb_spec (byTimestampDesc y z) 0) as [_|Hgt]; [reflexivity|].
    unfold byTimestampDesc in Hgt. lia.
  - destruct (byTimestampDesc y a <=? 0); [reflexivity|]. now rewrite IH.
Qed.

Lemma insert_app_r y A B :
  Forall (fun z => timestamp y < timestamp z) A -> ins y (A ++ B) = A ++ ins y B.
Proof.
  induction 1 as [|a A Ha _ IH]; [reflexivity|]. simpl.
  destruct (Z.leb_spec (byTimestampDesc y a) 0) as [Hle|_].
  - unfold byTimestampDesc in Hle. lia.
  - now rewrite IH.
Qed.

(** A listing, cut at a time [t]: the entries not older than [t] come
    first. *)
Lemma sorted_cut t S :
  StronglySorted not_older S ->
  S = filter (fun y => t <= timestamp y) S ++ filter (fun y => timestamp y < t) S.
Proof.
  induction 1 as [|a S _ IH Ha]; [reflexivity|].
  destruct (decide (t <= timestamp a)) as [Hle|Hgt].
  - rewrite filter_cons_True by exact Hle.
    rewrite (filter_cons_False (fun y => timestamp y < t)) by lia.
    simpl. now rewrite <- IH.
  - rewrite filter_cons_False by exact Hgt.
    rewrite (filter_cons_True (fun y => timestamp y < t)) by lia.
    assert (Hold : Forall (fun y => timestamp y < t) S).
    { eapply Forall_impl; [exact Ha|]. unfold not_older. intros z Hz. simpl in *. lia. }
    rewrite (filter_none (fun y => t <= timestamp y)).
    + now rewrite (filter_all _ _ Hold).
    + eapply Forall_impl; [exact Hold|]. intros z Hz. simpl in *. lia.
Qed.

Lemma Forall_insert (P : ModerationLog -> Prop) y A :
  P y -> Forall P A -> Forall P (ins y A).
Proof.
  intros Hy HA. eapply Permutation_Forall; [apply insert_sorted_perm|].
  now constructor.
Qed.

Lemma sort_snoc l x :
  srt (l ++ [x])
  = filter (fun y => timestamp x <= timestamp y) (srt l)
    ++ x :: filter (fun y => timestamp y < timestamp x) (srt l).
Proof.
  induction l as [|y l IH]; [reflexivity|].
  change (srt ((y :: l) ++ [x])) with (ins y (srt (l ++ [x]))).
  change (srt (y :: l)) with (ins y (srt l)).
  rewrite IH.
  pose proof (sort_sorted l) as Hs.
  pose proof (sorted_cut (timestamp x) (srt l) Hs) as Hcut.
  set (A := filter (fun z => timestamp x <= timestamp z) (srt l)) in *.
  set (B := filter (fun z => timestamp z < timestamp x) (srt l)) in *.
  assert (HA : Forall (fun z => timestamp x <= timestamp z) A)
    by apply Forall_filter_holds.
  assert (HB : Forall (fun z => timestamp z < timestamp x) B)
    by apply Forall_filter_holds.
  rewrite Hcut.
  destruct (decide (timestamp x <= timestamp y)) as [Hle|Hgt].
  - assert (HBy : Forall (fun z => timestamp z <= timestamp y) B).
    { eapply Forall_impl; [exact HB|]. intros z Hz. simpl in *. lia. }
    rewrite (insert_app_l y A (x :: B)) by (constructor; [exact Hle|exact HBy]).
    rewrite (insert_app_l y A B HBy). rewrite !filter_app.
    rewrite (filter_all (fun z => timestamp x <= timestamp z) (ins y A))
      by (apply Forall_insert; assumption).
    rewrite (filter_none (fun z => timestamp x <= timestamp z) B)
      by (eapply Forall_impl; [exact HB|]; intros z Hz; simpl in *; lia).
    rewrite (filter_none (fun z => timestamp z < timestamp x) (ins y A))
      by (apply Forall_insert; [lia|];
          eapply Forall_impl; [exact HA|]; intros z Hz; simpl in *; lia).
    rewrite (filter_all (fun z => timestamp z < timestamp x) B HB).
    now rewrite app_nil_r.
  - assert (HAy : Forall (fun z => timestamp y < timestamp z) A).
    { eapply Forall_impl; [exact HA|]. intros z Hz. simpl in *. lia. }
    rewrite (insert_app_r y A (x :: B) HAy), (insert_app_r y A B HAy).
    rewrite !filter_app.
    rewrite (filter_all (fun z => timestamp x <= timestamp z) A HA).
    rewrite (filter_none (fun z => timestamp x <= timestamp z) (ins y B))
      by (apply Forall_insert; [lia|];
          eapply Forall_impl; [exact HB|]; intros z Hz; simpl in *; lia).
    rewrite (filter_none (fun z => timestamp z < timestamp x) A)
      by (eapply Forall_impl; [exact HA|]; intros z Hz; simpl in *; lia).
    rewrite (filter_all (fun z => timestamp z < timestamp x) (ins y B))
      by (apply Forall_insert; [lia|exact HB]).
    rewrite app_nil_r. simpl.
    destruct (Z.leb_spec (byTimestampDesc y x) 0) as [Hle|_]; [|reflexivity].
    unfold byTimestampDesc in Hle. lia.
Qed.

(** X5. [createLog] appends: every entry stored before stays at its index,
    the new one sits at the index returned, and the configs are untouched.
    In [getLogs()] the new entry is listed after every stored entry that is
    not older than it and before every older one. *)
Theorem createLog_then_getLogs s insertLog uuid now :
  let r := createLog s insertLog uuid now in
  let log := r.1.1 in
  logs r.2 = logs s ++ [log]
  /\ logs r.2 !! r.1.2 = Some log
  /\ configs r.2 = configs s
  /\ log_row log = insertLog
  /\ getLogs r.2
     = filter (fun y => now <= timestamp y) (getLogs s)
       ++ log :: filter (fun y => timestamp y < now) (getLogs s).
Proof.
  unfold createLog, getLogs. cbn [fst snd logs configs].
  repeat split.
  - now rewrite list_lookup_middle.
  - apply sort_snoc.
Qed.

Lemma filter_time_insert t x S :
  filter (fun y => timestamp y = t) (ins x S)
  = filter (fun y => timestamp y = t) (x :: S).
Proof.
  induction S as [|y S IH]; [reflexivity|]. simpl.
  destruct (Z.leb_spec (byTimestampDesc x y) 0) as [_|Hgt]; [reflexivity|].
  unfold byTimestampDesc in Hgt.
  rewrite (filter_cons _ y), IH, !filter_cons.
  repeat case_decide; try reflexivity; lia.
Qed.

(** X6. Entries created at the same millisecond are listed by [getLogs()]
    in the order they were created: the comparator gives 0 for them and the
    sort is stable. *)
Theorem getLogs_keeps_creation_order_of_ties s t :
  filter (fun y => timestamp y = t) (getLogs s)
  = filter (fun y => timestamp y = t) (logs s).
Proof.
  unfold getLogs. induction (logs s) as [|x l IH]; [reflexivity|].
  change (srt (x :: l)) with (ins x (srt l)).
  rewrite filter_time_insert, !filter_cons, IH. reflexivity.
Qed.

Lemma length_getLogs s : length (getLogs s) = length (logs s).
Proof. symmetry. apply Permutation_length, sort_perm. Qed.

(** Called without a limit, [getRecentLogs()] returns the five newest
    entries, or all of them when the store holds fewer than five. *)
Lemma getRecentLogs_default s :
  getRecentLogs s None = take 5 (getLogs s)
  /\ length (getRecentLogs s None) = Nat.min 5 (length (logs s)).
Proof.
  assert (E : getRecentLogs s None = take 5 (getLogs s)).
  { unfold getRecentLogs. cbn [default]. now rewrite slice0_nonneg. }
  split; [exact E|]. now rewrite E, length_take, length_getLogs.
Qed.

(** X8. A negative limit [-k] does not fail and does not return nothing: as
    [slice(0, -k)] counts from the end, [getRecentLogs(-k)] returns all
    entries but the [k] oldest. *)
Theorem getRecentLogs_negative_limit s k :
  0 < k ->
  getRecentLogs s (Some (- k))
  = take (length (logs s) - Z.to_nat k) (getLogs s).
Proof.
  intros Hk. unfold getRecentLogs.
  change (default 5 (Some (- k))) with (- k). cbv zeta.
  fold (getLogs s). unfold Js.slice0. rewrite length_getLogs.
  destruct (Z.ltb_spec (- k) 0) as [_|?]; [|lia].
  f_equal. lia.
Qed.

Lemma getRecentLogs_negative_limit_witness :
  0 < 1
  /\ getRecentLogs Scenario.store (Some (- 1))
     = take (length (logs Scenario.store) - Z.to_nat 1) (getLogs Scenario.store).
Proof.
  split; [lia|]. apply (getRecentLogs_negative_limit Scenario.store 1). lia.
Defined.

End ListingProps.

(** ** The store: statistics *)

Module StatisticsProps.
Import Stdlib.Strings.Ascii.
Import StoreOps.

Lemma map_get_set {V} k (v : V) m : map_get k (map_set k v m) = Some v.
Proof.
  induction m as [|[k' v'] m IH]; simpl.
  - now rewrite String.eqb_refl.
  - destruct (String.eqb k k') eqn:E; simpl; rewrite ?String.eqb_refl, ?E; auto.
Qed.

Lemma map_set_length {V} k (v : V) m :
  length (map_set k v m)
  = match map_get k m with Some _ => length m | None => S (length m) end.
Proof.
  induction m as [|[k' v'] m IH]; simpl; [reflexivity|].
  destruct (String.eqb k k'); simpl; [reflexivity|].
  rewrite IH. now destruct (map_get k m).
Qed.

Lemma map_set_In {V} k (v : V) m : In v (map snd (map_set k v m)).
Proof.
  induction m as [|[k' v'] m IH]; simpl; [now left|].
  destruct (String.eqb k k'); simpl; auto.
Qed.

(** X9. After [updateStatistics(stats)], [getStatistics(stats.serverId)]
    lists the record the call returned, which holds the given figures and
    sits under the key of its server and date; a record already stored
    under that key gives its (non-empty) id to the new one and is replaced,
    so that the number of records grows only for a new key. *)
Theorem updateStatistics_then_getStatistics m ins uuid timeRange :
  let r := updateStatistics m ins uuid in
  In r.1 (getStatistics r.2 (t_serverId ins) timeRange)
  /\ stat_row r.1 = ins
  /\ map_get (stat_key ins) r.2 = Some r.1
  /\ (forall old, map_get (stat_key ins) m = Some old ->
        Js.str_truthy (stat_id old) = true ->
        stat_id r.1 = stat_id old /\ length r.2 = length m)
  /\ (map_get (stat_key ins) m = None ->
        stat_id r.1 = uuid /\ length r.2 = S (length m)).
Proof.
  unfold updateStatistics, getStatistics. cbn [fst snd].
  split; [|split; [reflexivity|split; [apply map_get_set|split]]].
  - apply filter_In. split; [apply map_set_In|]. cbn. apply String.eqb_refl.
  - intros old Hold Hid. rewrite map_set_length, Hold. cbn.
    now rewrite Hid.
  - intros Hnone. rewrite map_set_length, Hnone. now split.
Qed.

Lemma no_hyphen_tail c s : no_hyphen (String c s) -> no_hyphen s.
Proof. intros H i. exact (H (S i)). Qed.

Lemma no_hyphen_head c s : no_hyphen (String c s) -> c <> "-"%char.
Proof. intros H Hc. apply (H 0%nat). simpl. now rewrite Hc. Qed.

(** Keys of hyphen-free server ids tell server and date apart. *)
Lemma stat_key_injective s1 d1 s2 d2 :
  no_hyphen s1 -> no_hyphen s2 ->
  s1 +:+ "-" +:+ d1 = s2 +:+ "-" +:+ d2 -> s1 = s2 /\ d1 = d2.
Proof.
  revert s2. induction s1 as [|c s1 IH]; intros [|c2 s2] H1 H2 E; simpl in E.
  - now injection E.
  - injection E as Ec _. apply no_hyphen_head in H2. congruence.
  - injection E as Ec _. apply no_hyphen_head in H1. congruence.
  - injection E as -> E.
    destruct (IH s2 (no_hyphen_tail _ _ H1) (no_hyphen_tail _ _ H2) E) as [-> ->].
    now split.
Qed.

Lemma map_set_filter_other {V} (p : V -> bool) k v m :
  p v = false ->
  (forall old, map_get k m = Some old -> p old = false) ->
  List.filter p (map snd (map_set k v m)) = List.filter p (map snd m).
Proof.
  intros Hv. induction m as [|[k' v'] m IH]; intros Hold; simpl.
  - now rewrite Hv.
  - simpl in Hold. destruct (String.eqb k k'); simpl.
    + now rewrite Hv, (Hold v' eq_refl).
    + now rewrite IH.
Qed.

Lemma well_keyed_lookup m k old :
  well_keyed m -> map_get k m = Some old ->
  k = stat_key (stat_row old) /\ no_hyphen (t_serverId (stat_row old)).
Proof.
  induction 1 as [|[k' v'] m [Hk Hv] _ IH]; simpl; [discriminate|].
  destruct (String.eqb k k') eqn:E; [|exact IH].
  apply String.eqb_eq in E. intros [= <-]. simpl in *. now subst.
Qed.

Lemma well_keyed_set m v :
  well_keyed m -> no_hyphen (t_serverId (stat_row v)) ->
  well_keyed (map_set (stat_key (stat_row v)) v m).
Proof.
  intros Hm Hv. induction Hm as [|[k' v'] m Hkv Hm IH]; simpl.
  - repeat constructor. exact Hv.
  - destruct (String.eqb (stat_key (stat_row v)) k'); constructor;
      solve [assumption | now split].
Qed.

(** X10. As long as server ids hold no hyphen (chat-platform ids are digit
    strings), the statistics of different servers do not touch: an
    [updateStatistics] for one server leaves [getStatistics] of every other
    server as it was, and the map stays keyed by server and date. *)
Theorem updateStatistics_other_servers m ins uuid sid timeRange :
  well_keyed m ->
  no_hyphen (t_serverId ins) ->
  sid <> t_serverId ins ->
  let r := updateStatistics m ins uuid in
  getStatistics r.2 sid timeRange = getStatistics m sid timeRange
  /\ well_keyed r.2.
Proof.
  intros Hm Hins Hne. unfold updateStatistics, getStatistics. cbn [fst snd].
  split.
  - apply map_set_filter_other.
    + cbn. apply String.eqb_neq. congruence.
    + intros old Hold.
      destruct (well_keyed_lookup m _ old Hm Hold) as [Hk Hh].
      apply String.eqb_neq. intros Heq.
      unfold stat_key in Hk.
      apply stat_key_injective in Hk as [Hs _]; [|exact Hins|exact Hh].
      congruence.
  - apply (well_keyed_set m {| stat_id := _; stat_row := ins |} Hm Hins).
Qed.

Lemma no_hyphen_digits : no_hyphen "123456789" /\ no_hyphen "987654321".
Proof.
  split; intros i; do 10 (destruct i as [|i]; [discriminate|]); discriminate.
Qed.

Lemma updateStatistics_other_servers_witness :
  getStatistics stats_map "987654321" None
  = [ {| stat_id := "s-1"; stat_row := stats_b |} ]
  /\ let r := updateStatistics stats_map stats_a "uuid-1" in
     getStatistics r.2 "987654321" None = getStatistics stats_map "987654321" None
     /\ well_keyed r.2.
Proof.
  split; [reflexivity|].
  apply (updateStatistics_other_servers stats_map stats_a "uuid-1" "987654321" None).
  - constructor; [split; [reflexivity|apply no_hyphen_digits]|].
    constructor; [split; [reflexivity|apply no_hyphen_digits]|].
    constructor.
  - apply no_hyphen_digits.
  - discriminate.
Defined.

(** X11. The key joins server id and date by a hyphen, so two different
    servers collide when the hyphen can be read in two places: the second
    [updateStatistics] then takes over the slot of the first, id included,
    and the first server's record is gone from the map. *)
Theorem updateStatistics_key_collision m ins1 ins2 uuid1 uuid2 :
  stat_key ins1 = stat_key ins2 ->
  t_serverId ins1 <> t_serverId ins2 ->
  Js.str_truthy uuid1 = true ->
  let r1 := updateStatistics m ins1 uuid1 in
  let r2 := updateStatistics r1.2 ins2 uuid2 in
  map_get (stat_key ins1) r2.2 = Some r2.1
  /\ stat_row r2.1 = ins2
  /\ stat_id r2.1 = stat_id r1.1
  /\ length r2.2 = length r1.2.
Proof.
  intros Hkey Hne Hu. unfold updateStatistics. cbn [fst snd].
  rewrite <- Hkey, !map_get_set. cbn [fmap option_fmap option_map stat_id].
  set (i := Js.str_or (stat_id <$> map_get (stat_key ins1) m) uuid1).
  assert (Hi : Js.str_truthy i = true)
    by (apply StoreOpsProps.str_or_truthy; exact Hu).
  assert (Hkeep : Js.str_or (Some i) uuid2 = i)
    by (unfold Js.str_or at 1; now rewrite Hi).
  rewrite Hkeep. repeat split.
  now rewrite (map_set_length (stat_key ins1)), map_get_set.
Qed.

Lemma updateStatistics_key_collision_witness :
  let r1 := updateStatistics [] clash_a "uuid-1" in
  let r2 := updateStatistics r1.2 clash_b "uuid-2" in
  map_get (stat_key clash_a) r2.2 = Some r2.1
  /\ stat_row r2.1 = clash_b
  /\ stat_id r2.1 = stat_id r1.1
  /\ length r2.2 = length r1.2.
Proof.
  apply (updateStatistics_key_collision [] clash_a clash_b "uuid-1" "uuid-2");
    [reflexivity|discriminate|reflexivity].
Defined.

End StatisticsProps.

(** ** The handler as a whole *)

Module HandlerProps.
Import Schema Discord Effects OpenAI Bot Run RunMore BotLemmas PipelineProps.

Lemma not_takes_action_run m env s :
  ~ takes_action m env s ->
  final (onMessageCreate m env s) = s
  /\ Forall (fun e => is_chat_completion e = true \/ is_console e = true)
       (trace (onMessageCreate m env s)).
Proof.
  intros Hno.
  destruct (bot (author m)) eqn:Hb.
  { rewrite onMessageCreate_bot by exact Hb. split; [reflexivity|constructor]. }
  destruct (Storage.getConfig (storage s) (Js.str_or (guildId m) "")) as [c|] eqn:Hc.
  2:{ rewrite onMessageCreate_unconfigured by exact Hc.
      split; [reflexivity|constructor]. }
  destruct (channel_monitored c m) eqn:Hm.
  2:{ rewrite (onMessageCreate_unmonitored m env s c) by assumption.
      split; [reflexivity|constructor]. }
  destruct (onMessageCreate_classified m env s c Hb Hc Hm)
    as (a & errs & Hv & Herrs & E).
  rewrite E. destruct (Js.truthy (isViolation a)) eqn:Ht.
  { exfalso. apply Hno. split; [exact Hb|]. exists c, a. auto. }
  split; [reflexivity|]. unfold trace. cbn [snd].
  constructor; [now left|].
  destruct Herrs as [-> | [-> _]]; [constructor|].
  constructor; [now right|constructor].
Qed.

(** X13. The handler never touches the configs, the set of connections or
    any entry already in the audit log.  It appends exactly one entry,
    carrying the message text and the uuid and time of its creation, when
    the message passes the filters and is judged a violation; otherwise it
    leaves the whole state as it was and makes no call other than the
    classification request. *)
Theorem onMessageCreate_frame m env s :
  let r := onMessageCreate m env s in
  Storage.configs (storage (final r)) = Storage.configs (storage s)
  /\ connectedClients (final r) = connectedClients s
  /\ (takes_action m env s ->
      exists log,
        Storage.logs (storage (final r)) = Storage.logs (storage s) ++ [log]
        /\ log_id log = randomUUID env
        /\ timestamp log = now env
        /\ i_messageContent (log_row log) = content m)
  /\ (~ takes_action m env s ->
      final r = s
      /\ Forall (fun e => is_chat_completion e = true \/ is_console e = true)
           (trace r)).
Proof.
  cbv zeta.
  assert (Hact : takes_action m env s ->
                 exists c a, onMessageCreate m env s
                             = (inr tt, violation_state c m a env s,
                                EvChatCompletion
                                  (request (content m)
                                     (Js.str_or (Some (sensitivity c)) "medium"))
                                :: violation_trace c m a env s)).
  { intros (Hb & c & a & Hc & Hm & Hv & Ht). exists c, a.
    now apply onMessageCreate_violation. }
  assert (Hdec : takes_action m env s \/ ~ takes_action m env s).
  { destruct (bot (author m)) eqn:Hb; [right; intros [H _]; congruence|].
    destruct (Storage.getConfig (storage s) (Js.str_or (guildId m) ""))
      as [c|] eqn:Hc; [|right; intros (_ & c & a & H & _); congruence].
    destruct (channel_monitored c m) eqn:Hm;
      [|right; intros (_ & c' & a & H1 & H2 & _); congruence].
    destruct (onMessageCreate_classified m env s c Hb Hc Hm)
      as (a & errs & Hv & _ & _).
    destruct (Js.truthy (isViolation a)) eqn:Ht.
    - left. split; [exact Hb|]. exists c, a. auto.
    - right. intros (_ & c' & a' & H1 & H2 & H3 & H4).
      assert (c' = c) by congruence. subst c'. congruence. }
  split; [|split; [|split]].
  - destruct Hdec as [H|H].
    + destruct (Hact H) as (c & a & ->). reflexivity.
    + now destruct (not_takes_action_run m env s H) as [-> _].
  - destruct Hdec as [H|H].
    + destruct (Hact H) as (c & a & ->). reflexivity.
    + now destruct (not_takes_action_run m env s H) as [-> _].
  - intros H. destruct (Hact H) as (c & a & ->).
    eexists. split; [reflexivity|]. repeat split.
  - apply not_takes_action_run.
Qed.

(** X14. Which enforcement calls are made, in which order, and which labels
    come back depends on the config, the message and the platform's answers
    only.  Violation type, confidence score and reasoning of the verdict go
    into the texts that are sent, but never decide whether an action runs:
    in particular there is no threshold on the confidence score. *)
Theorem actions_do_not_depend_on_verdict c m a a' env s :
  result (executeActions c m a env s) = result (executeActions c m a' env s)
  /\ omap action_rank (trace (executeActions c m a env s))
     = omap action_rank (trace (executeActions c m a' env s)).
Proof.
  rewrite !executeActions_run. unfold result, trace. cbn [fst snd].
  unfold actions_labels, actions_events. rewrite !omap_app.
  assert (Hl : (log_outcome c m a env).1 = (log_outcome c m a' env).1
               /\ omap action_rank (log_outcome c m a env).2
                  = omap action_rank (log_outcome c m a' env).2)
    by (split; part_cases; reflexivity).
  assert (Hk : (kick_outcome c m a env).1 = (kick_outcome c m a' env).1
               /\ omap action_rank (kick_outcome c m a env).2
                  = omap action_rank (kick_outcome c m a' env).2)
    by (split; part_cases; reflexivity).
  assert (Hb : (ban_outcome c m a env).1 = (ban_outcome c m a' env).1
               /\ omap action_rank (ban_outcome c m a env).2
                  = omap action_rank (ban_outcome c m a' env).2)
    by (split; part_cases; reflexivity).
  destruct Hl as [-> ->], Hk as [-> ->], Hb as [-> ->]. now split.
Qed.

Lemma takes_action_run m env s :
  takes_action m env s ->
  exists c a,
    onMessageCreate m env s
    = (inr tt, violation_state c m a env s,
       EvChatCompletion
         (request (content m) (Js.str_or (Some (sensitivity c)) "medium"))
       :: violation_trace c m a env s).
Proof.
  intros (Hb & c & a & Hc & Hm & Hv & Ht). exists c, a.
  now apply onMessageCreate_violation.
Qed.

Lemma spam_takes_action :
  takes_action Scenario.spam_message Scenario.kick_refused Scenario.st.
Proof.
  destruct spam_is_violation as (Hb & Hc & Hm & Hv & Ht).
  split; [exact Hb|]. exists Scenario.cfg, Scenario.spam_analysis. auto.
Defined.

(** X15. For a message judged a violation the deletion of the message is
    attempted exactly once and as the last call of the run, after the
    update of the entry, whether or not any enforcement action went
    through; when the deletion is refused the handler only prints "Failed
    to delete message:". *)
Theorem violation_deletes_message_last m env s :
  takes_action m env s ->
  exists pre tail,
    trace (onMessageCreate m env s) = pre ++ EvMessageDelete :: tail
    /\ existsb is_delete pre = false
    /\ (if delete_ok env then tail = []
        else tail = [EvConsoleError "Failed to delete message:"]).
Proof.
  intros H. destruct (takes_action_run m env s H) as (c & a & ->).
  unfold trace. cbn [snd]. rewrite violation_trace_split. unfold after_broadcast.
  exists (EvChatCompletion
            (request (content m) (Js.str_or (Some (sensitivity c)) "medium"))
          :: EvCreateLog (created_log m a env)
          :: EvBroadcast (created_log m a env)
          :: ws_sends (created_log m a env) (connectedClients s)
          ++ actions_events c m a env
          ++ update_events (length (Storage.logs (storage s)))
               (actions_labels c m a env)),
    (if delete_ok env then [] else [EvConsoleError "Failed to delete message:"]).
  split; [|split].
  - cbn [app]. rewrite <- !app_assoc. unfold delete_events.
    now destruct (delete_ok env).
  - cbn [existsb is_delete orb]. rewrite !existsb_app.
    assert (Hno : forall l,
               Forall (fun e => is_enforcement e = true \/ is_console e = true
                                \/ exists w log, e = EvWsSend w log
                                \/ exists ref v, e = EvSetActionTaken ref v) l ->
               existsb is_delete l = false).
    { induction 1 as [|e l He _ IH]; [reflexivity|]. simpl. rewrite IH.
      destruct He as [He|[He|(w & log & [->|(ref & v & ->)])]];
        try reflexivity; destruct e; try discriminate He; reflexivity. }
    rewrite !Hno; [reflexivity| | |].
    + eapply Forall_impl; [apply update_events_shape|].
      intros e [v ->]. right. right. exists 0%nat, (created_log m a env).
      right. eauto.
    + eapply Forall_impl; [apply actions_events_shape|]. intros e [He|He]; auto.
    + eapply Forall_impl; [apply ws_sends_shape|].
      intros e [w ->]. right. right. exists w, (created_log m a env). now left.
  - now destruct (delete_ok env).
Qed.

Lemma violation_deletes_message_last_witness :
  exists pre tail,
    trace (onMessageCreate Scenario.spam_message Scenario.kick_refused Scenario.st)
    = pre ++ EvMessageDelete :: tail
    /\ existsb is_delete pre = false
    /\ (if delete_ok Scenario.kick_refused then tail = []
        else tail = [EvConsoleError "Failed to delete message:"]).
Proof.
  exact (violation_deletes_message_last Scenario.spam_message
           Scenario.kick_refused Scenario.st spam_takes_action).
Defined.

Lemma takes_action_logs m env s :
  takes_action m env s ->
  exists log,
    Storage.logs (storage (final (onMessageCreate m env s)))
    = Storage.logs (storage s) ++ [log]
    /\ log_id log = randomUUID env
    /\ i_messageContent (log_row log) = content m.
Proof.
  intros H. destruct (takes_action_run m env s H) as (c & a & ->).
  eexists. split; [reflexivity|]. split; reflexivity.
Qed.

(** X7. Two violating messages handled one after the other leave two
    entries, in the order of handling, each with the uuid drawn for it and
    the text of its own message; handling the second message does not touch
    the entry of the first. *)
Theorem two_violations_two_entries m1 env1 m2 env2 s :
  takes_action m1 env1 s ->
  takes_action m2 env2 (final (onMessageCreate m1 env1 s)) ->
  let s1 := final (onMessageCreate m1 env1 s) in
  let s2 := final (onMessageCreate m2 env2 s1) in
  exists l1 l2,
    Storage.logs (storage s1) = Storage.logs (storage s) ++ [l1]
    /\ Storage.logs (storage s2) = Storage.logs (storage s) ++ [l1; l2]
    /\ log_id l1 = randomUUID env1 /\ log_id l2 = randomUUID env2
    /\ i_messageContent (log_row l1) = content m1
    /\ i_messageContent (log_row l2) = content m2.
Proof.
  intros H1 H2. cbv zeta.
  destruct (takes_action_logs m1 env1 s H1) as (l1 & E1 & Hid1 & Hc1).
  destruct (takes_action_logs m2 env2 _ H2) as (l2 & E2 & Hid2 & Hc2).
  exists l1, l2. rewrite E2, E1, <- app_assoc. now repeat split.
Qed.

Lemma second_message_takes_action :
  takes_action Scenario.uncached_message second_env
    (final (onMessageCreate Scenario.spam_message Scenario.kick_refused
              Scenario.st)).
Proof.
  split; [reflexivity|]. exists Scenario.cfg, Scenario.spam_analysis.
  repeat split; reflexivity.
Defined.

Lemma two_violations_two_entries_witness :
  let s1 := final (onMessageCreate Scenario.spam_message Scenario.kick_refused
                     Scenario.st) in
  let s2 := final (onMessageCreate Scenario.uncached_message second_env s1) in
  exists l1 l2,
    Storage.logs (storage s1) = Storage.logs (storage Scenario.st) ++ [l1]
    /\ Storage.logs (storage s2) = Storage.logs (storage Scenario.st) ++ [l1; l2]
    /\ log_id l1 = randomUUID Scenario.kick_refused
    /\ log_id l2 = randomUUID second_env
    /\ i_messageContent (log_row l1) = content Scenario.spam_message
    /\ i_messageContent (log_row l2) = content Scenario.uncached_message.
Proof.
  exact (two_violations_two_entries Scenario.spam_message Scenario.kick_refused
           Scenario.uncached_message second_env Scenario.st spam_takes_action
           second_message_takes_action).
Defined.

End HandlerProps.

(** ** The handler when the channel leaves the cache *)

Module UncachedProps.
Import Schema Discord Effects OpenAI Bot Run RunMore BotLemmas Uncached.

(** *** Computations that return *)

Lemma returns_eq {A} (m : M A) :
  (forall env s, exists a s' t, m env s = (inr a, s', t)) -> returns m.
Proof.
  intros H env s. destruct (H env s) as (a & s' & t & ->). now exists a.
Qed.

Lemma returns_ret {A} (a : A) : returns (ret a).
Proof. intros env s. now exists a. Qed.

Lemma returns_bind {A B} (m : M A) (k : A -> M B) :
  returns m -> (forall a, returns (k a)) -> returns (bind m k).
Proof.
  unfold returns, result. intros Hm Hk env s. unfold bind.
  destruct (Hm env s) as [a Ha].
  destruct (m env s) as [[r s'] t]. cbn [fst] in Ha. subst r.
  destruct (Hk a env s') as [b Hb].
  destruct (k a env s') as [[r s''] t']. cbn [fst] in *. subst r. now exists b.
Qed.

Lemma returns_try_catch {A} (body handler : M A) :
  returns handler -> returns (try_catch body handler).
Proof.
  unfold returns, result. intros Hh env s. unfold try_catch.
  destruct (body env s) as [[[e|a] s'] t]; [|now exists a].
  destruct (Hh env s') as [b Hb].
  destruct (handler env s') as [[r s''] t']. cbn [fst] in *. subst r.
  now exists b.
Qed.

Lemma returns_console {A} what (a : A) : returns (console_error what ;;; ret a).
Proof. intros env s. now exists a. Qed.

Lemma returns_logToChannel reads c m a acts :
  returns (Uncached.logToChannel reads c m a acts).
Proof.
  unfold Uncached.logToChannel.
  destruct (logChannelId c) as [cid|]; [|apply returns_ret].
  destruct (enableLog c && Js.str_truthy cid); [|apply returns_ret].
  apply returns_try_catch, returns_console.
Qed.

Lemma returns_customCommandAction reads c m acts :
  returns (Uncached.customCommandAction reads c m acts).
Proof.
  unfold Uncached.customCommandAction.
  destruct (customCommand c) as [cmd|]; [|apply returns_ret].
  destruct (Js.str_truthy cmd); [|apply returns_ret].
  apply returns_try_catch, returns_console.
Qed.

Lemma returns_executeActions reads c m a :
  returns (Uncached.executeActions reads c m a).
Proof.
  unfold Uncached.executeActions.
  apply returns_bind.
  { apply returns_eq. intros env s. rewrite warnUser_run. eauto. }
  intros acts1. apply returns_bind; [apply returns_logToChannel|].
  intros acts2. apply returns_bind.
  { apply returns_eq. intros env s. rewrite kickUser_run. eauto. }
  intros acts3. apply returns_bind.
  { apply returns_eq. intros env s. rewrite banUser_run. eauto. }
  intros acts4. apply returns_customCommandAction.
Qed.

Lemma returns_updateLog ref acts : returns (updateLog ref acts).
Proof.
  unfold updateLog. destruct (0 <? length acts)%nat; [|apply returns_ret].
  intros env s. now exists tt.
Qed.

(** With the channel cached when the entry is built, the rest of the run
    returns, whatever the later reads give. *)
Lemma returns_onViolation reads c m a :
  at_entry reads = true -> returns (Uncached.onViolation reads c m a).
Proof.
  intros Hr. unfold Uncached.onViolation, channel. rewrite Hr.
  apply returns_bind.
  { apply returns_eq. intros env s.
    unfold createLog, Storage.createLog, bind, ask, gets, modify, emit, ret.
    simpl. eauto. }
  intros lr. apply returns_bind.
  { apply returns_eq. intros env s. rewrite broadcastLog_run. eauto. }
  intros _. apply returns_bind; [apply returns_executeActions|].
  intros acts. apply returns_bind; [apply returns_updateLog|].
  intros _. apply returns_eq. intros env s. rewrite deleteMessage_run. eauto.
Qed.

(** With the channel cached at all three reads the handler is the one of
    [Bot]. *)
Lemma onMessageCreate_all_cached m :
  Uncached.onMessageCreate all_cached m = Bot.onMessageCreate m.
Proof. reflexivity. Qed.

(** The run of a message that passes the filters, up to the verdict. *)
Lemma onMessageCreate_verdict reads m env s c :
  bot (author m) = false ->
  Storage.getConfig (storage s) (Js.str_or (guildId m) "") = Some c ->
  channel_monitored c m = true ->
  exists a errs,
    verdict c m env s = Some a
    /\ (errs = [] \/ a = safe_default)
    /\ Uncached.onMessageCreate reads m env s
       = let req := request (content m) (Js.str_or (Some (sensitivity c)) "medium") in
         if Js.truthy (isViolation a)
         then match Uncached.onViolation reads c m a env s with
              | (r, s', t) => (r, s', (EvChatCompletion req :: errs) ++ t)
              end
         else (inr tt, s, EvChatCompletion req :: errs).
Proof.
  intros Hb Hc Hm.
  destruct (ClassifierProps.analyzeMessage_run (content m)
              (Js.str_or (Some (sensitivity c)) "medium") env s)
    as (a & errs & E & Herrs).
  exists a, errs. split; [|split].
  - unfold verdict. now rewrite E.
  - destruct Herrs as [->|[_ ->]]; auto.
  - unfold Uncached.onMessageCreate. rewrite Hb.
    unfold bind at 1. unfold gets at 1. rewrite Hc.
    unfold channel_monitored in Hm.
    rewrite <- negb_orb, Hm. cbn [negb].
    unfold bind. rewrite E. cbv zeta.
    destruct (Js.truthy (isViolation a)).
    + now destruct (Uncached.onViolation reads c m a env s) as [[r s'] t].
    + unfold ret. now rewrite app_nil_r.
Qed.

(** X12. The handler rejects in exactly one case: the message passes the
    filters and is judged a violation, and its channel is not in the cache
    when the entry is built (the read of line 68, outside every [try]).
    Nothing has then been recorded, published, enforced or deleted: the
    state is as before and the classification request is the only call.
    In every other case the handler returns, whatever the classification
    service and the platform answer and whether or not the channel is
    cached at the two later reads, which are caught by the [try] of their
    blocks.  With the channel cached at all three reads the run is the one
    of [Bot.onMessageCreate]. *)
Theorem onMessageCreate_rejects_iff reads m env s :
  let r := Uncached.onMessageCreate reads m env s in
  (result r = inl Thrown <-> takes_action m env s /\ at_entry reads = false)
  /\ (result r = inl Thrown ->
      final r = s
      /\ trace r = [EvChatCompletion
                      (request (content m)
                         (Js.str_or (sensitivity <$> Storage.getConfig (storage s)
                                                       (Js.str_or (guildId m) ""))
                            "medium"))])
  /\ (result r <> inl Thrown -> result r = inr tt)
  /\ Uncached.onMessageCreate all_cached m env s = Bot.onMessageCreate m env s.
Proof.
  cbv zeta.
  assert (Hdone : forall r : Exn + unit, r <> inl Thrown -> r = inr tt)
    by (intros [[]|[]] H; congruence).
  assert (Hcases :
            (result (Uncached.onMessageCreate reads m env s) = inr tt
             /\ ~ (takes_action m env s /\ at_entry reads = false))
            \/ (Uncached.onMessageCreate reads m env s
                = (inl Thrown, s,
                   [EvChatCompletion
                      (request (content m)
                         (Js.str_or (sensitivity <$> Storage.getConfig (storage s)
                                                       (Js.str_or (guildId m) ""))
                            "medium"))])
                /\ takes_action m env s /\ at_entry reads = false)).
  { destruct (bot (author m)) eqn:Hb.
    { left. split.
      - unfold Uncached.onMessageCreate. now rewrite Hb.
      - intros [[Hb' _] _]. congruence. }
    destruct (Storage.getConfig (storage s) (Js.str_or (guildId m) ""))
      as [c|] eqn:Hc.
    2:{ left. split.
        - unfold Uncached.onMessageCreate. rewrite Hb.
          unfold bind, gets. now rewrite Hc.
        - intros [(_ & c & a & Hc' & _) _]. congruence. }
    destruct (channel_monitored c m) eqn:Hm.
    2:{ left. split.
        - unfold Uncached.onMessageCreate. rewrite Hb.
          unfold bind, gets. rewrite Hc.
          unfold channel_monitored in Hm. apply orb_false_elim in Hm as [-> ->].
          reflexivity.
        - intros [(_ & c' & a & Hc' & Hm' & _) _]. congruence. }
    destruct (onMessageCreate_verdict reads m env s c Hb Hc Hm)
      as (a & errs & Hv & Herrs & E).
    cbv zeta in E. rewrite E.
    destruct (Js.truthy (isViolation a)) eqn:Ht.
    2:{ left. split; [reflexivity|].
        intros [(_ & c' & a' & Hc' & _ & Hv' & Ht') _].
        assert (c' = c) by congruence. subst c'.
        assert (a' = a) by congruence. subst a'. congruence. }
    assert (Herr : errs = []).
    { destruct Herrs as [->| ->]; [reflexivity|discriminate Ht]. }
    subst errs.
    destruct (at_entry reads) eqn:Hr.
    - left. split; [|intros [_ H]; discriminate H].
      destruct (returns_onViolation reads c m a Hr env s) as [[] Hu].
      unfold result in *.
      now destruct (Uncached.onViolation reads c m a env s) as [[r s'] t].
    - right. split; [|split; [|reflexivity]].
      + unfold Uncached.onViolation, channel. rewrite Hr. reflexivity.
      + split; [exact Hb|]. exists c, a. auto. }
  split; [|split; [|split; [apply Hdone|reflexivity]]].
  - destruct Hcases as [[Hr Hno]|(E & Ht & Hr)].
    + split; [rewrite Hr; discriminate|intros H; now destruct Hno].
    + rewrite E. split; [auto|reflexivity].
  - destruct Hcases as [[Hr Hno]|(E & Ht & Hr)].
    + rewrite Hr. discriminate.
    + rewrite E. intros _. split; reflexivity.
Qed.

(** The example message is judged a violation.  With its channel gone
    when the entry is built the handler rejects after the classification,
    and the store still holds its three entries.  With the channel gone
    only afterwards the handler returns: the log and the custom command
    fail inside their blocks, the warn and the ban go through. *)
Example onMessageCreate_rejects_example :
  Uncached.onMessageCreate gone_at_entry Scenario.spam_message
    Scenario.kick_refused Scenario.st
  = (inl Thrown, Scenario.st,
     [EvChatCompletion (request "BUY CRYPTO NOW CLICK HERE" "strict")])
  /\ let r := Uncached.onMessageCreate
                {| at_entry := true; at_embed := false; at_command := false |}
                Scenario.spam_message Scenario.kick_refused Scenario.st in
     result r = inr tt
     /\ actionTaken <$> last (Storage.logs (storage (final r)))
        = Some "warned, banned"
     /\ List.filter is_console (trace r)
        = [EvConsoleError "Failed to log to channel:";
           EvConsoleError "Failed to kick user:";
           EvConsoleError "Failed to execute custom command:"].
Proof. split; [reflexivity|]. vm_compute. repeat split. Qed.

End UncachedProps.

(** ** The custom command: placeholders *)

Module CommandProps.
Import Stdlib.Strings.Ascii.
Import Schema Discord Effects OpenAI Bot Run RunMore BotLemmas.

Lemma split_first_eq pat s :
  Js.split_first pat s
  = if String.prefix pat s
    then Some ("", String.substring (String.length pat)
                     (String.length s - String.length pat) s)
    else match s with
         | EmptyString => None
         | String c s' =>
             match Js.split_first pat s' with
             | Some (l, r) => Some (String c l, r)
             | None => None
             end
         end.
Proof. destruct s; reflexivity. Qed.

Lemma prefix_cons a s1 b s2 :
  String.prefix (String a s1) (String b s2)
  = if ascii_dec a b then String.prefix s1 s2 else false.
Proof. reflexivity. Qed.

Lemma prefix_app p t : String.prefix p (p +:+ t) = true.
Proof.
  induction p as [|c p IH]; [now destruct t|].
  change (String c p +:+ t) with (String c (p +:+ t)). rewrite prefix_cons.
  destruct (ascii_dec c c); [exact IH|congruence].
Qed.

Lemma substring_all t : String.substring 0 (String.length t) t = t.
Proof. induction t as [|c t IH]; simpl; [reflexivity|]. now rewrite IH. Qed.

Lemma substring_after p t :
  String.substring (String.length p)
    (String.length (p +:+ t) - String.length p) (p +:+ t) = t.
Proof.
  induction p as [|c p IH]; simpl.
  - rewrite Nat.sub_0_r. apply substring_all.
  - exact IH.
Qed.

Lemma no_at_cons c s : no_at (String c s) <-> c <> "@"%char /\ no_at s.
Proof.
  split.
  - intros H. split.
    + intros ->. now apply (H 0%nat).
    + intros i. exact (H (S i)).
  - intros [Hc Hs] [|i]; simpl; [congruence|apply Hs].
Qed.

Lemma no_at_nil : no_at "".
Proof. intros i. destruct i; discriminate. Qed.

Lemma no_at_app s t : no_at s -> no_at t -> no_at (s +:+ t).
Proof.
  induction s as [|c s IH]; [auto|].
  intros H Ht. apply no_at_cons in H as [Hc Hs].
  change (String c s +:+ t) with (String c (s +:+ t)).
  apply no_at_cons. split; auto.
Qed.

Lemma digits_no_at s : digits_only s = true -> no_at s.
Proof.
  induction s as [|c s IH]; simpl; [intros _; apply no_at_nil|].
  intros H. apply andb_true_iff in H as [Hc Hs].
  apply no_at_cons. split; [|auto]. intros ->. discriminate Hc.
Qed.

Section Pattern.
Variable p : string.
Let pat := String "@"%char p.

Lemma prefix_other c s : c <> "@"%char -> String.prefix pat (String c s) = false.
Proof.
  intros Hc. unfold pat. rewrite prefix_cons.
  destruct (ascii_dec "@" c); congruence.
Qed.

(** No [@], no placeholder. *)
Lemma split_first_none s : no_at s -> Js.split_first pat s = None.
Proof.
  induction s as [|c s IH]; [reflexivity|].
  rewrite no_at_cons. intros [Hc Hs].
  rewrite split_first_eq, (prefix_other c s Hc), (IH Hs). reflexivity.
Qed.

(** The first placeholder is found behind a text without [@]. *)
Lemma split_first_found pre post :
  no_at pre -> Js.split_first pat (pre +:+ pat +:+ post) = Some (pre, post).
Proof.
  induction pre as [|c pre IH]; intros Hpre.
  - change ("" +:+ pat +:+ post) with (pat +:+ post).
    rewrite split_first_eq, prefix_app, substring_after. reflexivity.
  - apply no_at_cons in Hpre as [Hc Hpre].
    change (String c pre +:+ pat +:+ post) with (String c (pre +:+ pat +:+ post)).
    rewrite split_first_eq, (prefix_other c _ Hc), (IH Hpre). reflexivity.
Qed.

(** An [@] that does not start the placeholder is passed over. *)
Lemma split_first_passes pre rest :
  no_at pre -> String.prefix p rest = false -> no_at rest ->
  Js.split_first pat (pre +:+ String "@"%char rest) = None.
Proof.
  intros Hpre Hmiss Hrest. induction pre as [|c pre IH].
  - change ("" +:+ String "@"%char rest) with (String "@"%char rest).
    rewrite split_first_eq. unfold pat at 1. rewrite prefix_cons.
    destruct (ascii_dec "@" "@"); [|congruence].
    rewrite Hmiss, (split_first_none rest Hrest). reflexivity.
  - apply no_at_cons in Hpre as [Hc Hpre].
    change (String c pre +:+ String "@"%char rest)
      with (String c (pre +:+ String "@"%char rest)).
    rewrite split_first_eq, (prefix_other c _ Hc), (IH Hpre). reflexivity.
Qed.

(** The search goes on behind such an [@]. *)
Lemma split_first_goes_on pre rest :
  no_at pre -> String.prefix p rest = false ->
  Js.split_first pat (pre +:+ String "@"%char rest)
  = match Js.split_first pat rest with
    | Some (l, r) => Some (pre +:+ String "@"%char l, r)
    | None => None
    end.
Proof.
  intros Hpre Hmiss. induction pre as [|c pre IH].
  - change ("" +:+ String "@"%char rest) with (String "@"%char rest).
    rewrite split_first_eq. unfold pat at 1. rewrite prefix_cons.
    destruct (ascii_dec "@" "@"); [|congruence].
    rewrite Hmiss. now destruct (Js.split_first pat rest) as [[l r]|].
  - apply no_at_cons in Hpre as [Hc Hpre].
    change (String c pre +:+ String "@"%char rest)
      with (String c (pre +:+ String "@"%char rest)).
    rewrite split_first_eq, (prefix_other c _ Hc), (IH Hpre).
    now destruct (Js.split_first pat rest) as [[l r]|].
Qed.

End Pattern.

Lemma append_assoc (a b c : string) : (a +:+ b) +:+ c = a +:+ b +:+ c.
Proof.
  induction a as [|x a IH]; [reflexivity|].
  change (String x ((a +:+ b) +:+ c) = String x (a +:+ b +:+ c)).
  now rewrite IH.
Qed.

Lemma append_cons x (a b : string) : String x a +:+ b = String x (a +:+ b).
Proof. reflexivity. Qed.

Lemma append_nil (b : string) : "" +:+ b = b.
Proof. reflexivity. Qed.

Ltac flatten :=
  repeat first [rewrite append_assoc | rewrite append_cons | rewrite append_nil];
  reflexivity.

(** The text behind [<@] of a mention does not start with [channel]. *)
Lemma mention_misses_channel uid post :
  digits_only uid = true ->
  String.prefix "channel" (uid +:+ ">" +:+ post) = false.
Proof.
  destruct uid as [|c uid]; [reflexivity|].
  change (String c uid +:+ ">" +:+ post) with (String c (uid +:+ ">" +:+ post)).
  change "channel" with (String "c"%char "hannel"). rewrite prefix_cons.
  cbn [digits_only]. intros H. apply andb_true_iff in H as [Hc _].
  destruct (ascii_dec "c" c) as [<-|]; [discriminate Hc|reflexivity].
Qed.

(** A replacement text without [$] stands for itself: so do the mentions
    of ids made of digits. *)
Lemma substitution_cons mt b a c r :
  Ascii.eqb c "$" = false ->
  Js.substitution mt b a (String c r) = String c (Js.substitution mt b a r).
Proof. intros H. cbn [Js.substitution]. now rewrite H. Qed.

Lemma substitution_digits mt b a id rest :
  digits_only id = true ->
  Js.substitution mt b a (id +:+ rest) = id +:+ Js.substitution mt b a rest.
Proof.
  induction id as [|c id IH]; [reflexivity|].
  cbn [digits_only]. intros H. apply andb_true_iff in H as [Hc Hid].
  change (String c id +:+ rest) with (String c (id +:+ rest)).
  rewrite substitution_cons, (IH Hid); [reflexivity|].
  destruct (Ascii.eqb_spec c "$") as [->|]; [discriminate Hc|reflexivity].
Qed.

Lemma substitution_user_mention mt b a id :
  digits_only id = true ->
  Js.substitution mt b a ("<@" +:+ id +:+ ">") = "<@" +:+ id +:+ ">".
Proof.
  intros H. change ("<@" +:+ id +:+ ">") with (String "<" (String "@" (id +:+ ">"))).
  rewrite !substitution_cons by reflexivity.
  now rewrite (substitution_digits _ _ _ _ _ H).
Qed.

Lemma substitution_channel_mention mt b a id :
  digits_only id = true ->
  Js.substitution mt b a ("<#" +:+ id +:+ ">") = "<#" +:+ id +:+ ">".
Proof.
  intros H. change ("<#" +:+ id +:+ ">") with (String "<" (String "#" (id +:+ ">"))).
  rewrite !substitution_cons by reflexivity.
  now rewrite (substitution_digits _ _ _ _ _ H).
Qed.

Lemma sent_text c m cmd env text :
  customCommand c = Some cmd ->
  Js.str_truthy cmd = true ->
  Js.replace "@channel" ("<#" +:+ channelId m +:+ ">")
    (Js.replace "@user" ("<@" +:+ user_id (author m) +:+ ">") cmd) = text ->
  hd_error (custom_outcome c m env).2 = Some (EvChannelSend (channelId m) text).
Proof.
  intros Hcmd Ht <-. unfold custom_outcome, attempt. rewrite Hcmd, Ht.
  now destruct (channel_send_ok env).
Qed.

(** X16. A custom command without the character [@] is sent to the channel
    of the offending message exactly as configured. *)
Theorem customCommand_verbatim c m cmd env s :
  customCommand c = Some cmd ->
  Js.str_truthy cmd = true ->
  no_at cmd ->
  hd_error (trace (customCommandAction c m [] env s))
  = Some (EvChannelSend (channelId m) cmd).
Proof.
  intros Hcmd Ht Hno. rewrite customCommandAction_run. unfold trace. cbn [snd].
  apply (sent_text c m cmd env cmd Hcmd Ht). unfold Js.replace.
  now rewrite (split_first_none "user" cmd Hno),
    (split_first_none "channel" cmd Hno).
Qed.

Lemma no_at_purge : no_at "!purge 10".
Proof. repeat (apply no_at_cons; split; [discriminate|]). apply no_at_nil. Qed.

Lemma customCommand_verbatim_witness :
  hd_error (trace (customCommandAction purge_cfg Scenario.spam_message []
                     Scenario.kick_refused Scenario.st))
  = Some (EvChannelSend (channelId Scenario.spam_message) "!purge 10").
Proof.
  apply (customCommand_verbatim purge_cfg Scenario.spam_message "!purge 10"
           Scenario.kick_refused Scenario.st); [reflexivity|reflexivity|exact no_at_purge].
Defined.

Lemma truthy_with_placeholder pre rest :
  Js.str_truthy (pre +:+ String "@"%char rest) = true.
Proof. now destruct pre. Qed.

(** X17. In a custom command that names [@user] and then [@channel], once
    each, both placeholders are replaced, by the mention [<@id>] of the
    author and the mention [<#id>] of the channel of the message, and the
    text before, between and behind them is kept.  The ids are digit
    strings, as the platform issues them: [replace] would read a [$] in
    an id as the start of a replacement pattern. *)
Theorem customCommand_placeholders c m env s pre mid post :
  customCommand c = Some (pre +:+ "@user" +:+ mid +:+ "@channel" +:+ post) ->
  no_at pre -> no_at mid -> no_at post ->
  digits_only (user_id (author m)) = true ->
  digits_only (channelId m) = true ->
  hd_error (trace (customCommandAction c m [] env s))
  = Some (EvChannelSend (channelId m)
            (pre +:+ "<@" +:+ user_id (author m) +:+ ">" +:+ mid
             +:+ "<#" +:+ channelId m +:+ ">" +:+ post)).
Proof.
  intros Hcmd Hpre Hmid Hpost Hid Hcid.
  rewrite customCommandAction_run. unfold trace. cbn [snd].
  apply (sent_text c m _ env _ Hcmd (truthy_with_placeholder pre _)).
  unfold Js.replace at 2.
  rewrite (split_first_found "user" pre (mid +:+ "@channel" +:+ post) Hpre).
  rewrite (substitution_user_mention _ _ _ _ Hid).
  set (uid := user_id (author m)) in *.
  assert (Hshape :
            pre +:+ ("<@" +:+ uid +:+ ">") +:+ mid +:+ "@channel" +:+ post
            = (pre +:+ "<") +:+ String "@"%char
                ((uid +:+ ">" +:+ mid) +:+ "@channel" +:+ post)).
  { rewrite !append_assoc. reflexivity. }
  rewrite Hshape. unfold Js.replace.
  rewrite (split_first_goes_on "channel").
  - rewrite (split_first_found "channel" (uid +:+ ">" +:+ mid) post).
    + rewrite (substitution_channel_mention _ _ _ _ Hcid). flatten.
    + apply no_at_app; [now apply digits_no_at|].
      apply no_at_cons. split; [discriminate|exact Hmid].
  - apply no_at_app; [exact Hpre|]. apply no_at_cons. split; [discriminate|].
    apply no_at_nil.
  - rewrite append_assoc. change (">" +:+ mid +:+ "@channel" +:+ post)
      with (">" +:+ (mid +:+ "@channel" +:+ post)).
    now apply mention_misses_channel.
Qed.

Lemma customCommand_placeholders_witness :
  hd_error (trace (customCommandAction Scenario.cfg snowflake_message []
                     Scenario.kick_refused Scenario.st))
  = Some (EvChannelSend (channelId snowflake_message)
            ("!note " +:+ "<@" +:+ user_id (author snowflake_message) +:+ ">"
             +:+ " in " +:+ "<#" +:+ channelId snowflake_message +:+ ">"
             +:+ "")).
Proof.
  apply (customCommand_placeholders Scenario.cfg snowflake_message
           Scenario.kick_refused Scenario.st "!note " " in " "").
  - reflexivity.
  - repeat (apply no_at_cons; split; [discriminate|]). apply no_at_nil.
  - repeat (apply no_at_cons; split; [discriminate|]). apply no_at_nil.
  - apply no_at_nil.
  - reflexivity.
  - reflexivity.
Defined.

(** A second [@user] is left as it is, and a [$] pattern in the replacement
    text is expanded. *)
Example customCommand_second_placeholder :
  Js.replace "@channel" "<#7>" (Js.replace "@user" "<@42>" "!warn @user and @user")
  = "!warn <@42> and @user"
  /\ Js.replace "@channel" "<#$&>" "see @channel now" = "see <#@channel> now"
  /\ Js.replace "@channel" "<#$'$$1>" "see @channel now" = "see <# now$1> now".
Proof. repeat split; reflexivity. Qed.

End CommandProps.

(** ** The classification client: answers that are not failures *)

Module ClassifierMore.
Import Schema Discord Effects OpenAI Bot Run RunMore ClassifierProps.

Lemma str_or_falsy o d : Js.opt_truthy o = false -> Js.str_or o d = d.
Proof.
  unfold Js.opt_truthy, Js.str_or. destruct o as [x|]; [|reflexivity].
  now intros ->.
Qed.

(** X18. An answer without content (no choice, no message, a null or empty
    content) is read as the JSON document [{}]: the verdict is then "no
    violation", type "none", score 0, reasoning "No violation detected", and
    nothing is printed on the console. *)
Theorem analyzeMessage_empty_reply message sensitivity env s choices :
  chat_completion env = Resolves choices ->
  Js.opt_truthy (first_content choices) = false ->
  JSON_parse env "{}" = Some (Js.JObj []) ->
  analyzeMessage message sensitivity env s
  = (inr no_violation_detected, s, [EvChatCompletion (request message sensitivity)]).
Proof.
  intros Hr Hc Hp. run_classifier. rewrite Hr. simpl.
  rewrite (str_or_falsy _ _ Hc), Hp. reflexivity.
Qed.

Lemma analyzeMessage_empty_reply_witness :
  analyzeMessage "hello" "medium" no_answer Scenario.st
  = (inr no_violation_detected, Scenario.st,
     [EvChatCompletion (request "hello" "medium")]).
Proof.
  apply (analyzeMessage_empty_reply "hello" "medium" no_answer Scenario.st []);
    reflexivity.
Defined.

(** X19. [analyzeMessage] reports a violation exactly when the request
    resolves, its content (or [{}] in its place) parses to a JSON object,
    and the [isViolation] property of that object is truthy: any truthy
    value will do, and the confidence score plays no part. *)
Theorem violation_verdict_iff message sensitivity env s :
  (exists a, result (analyzeMessage message sensitivity env s) = inr a
             /\ Js.truthy (isViolation a) = true)
  <-> (exists choices fields,
         chat_completion env = Resolves choices
         /\ JSON_parse env (Js.str_or (first_content choices) "{}")
            = Some (Js.JObj fields)
         /\ Js.truthy (Js.assoc "isViolation" fields) = true).
Proof.
  split.
  - intros (a & Ha & Ht). revert Ha. run_classifier.
    destruct (chat_completion env) as [|choices] eqn:Hr; simpl.
    { intros [= <-]. discriminate Ht. }
    destruct (JSON_parse env (Js.str_or (first_content choices) "{}"))
      as [v|] eqn:Hp; simpl.
    2:{ intros [= <-]. discriminate Ht. }
    destruct v; simpl; intros [= <-]; try discriminate Ht.
    exists choices, fields. repeat split; [exact Hp|].
    revert Ht. cbn [isViolation]. unfold Js.or.
    now destruct (Js.truthy (Js.assoc "isViolation" fields)).
  - intros (choices & fields & Hr & Hp & Ht). run_classifier.
    rewrite Hr. simpl. rewrite Hp. simpl. eexists. split; [reflexivity|].
    cbn [isViolation]. unfold Js.or. now rewrite Ht.
Qed.

Lemma eqb_cases (a b : string) :
  (String.eqb a b = true /\ a = b) \/ (String.eqb a b = false /\ a <> b).
Proof.
  destruct (String.eqb a b) eqn:E.
  - left. split; [reflexivity|]. now apply String.eqb_eq.
  - right. split; [reflexivity|]. now apply String.eqb_neq.
Qed.



End ClassifierMore.

(** ** The dashboard connections *)

Module HubProps.
Import Schema Discord Effects Bot Run RunMore BotLemmas Hub.

Lemma ws_sends_open log clients :
  ws_sends log clients
  = map (fun c => EvWsSend (ws_id c) log) (open_clients clients).
Proof.
  unfold ws_sends, open_clients.
  induction clients as [|c clients IH]; [reflexivity|].
  simpl. destruct (readyState c =? 1); simpl; [f_equal|]; exact IH.
Qed.

(** X21. [broadcastLog] writes the entry once to every connection that is
    open at that moment, in the order the connections were registered, and
    to no other; it changes no state and does not fail. *)
Theorem broadcastLog_recipients log env s :
  broadcastLog log env s
  = (inr tt, s,
     EvBroadcast log
     :: map (fun c => EvWsSend (ws_id c) log) (open_clients (connectedClients s))).
Proof. now rewrite broadcastLog_run, ws_sends_open. Qed.

Lemma has_client_false_filter id clients :
  has_client id clients = false ->
  List.filter (fun c => negb (Nat.eqb (ws_id c) id)) clients = clients.
Proof.
  unfold has_client. induction clients as [|c clients IH]; [reflexivity|].
  cbn [existsb List.filter]. intros H. apply orb_false_elim in H as [Hc Hrest].
  rewrite Hc. cbn [negb]. now rewrite IH.
Qed.

Lemma set_clients_same s : set_clients (connectedClients s) s = s.
Proof. now destruct s. Qed.

(** X22. Registering an open dashboard connection that is not in the set
    adds it as the last recipient of every broadcast; registering it again
    changes nothing; and its close event removes exactly that connection,
    so that the set is as it was before. *)
Theorem addWebSocketClient_then_close ws log env s :
  has_client (ws_id ws) (connectedClients s) = false ->
  readyState ws = 1 ->
  let s1 := addWebSocketClient ws s in
  trace (broadcastLog log env s1)
  = trace (broadcastLog log env s) ++ [EvWsSend (ws_id ws) log]
  /\ addWebSocketClient ws s1 = s1
  /\ onClose (ws_id ws) s1 = s.
Proof.
  intros Hnew Hopen. cbv zeta.
  unfold addWebSocketClient at 1 3 4. rewrite Hnew.
  rewrite !broadcastLog_run, !ws_sends_open. unfold trace. cbn [snd].
  cbn [connectedClients set_clients].
  split; [|split].
  - unfold open_clients. rewrite List.filter_app, map_app. cbn [List.filter].
    rewrite Hopen. reflexivity.
  - unfold addWebSocketClient. cbn [connectedClients set_clients].
    unfold has_client. rewrite existsb_app. cbn [existsb].
    now rewrite Nat.eqb_refl, orb_true_r.
  - unfold onClose, addWebSocketClient. rewrite Hnew.
    cbn [connectedClients set_clients storage botClient_user].
    rewrite List.filter_app, (has_client_false_filter _ _ Hnew).
    cbn [List.filter]. rewrite Nat.eqb_refl. cbn [negb].
    rewrite app_nil_r. now destruct s.
Qed.

Lemma addWebSocketClient_then_close_witness :
  let s1 := addWebSocketClient new_socket Scenario.st in
  trace (broadcastLog (Run.created_log Scenario.spam_message Scenario.spam_analysis
                         Scenario.kick_refused) Scenario.kick_refused s1)
  = trace (broadcastLog (Run.created_log Scenario.spam_message
                           Scenario.spam_analysis Scenario.kick_refused)
             Scenario.kick_refused Scenario.st)
    ++ [EvWsSend (ws_id new_socket)
          (Run.created_log Scenario.spam_message Scenario.spam_analysis
             Scenario.kick_refused)]
  /\ addWebSocketClient new_socket s1 = s1
  /\ onClose (ws_id new_socket) s1 = Scenario.st.
Proof.
  apply (addWebSocketClient_then_close new_socket
           (Run.created_log Scenario.spam_message Scenario.spam_analysis
              Scenario.kick_refused) Scenario.kick_refused Scenario.st);
    reflexivity.
Defined.

End HubProps.

(** ** Starting and stopping the bot *)

Module LifecycleProps.
Import Lifecycle.

Lemma live_app conns k :
  List.filter conn_live (conns ++ [k])
  = List.filter conn_live conns ++ (if conn_live k then [k] else []).
Proof. now rewrite List.filter_app. Qed.

Lemma destroy_all_live c conns :
  Forall (fun k => conn_id k = c) (List.filter conn_live conns) ->
  List.filter conn_live (destroy c conns) = [].
Proof.
  induction conns as [|k conns IH]; [reflexivity|].
  cbn [List.filter destroy map]. destruct (conn_live k) eqn:Hk.
  - intros H. inversion H as [|? ? Hid Hrest]; subst.
    rewrite Nat.eqb_refl. cbn [conn_live]. now apply IH.
  - intros H. destruct (Nat.eqb (conn_id k) c); cbn [conn_live];
      rewrite ?Hk; now apply IH.
Qed.

Lemma destroy_listeners c conns :
  Forall (fun k => conn_listeners k = ["ready"; "messageCreate"; "error"]) conns ->
  Forall (fun k => conn_listeners k = ["ready"; "messageCreate"; "error"])
         (destroy c conns).
Proof.
  induction 1 as [|k conns Hk _ IH]; [constructor|].
  cbn [destroy map]. constructor; [|exact IH].
  now destruct (Nat.eqb (conn_id k) c).
Qed.

Lemma step_coherent w op : coherent w -> coherent (step w op).
Proof.
  intros [Hlive Hls]. destruct op as [connects|destroys]; unfold step.
  - unfold startBot. destruct (botClient w) as [c|] eqn:Hb.
    + cbn [fst snd]. split; [now rewrite Hb|exact Hls].
    + destruct connects; cbn [fst snd]; unfold coherent, live;
        cbn [botClient connections].
      * split.
        -- rewrite live_app. cbn [conn_live]. rewrite map_app.
           unfold live in Hlive. rewrite Hlive. reflexivity.
        -- apply Forall_app. split; [exact Hls|]. now repeat constructor.
      * split; [exact Hlive|exact Hls].
  - unfold stopBot. destruct (botClient w) as [c|] eqn:Hb.
    + destruct destroys; cbn [fst snd].
      * unfold coherent, live. cbn [botClient connections]. split.
        -- rewrite destroy_all_live; [reflexivity|].
           unfold live in Hlive. apply Forall_forall. intros k Hk.
           assert (Hin : conn_id k ∈ map conn_id (List.filter conn_live (connections w)))
             by (apply list_elem_of_fmap; eauto).
           rewrite Hlive in Hin. now apply list_elem_of_singleton in Hin.
        -- now apply destroy_listeners.
      * split; [now rewrite Hb|exact Hls].
    + cbn [fst snd]. split; [now rewrite Hb|exact Hls].
Qed.

Lemma run_coherent ops w : coherent w -> coherent (run ops w).
Proof.
  revert w. induction ops as [|op ops IH]; intros w Hw; [exact Hw|].
  apply IH. now apply step_coherent.
Qed.

(** X23. Whatever sequence of [startBot] and [stopBot] calls is made, one
    after the other, and whichever of them fail: at most one platform
    client is connected, it is the one [getBotClient()] returns (there is
    none exactly when it returns null), and every client has exactly one
    [messageCreate] listener, so that no message is handled twice. *)
Theorem one_client_at_most ops :
  let w := run ops fresh in
  map conn_id (live w)
  = match getBotClient w with Some c => [c] | None => [] end
  /\ Forall (fun k => count_occ String.string_dec (conn_listeners k) "messageCreate"
                      = 1%nat) (connections w).
Proof.
  cbv zeta. destruct (run_coherent ops fresh) as [Hlive Hls].
  { split; [reflexivity|constructor]. }
  split; [exact Hlive|].
  eapply Forall_impl; [exact Hls|]. intros k ->. reflexivity.
Qed.

(** What a restart after a failed start and a stop looks like. *)
Example restart_example :
  let w := run [Start false; Start true; Start true; Stop true; Start true] fresh in
  getBotClient w = Some 1%nat
  /\ map conn_live (connections w) = [false; true].
Proof. split; reflexivity. Qed.

End LifecycleProps.

(** ** The queries of the dashboard *)

Module RoutesProps.
Import Stdlib.Strings.Ascii.
Import Schema Storage Discord Effects OpenAI Bot Run RunMore BotLemmas.
Import PipelineProps HandlerProps JsText Routes.

(** *** [join] and [split] *)

Lemma split_from_eq sep skip s :
  split_from sep skip s
  = match s with
    | EmptyString => [""]
    | String c s' =>
        match skip with
        | S k => split_from sep k s'
        | O =>
            if String.prefix sep s
            then "" :: split_from sep (String.length sep - 1) s'
            else match split_from sep 0 s' with
                 | p :: ps => String c p :: ps
                 | [] => [String c ""]
                 end
        end
    end.
Proof. destruct s; reflexivity. Qed.

Lemma comma_free_cons c s :
  comma_free (String c s) <-> c <> ","%char /\ comma_free s.
Proof.
  split.
  - intros H. split.
    + intros ->. now apply (H 0%nat).
    + intros i. exact (H (S i)).
  - intros [Hc Hs] [|i]; simpl; [congruence|apply Hs].
Qed.

Lemma comma_free_nil : comma_free "".
Proof. intros i. destruct i; discriminate. Qed.

Lemma split_from_piece x rest p ps :
  comma_free x ->
  split_from ", " 0 rest = p :: ps ->
  split_from ", " 0 (x +:+ rest) = (x +:+ p) :: ps.
Proof.
  intros Hx Hrest. induction x as [|c x IH]; [exact Hrest|].
  apply comma_free_cons in Hx as [Hc Hx].
  change (String c x +:+ rest) with (String c (x +:+ rest)).
  rewrite split_from_eq.
  change ", " with (String ","%char " ") at 1.
  rewrite CommandProps.prefix_cons.
  destruct (ascii_dec "," c); [congruence|].
  now rewrite (IH Hx).
Qed.

Lemma split_from_sep rest :
  split_from ", " 0 (", " +:+ rest) = "" :: split_from ", " 0 rest.
Proof. now destruct rest. Qed.

Lemma append_nil_r (x : string) : x +:+ "" = x.
Proof.
  induction x as [|c x IH]; [reflexivity|].
  change (String c x +:+ "") with (String c (x +:+ "")). now rewrite IH.
Qed.

(** Joining comma-free items by [", "] and splitting again gives the items
    back. *)
Lemma split_join xs :
  xs <> [] -> Forall comma_free xs -> split ", " (Js.join ", " xs) = xs.
Proof.
  intros Hne Hxs. induction Hxs as [|x xs Hx Hxs IH]; [congruence|].
  unfold split in *. destruct xs as [|y ys].
  - change (Js.join ", " [x]) with x.
    rewrite <- (append_nil_r x) at 1.
    rewrite (split_from_piece x "" "" [] Hx eq_refl). now rewrite append_nil_r.
  - change (Js.join ", " (x :: y :: ys))
      with (x +:+ ", " +:+ Js.join ", " (y :: ys)).
    rewrite (split_from_piece x _ "" (y :: ys) Hx).
    + now rewrite append_nil_r.
    + rewrite split_from_sep. f_equal. apply IH. discriminate.
Qed.

Lemma labels_comma_free c m a env : Forall comma_free (actions_labels c m a env).
Proof.
  apply Forall_forall. intros x Hx. unfold actions_labels in Hx.
  rewrite !elem_of_app in Hx.
  destruct (part_labels c m a env x) as (P1 & P2 & P3 & P4 & P5).
  destruct Hx as [H|[H|[H|[H|H]]]];
    [ apply P1 in H | apply P2 in H | apply P3 in H as [H _]
    | apply P4 in H | apply P5 in H ]; subst x;
    repeat (apply comma_free_cons; split; [discriminate|]); apply comma_free_nil.
Qed.

Lemma succeeded_labels_violation_run req c m a env s :
  succeeded_labels env (EvChatCompletion req :: violation_trace c m a env s)
  = actions_labels c m a env.
Proof.
  rewrite <- succeeded_labels_actions. unfold succeeded_labels.
  destruct call_classes as (P1 & P2 & P3 & P4 & P5 & _).
  now rewrite !existsb_violation_trace by assumption.
Qed.

(** X24. What the handler writes into [actionTaken], the statistics query
    reads back: for a message judged a violation, splitting the stored
    field by [", "] gives the labels of the enforcement calls that went
    through, in order.  When none went through it gives the single label
    "logged", so that such a violation counts as one "logged" action. *)
Theorem actionTaken_read_back m env s :
  takes_action m env s ->
  let r := onMessageCreate m env s in
  exists log,
    last (logs (storage (final r))) = Some log
    /\ actions_of log
       = match succeeded_labels env (trace r) with
         | [] => ["logged"]
         | ls => ls
         end.
Proof.
  intros H. destruct (takes_action_run m env s H) as (c & a & E).
  cbv zeta. rewrite E. unfold final, trace. cbn [fst snd].
  rewrite succeeded_labels_violation_run.
  unfold violation_state. cbn [storage set_storage logs].
  eexists. split; [apply last_snoc|].
  unfold actions_of, final_actionTaken. cbn [actionTaken set_actionTaken log_row
                                              i_actionTaken].
  pose proof (labels_comma_free c m a env) as Hfree.
  destruct (actions_labels c m a env) as [|l ls] eqn:El; [reflexivity|].
  apply split_join; [discriminate|exact Hfree].
Qed.

Lemma actionTaken_read_back_witness :
  let r := onMessageCreate Scenario.spam_message Scenario.kick_refused Scenario.st in
  exists log,
    last (logs (storage (final r))) = Some log
    /\ actions_of log
       = match succeeded_labels Scenario.kick_refused (trace r) with
         | [] => ["logged"]
         | ls => ls
         end.
Proof.
  exact (actionTaken_read_back Scenario.spam_message Scenario.kick_refused
           Scenario.st spam_takes_action).
Defined.

(** *** GET /api/logs/recent *)

Ltac eval_digit :=
  match goal with
  | |- context [digit 10 ?c] =>
      let v := eval vm_compute in (digit 10 c) in
      change (digit 10 c) with v
  end.

Lemma digits_uint d n :
  digits 10 (Some (Z.of_nat n)) (DecimalString.NilEmpty.string_of_uint d)
  = Some (Z.of_nat (Nat.of_uint_acc d n)).
Proof.
  revert n. induction d as [|d IH|d IH|d IH|d IH|d IH|d IH|d IH|d IH|d IH|d IH];
    intros n; [reflexivity|..];
    cbn [DecimalString.NilEmpty.string_of_uint digits Nat.of_uint_acc];
    eval_digit; cbn [default from_option]; rewrite Nat.tail_mul_spec;
    (etransitivity; [|apply IH]); do 2 f_equal; unfold Datatypes.id; lia.
Qed.

Lemma digits_numeral d :
  d <> Decimal.Nil ->
  digits 10 None (DecimalString.NilEmpty.string_of_uint d)
  = Some (Z.of_nat (Nat.of_uint d)).
Proof.
  intros Hd. unfold Nat.of_uint.
  destruct d as [|d|d|d|d|d|d|d|d|d|d]; [congruence|..];
    cbn [DecimalString.NilEmpty.string_of_uint digits Nat.of_uint_acc];
    eval_digit; cbn [default from_option]; rewrite Nat.tail_mul_spec;
    (etransitivity; [|apply digits_uint]); do 2 f_equal.
Qed.

Lemma parseInt_numeral d :
  parseInt (DecimalString.NilZero.string_of_uint d)
  = Some (Z.of_nat (Nat.of_uint d)).
Proof.
  assert (Hcases : d = Decimal.Nil \/ d <> Decimal.Nil)
    by (destruct d; [now left|right; discriminate..]).
  destruct Hcases as [->|Hd]; [reflexivity|].
  assert (E : parseInt (DecimalString.NilZero.string_of_uint d)
              = match digits 10 None (DecimalString.NilEmpty.string_of_uint d) with
                | Some n => Some (1 * n)
                | None => None
                end).
  { destruct d as [|d|d|d|d|d|d|d|d|d|d]; [congruence|..];
      destruct d; reflexivity. }
  rewrite E, (digits_numeral d Hd). f_equal. lia.
Qed.

Lemma parseInt_decimal n : parseInt (decimal n) = Some (Z.of_nat n).
Proof.
  unfold decimal. now rewrite parseInt_numeral, DecimalNat.Unsigned.of_to.
Qed.

Lemma decimal_truthy n : Js.str_truthy (decimal n) = true.
Proof.
  unfold decimal. destruct (Nat.to_uint n); reflexivity.
Qed.

Lemma trim_start_decimal n : trim_start (decimal n) = decimal n.
Proof. unfold decimal. destruct (Nat.to_uint n); reflexivity. Qed.

Lemma parse_trimmed_decimal n : parse_trimmed (decimal n) = Some (Z.of_nat n).
Proof.
  rewrite <- (parseInt_decimal n). unfold parseInt.
  now rewrite trim_start_decimal.
Qed.

Lemma parse_trimmed_not_a_number c q :
  c <> "-"%char -> c <> "+"%char -> digit 10 c = None ->
  parse_trimmed (String c q) = None.
Proof.
  intros Hm Hp Hd. unfold parse_trimmed.
  apply Ascii.eqb_neq in Hm, Hp. rewrite Hm, Hp.
  assert (H0 : Ascii.eqb c "0" = false).
  { apply Ascii.eqb_neq. intros ->. discriminate Hd. }
  destruct q as [|x r]; rewrite ?H0; cbn [andb digits]; now rewrite Hd.
Qed.

(** X25. GET /api/logs/recent: without a [limit] parameter, or with an
    empty one, the five newest entries are returned; with a decimal numeral
    [n], also behind white space (that of Unicode included), the [n] newest
    (none for 0); and a [limit] that, behind its white space, does not
    start with a sign or a digit, such as [abc], does not fall back to five
    and is no error: the answer is the empty list. *)
Theorem recentLogs_query s :
  recentLogs s None = take 5 (getLogs s)
  /\ recentLogs s (Some "") = take 5 (getLogs s)
  /\ (forall n, recentLogs s (Some (decimal n)) = take n (getLogs s))
  /\ (forall w n,
        trim_start w = decimal n ->
        recentLogs s (Some w) = take n (getLogs s))
  /\ (forall w c q,
        w <> "" -> trim_start w = String c q ->
        c <> "-"%char -> c <> "+"%char -> digit 10 c = None ->
        recentLogs s (Some w) = [])
  /\ (forall w, w <> "" -> trim_start w = "" -> recentLogs s (Some w) = []).
Proof.
  assert (Hn : forall n : nat,
             getRecentLogs s (Some (Z.of_nat n)) = take n (getLogs s)).
  { intros n. unfold getRecentLogs. change (default 5 (Some (Z.of_nat n)))
      with (Z.of_nat n). cbv zeta. fold (getLogs s).
    rewrite StorageProps.slice0_nonneg by lia. now rewrite Nat2Z.id. }
  assert (Ht : forall w, w <> "" -> Js.str_truthy w = true)
    by (intros [|? ?] H; [congruence|reflexivity]).
  split; [exact (Hn 5%nat)|]. split; [exact (Hn 5%nat)|].
  split; [|split; [|split]].
  - intros n. unfold recentLogs. rewrite decimal_truthy, parseInt_decimal.
    apply Hn.
  - intros w n Hw.
    assert (Hne : w <> "").
    { intros ->. pose proof (decimal_truthy n) as H. rewrite <- Hw in H.
      discriminate H. }
    unfold recentLogs, parseInt. rewrite (Ht w Hne), Hw, parse_trimmed_decimal.
    apply Hn.
  - intros w c q Hne Hw Hm Hp Hd. unfold recentLogs, parseInt.
    rewrite (Ht w Hne), Hw, (parse_trimmed_not_a_number c q Hm Hp Hd).
    exact (Hn 0%nat).
  - intros w Hne Hw. unfold recentLogs, parseInt. rewrite (Ht w Hne), Hw.
    exact (Hn 0%nat).
Qed.

(** Some queries on the example store; in the last two the digit stands
    behind U+00A0 and behind U+2028. *)
Example recentLogs_examples :
  map log_id (recentLogs Scenario.store (Some "2")) = ["b"; "c"]
  /\ map log_id (recentLogs Scenario.store (Some "abc")) = []
  /\ map log_id (recentLogs Scenario.store (Some "-1")) = ["b"; "c"]
  /\ map log_id (recentLogs Scenario.store (Some " 1e3")) = ["b"]
  /\ map log_id (recentLogs Scenario.store
                   (Some (String (ascii_of_nat 194) (String (ascii_of_nat 160) "2"))))
     = ["b"; "c"]
  /\ map log_id (recentLogs Scenario.store
                   (Some (String (ascii_of_nat 226)
                            (String (ascii_of_nat 128)
                               (String (ascii_of_nat 168) "1")))))
     = ["b"].
Proof. vm_compute. repeat split. Qed.

(** *** GET /api/stats *)

Lemma filter_narrow {A} (p q : A -> bool) l :
  (forall x, p x = true -> q x = true) ->
  List.filter p l = List.filter p (List.filter q l).
Proof.
  intros Hpq. induction l as [|x l IH]; [reflexivity|]. cbn [List.filter].
  destruct (p x) eqn:Hp.
  - rewrite (Hpq x Hp). cbn [List.filter]. now rewrite Hp, IH.
  - destruct (q x); cbn [List.filter]; now rewrite ?Hp, IH.
Qed.

Lemma keeps_nested sid now log :
  (keeps sid (Some "24h") now log = true -> keeps sid (Some "7d") now log = true)
  /\ (keeps sid (Some "7d") now log = true -> keeps sid (Some "30d") now log = true)
  /\ (keeps sid (Some "30d") now log = true -> keeps sid (Some "all") now log = true).
Proof.
  unfold keeps.
  destruct (Js.opt_truthy sid
            && negb (String.eqb (i_serverId (log_row log)) (default "" sid)));
    [now repeat split|].
  cbn. repeat split; try reflexivity; intros H; apply Z.leb_le in H;
    apply Z.leb_le; lia.
Qed.

Lemma keeps_other_range sid r now log :
  ~ In r ["24h"; "7d"; "30d"] ->
  keeps sid (Some r) now log = keeps sid None now log.
Proof.
  intros Hr. unfold keeps.
  destruct (ClassifierMore.eqb_cases r "24h") as [[_ ->]|[-> _]];
    [exfalso; apply Hr; simpl; auto|].
  destruct (ClassifierMore.eqb_cases r "7d") as [[_ ->]|[-> _]];
    [exfalso; apply Hr; simpl; auto|].
  destruct (ClassifierMore.eqb_cases r "30d") as [[_ ->]|[-> _]];
    [exfalso; apply Hr; simpl; auto|].
  reflexivity.
Qed.

(** X26. GET /api/stats: the time windows are nested.  The entries of the
    24-hour window are those of the 7-day window that are at most a day old,
    likewise for 7 and 30 days and for 30 days and "all", so the counts can
    only grow with the window; and every other value of [timeRange], or
    none, selects all entries, like "all". *)
Theorem filteredLogs_windows s sid now :
  let f r := filteredLogs s sid r now in
  f (Some "24h") = List.filter (keeps sid (Some "24h") now) (f (Some "7d"))
  /\ f (Some "7d") = List.filter (keeps sid (Some "7d") now) (f (Some "30d"))
  /\ f (Some "30d") = List.filter (keeps sid (Some "30d") now) (f (Some "all"))
  /\ (totalViolations s sid (Some "24h") now <= totalViolations s sid (Some "7d") now
      /\ totalViolations s sid (Some "7d") now <= totalViolations s sid (Some "30d") now
      /\ totalViolations s sid (Some "30d") now <= totalViolations s sid (Some "all") now)%nat
  /\ (forall r, ~ In r ["24h"; "7d"; "30d"] -> f (Some r) = f None).
Proof.
  cbv zeta. unfold totalViolations, filteredLogs.
  assert (H1 := fun log => proj1 (keeps_nested sid now log)).
  assert (H2 := fun log => proj1 (proj2 (keeps_nested sid now log))).
  assert (H3 := fun log => proj2 (proj2 (keeps_nested sid now log))).
  pose proof (filter_narrow _ _ (getLogs s) H1) as E1.
  pose proof (filter_narrow _ _ (getLogs s) H2) as E2.
  pose proof (filter_narrow _ _ (getLogs s) H3) as E3.
  split; [exact E1|]. split; [exact E2|]. split; [exact E3|]. split.
  - rewrite E1, E2, E3. repeat split; apply List.filter_length_le.
  - intros r Hr. apply List.filter_ext. intros log.
    now apply keeps_other_range.
Qed.

End RoutesProps.
